(** * my-ai-agent: the hybrid memory store, embedded in Rocq

    A shallow embedding of [agent/memory/embeddings.py] and
    [agent/memory/store.py].

    Modelling choices, all taken from the source:
    - a Python [float] is an IEEE-754 binary64 value, a [spec_float] of the
      Standard Library; the 4-byte storage format of [struct.pack("f")] is
      binary32, written bit by bit, least significant byte first;
    - the arithmetic of [cosine_similarity] and of the hybrid ranking is
      read over the real numbers (no rounding): a float enters it through
      its value [float_val];
    - exceptions are explicit: every operation returns an [outcome];
    - the SQLite file is a record of two tables and the AUTOINCREMENT
      counter; the three triggers of [_init_db] are part of the insert and
      delete steps;
    - the FTS5 matcher and the FastEmbed model are not code of the
      repository: they are parameters of the development. *)

From Stdlib Require Import String Ascii Strings.Byte.
From Stdlib Require Import ZArith List Bool Lia.
From Stdlib Require Import Reals Lra.
From Stdlib Require Import Floats.SpecFloat.
From Stdlib Require Import Permutation.
Import ListNotations.

Local Open Scope Z_scope.

(** ** Exceptions and outcomes *)

Inductive exn : Type :=
  | ImportError      (* raised by [_get_model] *)
  | StructError      (* struct.error *)
  | OverflowError    (* "float too large to pack with f format" *)
  | RuntimeError.    (* raised by [save] when no id comes back *)

Inductive outcome (A : Type) : Type :=
  | Ok (a : A)
  | Raise (e : exn).

Arguments Ok {A} a.
Arguments Raise {A} e.

Definition bind {A B : Type} (x : outcome A) (f : A -> outcome B) : outcome B :=
  match x with
  | Ok a => f a
  | Raise e => Raise e
  end.

Notation "x <- c1 ;; c2" := (bind c1 (fun x => c2))
  (at level 61, c1 at next level, right associativity).

Definition returns {A : Type} (x : outcome A) : Prop := exists a, x = Ok a.

(** ** Python floats and byte strings *)

Definition float : Type := spec_float.
Definition bytes : Type := list byte.

Module Binary32.

(** The storage format: 24 bits of precision, infinities at exponent 128. *)
Definition prec : Z := 24.
Definition emax : Z := 128.

(** The 32-bit pattern of a binary32 value: sign, 8 exponent bits,
    23 fraction bits. *)
Definition bits_of (x : spec_float) : Z :=
  match x with
  | S754_zero s => if s then 2 ^ 31 else 0
  | S754_infinity s => (if s then 2 ^ 31 else 0) + 255 * 2 ^ 23
  | S754_nan => 255 * 2 ^ 23 + 2 ^ 22
  | S754_finite s m e =>
      (if s then 2 ^ 31 else 0) +
      (if Z.pos m <? 2 ^ 23 then Z.pos m
       else (e + 150) * 2 ^ 23 + (Z.pos m - 2 ^ 23))
  end.

Definition of_bits (w : Z) : spec_float :=
  let s := Z.testbit w 31 in
  let ex := Z.land (Z.shiftr w 23) 255 in
  let fr := Z.land w (2 ^ 23 - 1) in
  if ex =? 0 then
    match fr with
    | Z.pos m => S754_finite s m (-149)
    | _ => S754_zero s
    end
  else if ex =? 255 then
    (if fr =? 0 then S754_infinity s else S754_nan)
  else
    match fr + 2 ^ 23 with
    | Z.pos m => S754_finite s m (ex - 150)
    | _ => S754_nan
    end.

End Binary32.

Module Binary64.
Definition prec : Z := 53.
Definition emax : Z := 1024.
End Binary64.

(** A byte from the low 8 bits of an integer. *)
Definition byte_of_Z (z : Z) : byte :=
  match Byte.of_N (Z.to_N (z mod 256)) with
  | Some b => b
  | None => x00
  end.

Definition Z_of_byte (b : byte) : Z := Z.of_N (Byte.to_N b).

(** Four bytes of a 32-bit word, least significant first. *)
Definition word_to_bytes (w : Z) : bytes :=
  [ byte_of_Z w; byte_of_Z (Z.shiftr w 8);
    byte_of_Z (Z.shiftr w 16); byte_of_Z (Z.shiftr w 24) ].

Definition bytes_to_word (b0 b1 b2 b3 : byte) : Z :=
  Z_of_byte b0 + Z_of_byte b1 * 2 ^ 8 + Z_of_byte b2 * 2 ^ 16
  + Z_of_byte b3 * 2 ^ 24.

(** [struct.pack("f", x)]: the double is converted to the nearest binary32
    value (ties to even); a finite double that rounds to an infinity is
    refused. *)
Definition narrow (x : float) : spec_float :=
  match x with
  | S754_finite s m e => binary_round Binary32.prec Binary32.emax s m e
  | _ => x
  end.

Definition is_infinity (x : spec_float) : bool :=
  match x with
  | S754_infinity _ => true
  | _ => false
  end.

Definition pack_f (x : float) : outcome bytes :=
  let y := narrow x in
  if is_infinity y && negb (is_infinity x) then Raise OverflowError
  else Ok (word_to_bytes (Binary32.bits_of y)).

(** [struct.unpack("f", b)]: the binary32 value read from four bytes, as a
    double (the conversion is exact). *)
Definition widen (y : spec_float) : float :=
  match y with
  | S754_finite s m e => binary_round Binary64.prec Binary64.emax s m e
  | _ => y
  end.

Definition unpack_f (b0 b1 b2 b3 : byte) : float :=
  widen (Binary32.of_bits (bytes_to_word b0 b1 b2 b3)).

(** ** embeddings.py: the vector codec *)

(** [struct.pack(f"{len(vec)}f", *vec)] *)
Fixpoint struct_pack_f (vec : list float) : outcome bytes :=
  match vec with
  | [] => Ok []
  | x :: rest =>
      b <- pack_f x ;;
      bs <- struct_pack_f rest ;;
      Ok (b ++ bs)
  end.

Definition serialize_vector (vec : list float) : outcome bytes :=
  struct_pack_f vec.

(** [struct.unpack(f"{n}f", data)]: the buffer must be exactly [4 * n]
    bytes long. *)
Fixpoint unpack_floats (data : bytes) : list float :=
  match data with
  | b0 :: b1 :: b2 :: b3 :: rest => unpack_f b0 b1 b2 b3 :: unpack_floats rest
  | _ => []
  end.

Definition struct_unpack_f (n : Z) (data : bytes) : outcome (list float) :=
  if Z.of_nat (length data) =? 4 * n then Ok (unpack_floats data)
  else Raise StructError.

Definition deserialize_vector (data : bytes) : outcome (list float) :=
  let n := Z.of_nat (length data) / 4 in
  struct_unpack_f n data.


(** ** Reading floats as real numbers *)

(** The value of a float; infinities and NaN have none and read as [0]. *)
Definition float_val (x : float) : R :=
  match x with
  | S754_finite s m e =>
      if 0 <=? e then IZR (cond_Zopp s (Z.pos m) * 2 ^ e)
      else (IZR (cond_Zopp s (Z.pos m)) / IZR (2 ^ (- e)))%R
  | _ => 0%R
  end.

(** [sum(...)]: left to right, from [0]. *)
Definition py_sum (l : list R) : R := fold_left Rplus l 0%R.

(** [x ** y] for a base [x >= 0] and an exponent [y > 0]. *)
Definition float_pow (x y : R) : R :=
  if Req_dec_T x 0 then 0%R else Rpower x y.

(** [min(...)] and [max(...)] of a non-empty sequence. *)
Definition py_min (l : list R) : R :=
  match l with
  | [] => 0%R
  | x :: rest => fold_left Rmin rest x
  end.

Definition py_max (l : list R) : R :=
  match l with
  | [] => 0%R
  | x :: rest => fold_left Rmax rest x
  end.

(** ** embeddings.py: cosine_similarity *)

Definition cosine_similarity (a b : list float) : R :=
  let dot :=
    py_sum (map (fun xy => (float_val (fst xy) * float_val (snd xy))%R)
                (combine a b)) in
  let norm_a :=
    float_pow (py_sum (map (fun x => (float_val x * float_val x)%R) a))
              (5 / 100)%R in
  let norm_b :=
    float_pow (py_sum (map (fun x => (float_val x * float_val x)%R) b))
              (5 / 100)%R in
  if Req_dec_T norm_a 0 then 0%R
  else if Req_dec_T norm_b 0 then 0%R
  else (dot / (norm_a * norm_b))%R.

(** The reference definition of the specification: the dot product over
    the product of the Euclidean norms. *)
Definition euclidean_norm (a : list float) : R :=
  sqrt (py_sum (map (fun x => (float_val x * float_val x)%R) a)).

Definition reference_cosine (a b : list float) : R :=
  (py_sum (map (fun xy => (float_val (fst xy) * float_val (snd xy))%R)
               (combine a b))
   / (euclidean_norm a * euclidean_norm b))%R.

(** ** Python dictionaries: insertion-ordered association lists *)

Section Dict.
Context {K V : Type}.
Variable eqb : K -> K -> bool.

(** [d[k] = v]: an existing key keeps its place. *)
Fixpoint dict_set (k : K) (v : V) (d : list (K * V)) : list (K * V) :=
  match d with
  | [] => [(k, v)]
  | (k', v') :: d' =>
      if eqb k' k then (k, v) :: d' else (k', v') :: dict_set k v d'
  end.

(** [d.get(k)] *)
Fixpoint dict_get (k : K) (d : list (K * V)) : option V :=
  match d with
  | [] => None
  | (k', v') :: d' => if eqb k' k then Some v' else dict_get k d'
  end.
End Dict.

(** ** Slices and SQL limits *)

(** [l[:n]] *)
Definition py_slice_to {A : Type} (n : Z) (l : list A) : list A :=
  if 0 <=? n then firstn (Z.to_nat n) l
  else firstn (length l - Z.to_nat (- n)) l.

(** [LIMIT n]: a negative limit is no limit. *)
Definition sql_limit {A : Type} (n : Z) (l : list A) : list A :=
  if n <? 0 then l else firstn (Z.to_nat n) l.

(** The integers SQLite can bind as a parameter. *)
Definition int64_ok (n : Z) : bool := (- 2 ^ 63 <=? n) && (n <? 2 ^ 63).

(** ** Text: the characters of [\w] and [\s] (ASCII text) *)

Definition is_word_char (c : ascii) : bool :=
  let n := nat_of_ascii c in
  ((48 <=? n) && (n <=? 57) || (65 <=? n) && (n <=? 90)
   || (97 <=? n) && (n <=? 122) || (n =? 95))%nat.

Definition is_space_char (c : ascii) : bool :=
  let n := nat_of_ascii c in
  ((9 <=? n) && (n <=? 13) || (28 <=? n) && (n <=? 32))%nat.

Fixpoint string_filter (keep : ascii -> bool) (s : string) : string :=
  match s with
  | EmptyString => EmptyString
  | String c rest =>
      if keep c then String c (string_filter keep rest)
      else string_filter keep rest
  end.

(** [re.sub(r'[^\w\s]', '', query)] *)
Definition sanitize (query : string) : string :=
  string_filter (fun c => is_word_char c || is_space_char c) query.

Fixpoint lstrip (s : string) : string :=
  match s with
  | EmptyString => EmptyString
  | String c rest => if is_space_char c then lstrip rest else s
  end.

Fixpoint string_rev_onto (s acc : string) : string :=
  match s with
  | EmptyString => acc
  | String c rest => string_rev_onto rest (String c acc)
  end.

Definition string_rev (s : string) : string := string_rev_onto s EmptyString.

(** [s.strip()] *)
Definition strip (s : string) : string :=
  string_rev (lstrip (string_rev (lstrip s))).

(** Truth value of a string: non-empty. *)
Definition truthy (s : string) : bool :=
  match s with
  | EmptyString => false
  | String _ _ => true
  end.

(** ** The runtime around the repository *)

(** A loaded FastEmbed model: [model.embed([text])] gives one vector. *)
Definition Model : Type := string -> list float.

(** One row of the FTS5 table [memories_fts]. *)
Record FtsRow : Type := {
  fts_rowid : Z;
  fts_content : string;
  fts_category : string
}.

(** What the process finds around it: the result of importing FastEmbed
    ([None] when the import fails) and the FTS5 matcher, which answers
    [MATCH ? ORDER BY rank] over the indexed rows with the matching rowids
    and their ranks, best first, or fails ([None]) on a query it cannot
    parse. *)
Record Runtime : Type := {
  fastembed : option Model;
  fts5_match : list FtsRow -> string -> option (list (Z * R))
}.

(** ** Persistent state: the SQLite file *)

(** One row of the table [memories]. *)
Record Row : Type := {
  row_id : Z;
  row_content : string;
  row_category : string;
  row_embedding : option bytes;
  row_created_at : string;
  row_updated_at : string
}.

Record Database : Type := {
  memories : list Row;            (* in rowid order *)
  memories_fts : list FtsRow;
  sqlite_sequence : Z             (* largest rowid ever given *)
}.

(** The process: the module global [_embed_model] and the database. *)
Record World : Type := {
  _embed_model : option Model;
  db : Database
}.

(** Stateful code: a world in, an outcome and a world out.  An exception
    keeps the state reached so far. *)
Definition py (A : Type) : Type := World -> outcome A * World.

Definition ret {A : Type} (a : A) : py A := fun w => (Ok a, w).
Definition raise {A : Type} (e : exn) : py A := fun w => (Raise e, w).

Definition py_bind {A B : Type} (c : py A) (f : A -> py B) : py B :=
  fun w =>
    match c w with
    | (Ok a, w') => f a w'
    | (Raise e, w') => (Raise e, w')
    end.

Notation "x <~ c1 ;; c2" := (py_bind c1 (fun x => c2))
  (at level 61, c1 at next level, right associativity).

Definition lift {A : Type} (x : outcome A) : py A := fun w => (x, w).
Definition get_db : py Database := fun w => (Ok (db w), w).
Definition put_db (d : Database) : py unit :=
  fun w => (Ok tt, {| _embed_model := _embed_model w; db := d |}).

(** ** embeddings.py: the lazily loaded model *)

Definition _get_model (rt : Runtime) : py Model :=
  fun w =>
    match _embed_model w with
    | Some m => (Ok m, w)
    | None =>
        match fastembed rt with
        | Some m => (Ok m, {| _embed_model := Some m; db := db w |})
        | None => (Raise ImportError, w)
        end
    end.

Definition embed_text (rt : Runtime) (text : string) : py (list float) :=
  model <~ _get_model rt ;;
  ret (model text).

(** ** store.py: MemoryStore *)

(** Hybrid search weights. *)
Definition VECTOR_WEIGHT : R := (7 / 10)%R.
Definition KEYWORD_WEIGHT : R := (3 / 10)%R.

(** [_init_db] on a new file: both tables empty. *)
Definition _init_db : Database :=
  {| memories := []; memories_fts := []; sqlite_sequence := 0 |}.

Definition max_rowid (rows : list Row) : Z :=
  fold_left (fun acc r => Z.max acc (row_id r)) rows 0.

(** [INSERT INTO memories ...]: AUTOINCREMENT gives a rowid above every
    rowid ever used; trigger [memories_ai] copies the row into the index.
    The first component is [cursor.lastrowid]. *)
Definition insert_memory (content category : string) (blob : bytes)
    (now : string) (d : Database) : option Z * Database :=
  let id := Z.max (sqlite_sequence d) (max_rowid (memories d)) + 1 in
  let row := {| row_id := id; row_content := content;
                row_category := category; row_embedding := Some blob;
                row_created_at := now; row_updated_at := now |} in
  let idx := {| fts_rowid := id; fts_content := content;
                fts_category := category |} in
  (Some id, {| memories := memories d ++ [row];
          memories_fts := memories_fts d ++ [idx];
          sqlite_sequence := id |}).

(** [DELETE FROM memories WHERE id = ?]: trigger [memories_ad] runs once
    for each deleted row.  The result is the number of rows changed. *)
Definition delete_memory (memory_id : Z) (d : Database) : Z * Database :=
  let hit := filter (fun r => row_id r =? memory_id) (memories d) in
  match hit with
  | [] => (0, d)
  | _ :: _ =>
      let gone := filter (fun x => fts_rowid x =? memory_id) (memories_fts d) in
      (Z.of_nat (length hit) + Z.of_nat (length gone),
       {| memories := filter (fun r => negb (row_id r =? memory_id)) (memories d);
          memories_fts :=
            filter (fun x => negb (fts_rowid x =? memory_id)) (memories_fts d);
          sqlite_sequence := sqlite_sequence d |})
  end.

(** [save(content, category)]; [now] is [datetime.now().isoformat()]. *)
Definition save (rt : Runtime) (content category now : string) : py Z :=
  embedding <~ embed_text rt content ;;
  embedding_blob <~ lift (serialize_vector embedding) ;;
  d <~ get_db ;;
  let '(lastrowid, d') := insert_memory content category embedding_blob now d in
  _ <~ put_db d' ;;
  match lastrowid with
  | None => raise RuntimeError
  | Some memory_id => ret memory_id
  end.

(** [delete(memory_id)]; an integer SQLite cannot bind is refused before
    anything is deleted. *)
Definition delete (memory_id : Z) : py bool :=
  d <~ get_db ;;
  if int64_ok memory_id then
    let '(affected, d') := delete_memory memory_id d in
    _ <~ put_db d' ;;
    ret (0 <? affected)
  else raise OverflowError.

(** [count()] *)
Definition count : py Z :=
  d <~ get_db ;;
  ret (Z.of_nat (length (memories d))).

(** One value of [vector_scores]. *)
Record Scored : Type := {
  sc_content : string;
  sc_category : string;
  sc_created_at : string;
  sc_vector_score : R
}.

(** One dictionary of the list [search] returns. *)
Record Hit : Type := {
  hit_id : Z;
  hit_content : string;
  hit_category : string;
  hit_created_at : string;
  hit_score : R;
  hit_vector_score : R;
  hit_keyword_score : R
}.

(** Truth value of [emb_blob]: neither [None] nor empty. *)
Definition blob_of (r : Row) : option bytes :=
  match row_embedding r with
  | Some (b :: bs) => Some (b :: bs)
  | _ => None
  end.

(** Step 3: one turn of the loop over [rows]. *)
Definition score_row (query_embedding : list float) (r : Row)
    (vector_scores : list (Z * Scored)) : outcome (list (Z * Scored)) :=
  match blob_of r with
  | Some emb_blob =>
      mem_embedding <- deserialize_vector emb_blob ;;
      let similarity := cosine_similarity query_embedding mem_embedding in
      Ok (dict_set Z.eqb (row_id r)
            {| sc_content := row_content r;
               sc_category := row_category r;
               sc_created_at := row_created_at r;
               sc_vector_score := Rmax 0 similarity |}
            vector_scores)
  | None => Ok vector_scores
  end.

Fixpoint score_rows (query_embedding : list float) (rows : list Row)
    (vector_scores : list (Z * Scored)) : outcome (list (Z * Scored)) :=
  match rows with
  | [] => Ok vector_scores
  | r :: rest =>
      vs <- score_row query_embedding r vector_scores ;;
      score_rows query_embedding rest vs
  end.

(** Step 4: the normalised keyword scores of the rows FTS5 returned. *)
Definition normalize_ranks (fts_rows : list (Z * R)) : list (Z * R) :=
  match fts_rows with
  | [] => []
  | _ :: _ =>
      let min_rank := py_min (map snd fts_rows) in
      let max_rank := py_max (map snd fts_rows) in
      let rank_range :=
        if Req_dec_T max_rank min_rank then 1%R
        else (max_rank - min_rank)%R in
      fold_left
        (fun keyword_scores rr =>
           let normalized :=
             if Req_dec_T rank_range 0 then 1%R
             else (1 - (snd rr - min_rank) / rank_range)%R in
           dict_set Z.eqb (fst rr) normalized keyword_scores)
        fts_rows []
  end.

(** Step 4 as a whole: any exception of the keyword query leaves
    [keyword_scores] empty. *)
Definition keyword_search (rt : Runtime) (d : Database) (query : string)
    (limit : Z) : list (Z * R) :=
  let safe_query := sanitize query in
  if truthy (strip safe_query) then
    if int64_ok (limit * 3) then
      match fts5_match rt (memories_fts d) safe_query with
      | Some matches => normalize_ranks (sql_limit (limit * 3) matches)
      | None => []
      end
    else []
  else [].

(** Step 5: the weighted sum for one entry of [vector_scores]. *)
Definition combine_scores (keyword_scores : list (Z * R))
    (entry : Z * Scored) : Hit :=
  let '(mem_id, data) := entry in
  let v_score := sc_vector_score data in
  let k_score :=
    match dict_get Z.eqb mem_id keyword_scores with
    | Some k => k
    | None => 0%R
    end in
  let hybrid_score := (VECTOR_WEIGHT * v_score + KEYWORD_WEIGHT * k_score)%R in
  {| hit_id := mem_id;
     hit_content := sc_content data;
     hit_category := sc_category data;
     hit_created_at := sc_created_at data;
     hit_score := hybrid_score;
     hit_vector_score := v_score;
     hit_keyword_score := k_score |}.

(** Step 6: [sort(key=..., reverse=True)] is stable: of two entries with
    the same key the earlier one stays first. *)
Fixpoint insert_desc {A : Type} (key : A -> R) (x : A) (l : list A) : list A :=
  match l with
  | [] => [x]
  | y :: rest =>
      if Rlt_dec (key x) (key y) then y :: insert_desc key x rest
      else x :: l
  end.

Definition sort_desc {A : Type} (key : A -> R) (l : list A) : list A :=
  fold_right (insert_desc key) [] l.

(** [search(query, limit)] *)
Definition search (rt : Runtime) (query : string) (limit : Z) : py (list Hit) :=
  query_embedding <~ embed_text rt query ;;
  d <~ get_db ;;
  let rows := memories d in
  match rows with
  | [] => ret []
  | _ :: _ =>
      vector_scores <~ lift (score_rows query_embedding rows []) ;;
      let keyword_scores := keyword_search rt d query limit in
      let combined := map (combine_scores keyword_scores) vector_scores in
      ret (py_slice_to limit (sort_desc hit_score combined))
  end.

(** Keys and values of the dictionaries [get_all] builds. *)
Inductive key : Type :=
  | KStr (s : string)      (* a string key *)
  | KBuiltinId.            (* the builtin function [id] *)

Inductive value : Type :=
  | VInt (z : Z)
  | VStr (s : string).

Definition key_eqb (a b : key) : bool :=
  match a, b with
  | KStr s, KStr t => String.eqb s t
  | KBuiltinId, KBuiltinId => true
  | _, _ => false
  end.

(** [ORDER BY created_at DESC]: text compared byte by byte. *)
Fixpoint insert_recent (r : Row) (l : list Row) : list Row :=
  match l with
  | [] => [r]
  | y :: rest =>
      if String.ltb (row_created_at r) (row_created_at y)
      then y :: insert_recent r rest
      else r :: l
  end.

Definition order_by_created_at_desc (rows : list Row) : list Row :=
  fold_right insert_recent [] rows.

(** The dictionary literal of [get_all]:
    [{id: r[0], "content": r[1], "category": r[2], "created_at": r[3]}] *)
Definition record_dict (r : Row) : list (key * value) :=
  dict_set key_eqb (KStr "created_at") (VStr (row_created_at r))
    (dict_set key_eqb (KStr "category") (VStr (row_category r))
       (dict_set key_eqb (KStr "content") (VStr (row_content r))
          (dict_set key_eqb KBuiltinId (VInt (row_id r)) []))).

(** [get_all(limit)] *)
Definition get_all (limit : Z) : py (list (list (key * value))) :=
  d <~ get_db ;;
  if int64_ok limit then
    let rows := sql_limit limit (order_by_created_at_desc (memories d)) in
    ret (map record_dict rows)
  else raise OverflowError.

(** ** memory/loader.py: the identity files *)

Local Open Scope string_scope.

(** What [memory_dir / filename] is on disk: nothing, a text file, or
    something [exists()] finds and [read_text] fails on (a directory, a
    file that is not UTF-8 or may not be read). *)
Inductive dir_entry : Type :=
  | Absent
  | TextFile (text : string)
  | Unreadable.

Definition newline : string := String (ascii_of_nat 10) EmptyString.

Definition IDENTITY_FILES : list (string * string) :=
  [ ("SOUL.md", "Agent Identity");
    ("USER.md", "User Profile");
    ("MEMORY.md", "Decisions & Lessons") ].

(** The body of the [for] loop, over the files still to visit.  The
    result is [None] when [read_text] raises. *)
Fixpoint load_sections (memory_dir : string -> dir_entry)
    (files : list (string * string)) (sections : list string)
    : option (list string) :=
  match files with
  | [] => Some sections
  | (filename, label) :: rest =>
      match memory_dir filename with
      | Absent => load_sections memory_dir rest sections
      | Unreadable => None
      | TextFile text =>
          let content := strip text in
          if truthy content
          then load_sections memory_dir rest
                 (sections ++ ["## " ++ label ++ newline ++ content])
          else load_sections memory_dir rest sections
      end
  end.

(** The [else] of the [for] loop: it runs once the loop is over, with the
    [filename] and [label] of the last turn. *)
Definition placeholder (filename label : string) : string :=
  "## " ++ label ++ newline
  ++ "*(No " ++ filename ++ " found - create one to personalize your agent)*".

(** [load_identity(memory_dir)] *)
Definition load_identity (memory_dir : string -> dir_entry) : option string :=
  match load_sections memory_dir IDENTITY_FILES [] with
  | None => None
  | Some sections =>
      let '(filename, label) := last IDENTITY_FILES ("", "") in
      Some (String.concat (newline ++ newline)
              (sections ++ [placeholder filename label]))
  end.

Local Close Scope string_scope.

(** ** config.py: the settings *)

Local Open Scope string_scope.

(** A [Path] is kept as the string it is built from. *)
Record Config : Type := {
  anthropic_api_key : string;
  model : string;
  memory_dir : string;
  skills_dir : string;
  database_path : string;
  heartbeat_interval_minutes : Z;
  gmail_credentials_path : option string;
  gmail_token_path : option string;
  gcal_credentials_path : option string;
  gcal_token_path : option string;
  slack_bot_token : string;
  slack_app_token : string;
  auto_approve_actions : list string;
  skill_timeout_seconds : Z
}.

(** [os.getenv(name, default)] on the environment [load_dotenv] leaves. *)
Definition getenv (env : string -> option string) (name default : string)
    : string :=
  match env name with
  | Some v => v
  | None => default
  end.

(** [s.split(sep)] for a separator of one character: never empty. *)
Fixpoint split_on (sep : ascii) (s : string) : list string :=
  match s with
  | EmptyString => [EmptyString]
  | String c rest =>
      if Ascii.eqb c sep then EmptyString :: split_on sep rest
      else
        match split_on sep rest with
        | piece :: pieces => String c piece :: pieces
        | [] => [String c EmptyString]
        end
  end.

Definition comma : ascii := ascii_of_nat 44.

(** The comma-separated auto-approve list:
    [[action.strip() for action in auto_approve.split(",") if action.strip()]] *)
Definition parse_actions (auto_approve : string) : list string :=
  map strip (filter (fun action => truthy (strip action))
                    (split_on comma auto_approve)).

(** [load_config]; [int] is the builtin of that name, [None] where it
    raises [ValueError], and the result is [None] when it does. *)
Definition load_config (env : string -> option string)
    (int : string -> option Z) : option Config :=
  match int (getenv env "HEARTBEAT_INTERVAL_MINUTES" "30") with
  | None => None
  | Some heartbeat =>
      match int (getenv env "SKILL_TIMEOUT_SECONDS" "30") with
      | None => None
      | Some timeout =>
          let auto_approve :=
            getenv env "AUTO_APPROVE_ACTIONS"
                   "read_file,search_memory,list_skills" in
          let gmail_creds := env "GMAIL_CREDENTIALS_PATH" in
          let gmail :=
            match gmail_creds with
            | Some (String c rest) =>
                (Some (String c rest),
                 Some (getenv env "GMAIL_TOKEN_PATH"
                              "./credentials/gmail_token.json"))
            | _ => (None, None)
            end in
          Some {| anthropic_api_key := getenv env "ANTHROPIC_API_KEY" "";
                  model := getenv env "AGENT_MODEL" "claude-sonnet-4-5-20250929";
                  memory_dir := getenv env "MEMORY_DIR" "./memory";
                  skills_dir := getenv env "SKILLS_DIR" "./skills";
                  database_path := getenv env "DATABASE_PATH" "./memory/agent.db";
                  heartbeat_interval_minutes := heartbeat;
                  gmail_credentials_path := fst gmail;
                  gmail_token_path := snd gmail;
                  gcal_credentials_path := None;
                  gcal_token_path := None;
                  slack_bot_token := getenv env "SLACK_BOT_TOKEN" "";
                  slack_app_token := getenv env "SLACK_APP_TOKEN" "";
                  auto_approve_actions := parse_actions auto_approve;
                  skill_timeout_seconds := timeout |}
      end
  end.

Local Close Scope string_scope.

(** ** Predicates used in the statements *)

(** A double that a binary32 float holds exactly: zero, or a finite value
    whose mantissa bits below the binary32 exponent of the value are all
    zero, and which is within the binary32 range. *)
Definition f32_exact (x : float) : bool :=
  match x with
  | S754_zero _ => true
  | S754_finite _ m e =>
      let e' := fexp Binary32.prec Binary32.emax (Z.pos (digits2_pos m) + e) in
      (e <=? e') && (Z.pos m mod 2 ^ (e' - e) =? 0)
      && (e' <=? Binary32.emax - Binary32.prec)
  | _ => false
  end.

(** A well-formed double. *)
Definition is_double (x : float) : bool :=
  valid_binary Binary64.prec Binary64.emax x.

(** The model [embed_text] ends up using, if any. *)
Definition provider (rt : Runtime) (w : World) : option Model :=
  match _embed_model w with
  | Some m => Some m
  | None => fastembed rt
  end.

(** A row whose stored embedding cannot be cut into 4-byte floats, and a
    row whose embedding, if any, can. *)
Definition ragged (r : Row) : Prop :=
  exists blob, blob_of r = Some blob /\ Z.of_nat (length blob) mod 4 <> 0.

Definition well_sized (r : Row) : Prop :=
  forall blob, blob_of r = Some blob -> Z.of_nat (length blob) mod 4 = 0.


(** Sequences of writes to the store. *)
Inductive op : Type :=
  | OpSave (content category now : string)
  | OpDelete (memory_id : Z).

Definition step (rt : Runtime) (o : op) (w : World) : World :=
  match o with
  | OpSave content category now => snd (save rt content category now w)
  | OpDelete memory_id => snd (delete memory_id w)
  end.

Definition run (rt : Runtime) (ops : list op) (w : World) : World :=
  fold_left (fun w o => step rt o w) ops w.

(** The ids of the record table and of the keyword index, row by row. *)
Definition table_ids (d : Database) : list Z := map row_id (memories d).
Definition index_ids (d : Database) : list Z := map fts_rowid (memories_fts d).

(** Zero or finite: neither an infinity nor NaN. *)
Definition is_finite (x : spec_float) : bool :=
  match x with
  | S754_zero _ | S754_finite _ _ _ => true
  | _ => false
  end.

From Stdlib Require Import Sorted.

(** ** Predicates used in the further properties *)

(** Every stored embedding can be decoded, and a store that holds a
    record was written by a process that has the model loaded. *)
Definition own_store (w : World) : Prop :=
  Forall well_sized (memories (db w))
  /\ (memories (db w) <> [] -> _embed_model w <> None).


(** What step 3 puts into [vector_scores]: keys without repetition, and
    for each key the columns of a row with that id and a similarity
    clamped at zero. *)
Definition entry_of_row (rows : list Row) (e : Z * Scored) : Prop :=
  (0 <= sc_vector_score (snd e))%R
  /\ exists r, In r rows /\ blob_of r <> None /\ row_id r = fst e
               /\ row_content r = sc_content (snd e)
               /\ row_category r = sc_category (snd e)
               /\ row_created_at r = sc_created_at (snd e).


(** The sum of the squares of the components, as [cosine_similarity]
    forms it. *)
Definition sum_of_squares (a : list float) : R :=
  py_sum (map (fun x => (float_val x * float_val x)%R) a).

(** The placeholder [load_identity] ends with. *)
Definition memory_placeholder : string :=
  placeholder "MEMORY.md" "Decisions & Lessons".

(** A file that yields no section: missing, or blank. *)
Definition yields_nothing (e : dir_entry) : Prop :=
  e = Absent \/ exists text, e = TextFile text /\ truthy (strip text) = false.

(** An action name as [load_config] leaves it: not empty, without blanks
    at either end, without a comma. *)
Definition clean_action (a : string) : Prop :=
  truthy a = true /\ strip a = a /\ ~ In comma (list_ascii_of_string a).

(** [lstrip] on the list of the characters. *)
Fixpoint drop_spaces (l : list ascii) : list ascii :=
  match l with
  | [] => []
  | c :: rest => if is_space_char c then drop_spaces rest else l
  end.


(** ** Concrete floats, models and stores *)

Definition f_zero : float := S754_zero false.
Definition f_one : float := S754_finite false 4503599627370496 (-52).
Definition f_two : float := S754_finite false 4503599627370496 (-51).

(** The double [k / 8]. *)
Definition eighths (k : Z) : float :=
  match k with
  | Z.pos p => binary_round Binary64.prec Binary64.emax false p (-3)
  | Z.neg p => binary_round Binary64.prec Binary64.emax true p (-3)
  | Z0 => f_zero
  end.

(** [1.0], [0.875], [-0.0] and [-2 ** -140], the last one below the
    normal range of binary32. *)
Definition sample_vector : list float :=
  [ f_one; eighths 7; S754_zero true;
    S754_finite true 4503599627370496 (-192) ].

(** A keyword matcher given by a table of rowids and ranks, best first: it
    answers with the entries whose rowid is in the index. *)
Definition ranked (table : list (Z * R)) : list FtsRow -> string -> option (list (Z * R)) :=
  fun idx _ =>
    Some (filter (fun p => existsb (fun x => fts_rowid x =? fst p) idx) table).

(** A model of dimension 5 given by a table of texts; every vector in it
    has Euclidean norm 1. *)
Definition theme_query : string := "theme".
Definition note_a : string := "dark theme".
Definition note_b : string := "user likes the dark theme".
Definition note_c : string := "dark theme for the editor".
Definition note_d : string := "a long note that mentions a theme once".

Definition toy_model : Model :=
  fun text =>
    if String.eqb text note_a then map eighths [5; 6; 1; 1; 1]
    else if String.eqb text note_b then map eighths [7; 3; 2; 1; 1]
    else if String.eqb text note_c then map eighths [6; 5; 1; 1; 1]
    else if String.eqb text note_d then map eighths [0; 8; 0; 0; 0]
    else map eighths [8; 0; 0; 0; 0].

Definition new_world : World := {| _embed_model := None; db := _init_db |}.

(** A runtime without FastEmbed whose keyword index finds the second
    record, and one with [toy_model] and a keyword index that matches
    nothing. *)
Definition rt_offline : Runtime :=
  {| fastembed := None; fts5_match := ranked [(2, (-1)%R)] |}.

Definition rt_plain : Runtime :=
  {| fastembed := Some toy_model; fts5_match := fun _ _ => Some [] |}.

(** The four notes, saved in this order into a new store. *)
Definition theme_ops : list op :=
  [ OpSave note_a "fact" "2026-01-01T09:00:00";
    OpSave note_b "preference" "2026-01-02T09:00:00";
    OpSave note_c "preference" "2026-01-03T09:00:00";
    OpSave note_d "context" "2026-01-04T09:00:00" ].

Definition theme_world : World := run rt_plain theme_ops new_world.

(** The ranks FTS5 gives the four notes for the query. *)
Definition theme_ranks : list (Z * R) :=
  [ (1, (-10)%R); (2, (-91 / 10)%R); (3, (-9)%R); (4, (-1)%R) ].

Definition rt_theme : Runtime :=
  {| fastembed := Some toy_model; fts5_match := ranked theme_ranks |}.

(** A store written by hand: one record with an embedding, one whose
    embedding is NULL, and a keyword index that holds both. *)
Definition blob_unit : bytes :=
  [ x00; x00; x80; x3f;  x00; x00; x00; x00;  x00; x00; x00; x00;
    x00; x00; x00; x00;  x00; x00; x00; x00 ].

Definition row_dark : Row :=
  {| row_id := 1; row_content := "User prefers dark mode";
     row_category := "preference"; row_embedding := Some blob_unit;
     row_created_at := "2026-01-01T09:00:00";
     row_updated_at := "2026-01-01T09:00:00" |}.

Definition row_friday : Row :=
  {| row_id := 2; row_content := "Deploy on Fridays is risky";
     row_category := "lesson"; row_embedding := None;
     row_created_at := "2026-01-02T09:00:00";
     row_updated_at := "2026-01-02T09:00:00" |}.

Definition index_of (r : Row) : FtsRow :=
  {| fts_rowid := row_id r; fts_content := row_content r;
     fts_category := row_category r |}.

Definition partial_world : World :=
  {| _embed_model := None;
     db := {| memories := [row_dark; row_friday];
              memories_fts := [index_of row_dark; index_of row_friday];
              sqlite_sequence := 2 |} |}.

(** FTS5 finds the second record for the query ["Fridays"]. *)
Definition rt_friday : Runtime :=
  {| fastembed := Some toy_model; fts5_match := ranked [(2, (-1)%R)] |}.

(** A store whose only record has an embedding of five bytes. *)
Definition row_ragged : Row :=
  {| row_id := 1; row_content := "User prefers dark mode";
     row_category := "preference";
     row_embedding := Some [x00; x00; x80; x3f; x00];
     row_created_at := "2026-01-01T09:00:00";
     row_updated_at := "2026-01-01T09:00:00" |}.

Definition ragged_world : World :=
  {| _embed_model := None;
     db := {| memories := [row_ragged];
              memories_fts := [index_of row_ragged];
              sqlite_sequence := 1 |} |}.

(** ** Concrete inputs for the further properties *)

(** A memory directory with a MEMORY.md, a blank SOUL.md and no USER.md. *)
Definition sample_dir (filename : string) : dir_entry :=
  if String.eqb filename "MEMORY.md" then TextFile "  likes tea  "
  else if String.eqb filename "SOUL.md" then TextFile "   "
  else Absent.

Definition empty_dir (filename : string) : dir_entry := Absent.

(** An environment without any of the variables, one that names two
    actions, and an [int] that reads ["30"]. *)
Definition no_env (name : string) : option string := None.

Definition two_actions : list string := ["read_file"; "write_file"]%string.

Definition actions_env (name : string) : option string :=
  if String.eqb name "AUTO_APPROVE_ACTIONS"
  then Some (String.concat (String comma EmptyString) two_actions)
  else None.

Definition int_thirty (s : string) : option Z :=
  if String.eqb s "30" then Some 30 else None.

(** The world after the first note was saved into a new store. *)
Definition first_save : outcome Z * World :=
  save rt_plain note_a "fact" "2026-01-01T09:00:00" new_world.

(** ** Proof automation for the concrete stores *)

(** Replace the store of the four notes by its rows. *)
Ltac concrete_db :=
  let d := eval vm_compute in (db theme_world) in
  replace (db theme_world) with d by (vm_compute; reflexivity).

(** Name the vector a stored buffer decodes to. *)
Ltac decode_as ks :=
  match goal with
  | |- context [deserialize_vector ?b] =>
      replace (deserialize_vector b) with (Ok (map eighths ks))
        by (vm_compute; reflexivity)
  end.

(** Settle [min] and [max] of two rational constants. *)
Ltac eval_min_max :=
  repeat match goal with
  | |- context [Rmin ?a ?b] =>
      first [ rewrite (Rmin_left a b) by lra | rewrite (Rmin_right a b) by lra ]
  | |- context [Rmax ?a ?b] =>
      first [ rewrite (Rmax_left a b) by lra | rewrite (Rmax_right a b) by lra ]
  end.

(** Settle comparisons of rational constants. *)
Ltac decide_reals :=
  repeat match goal with
  | |- context [Req_dec_T ?a ?b] =>
      first [ destruct (Req_dec_T a b); [ exfalso; lra | ]
            | destruct (Req_dec_T a b); [ | exfalso; lra ] ]
  | |- context [Rlt_dec ?a ?b] =>
      first [ destruct (Rlt_dec a b); [ exfalso; lra | ]
            | destruct (Rlt_dec a b); [ | exfalso; lra ] ]
  end.

(** * Properties *)

(** ** The vector codec *)

Section BitLemmas.

Lemma iter_pos_nat {A : Type} (f : A -> A) (p : positive) (x : A) :
  iter_pos f p x = Nat.iter (Pos.to_nat p) f x.
Proof.
  revert x; induction p as [p IH | p IH | ]; intros x; cbn [iter_pos].
  - rewrite !IH, Pos2Nat.inj_xI.
    replace (S (2 * Pos.to_nat p))%nat with (Pos.to_nat p + (Pos.to_nat p + 1))%nat by lia.
    rewrite !Nat.iter_add. simpl. reflexivity.
  - rewrite !IH, Pos2Nat.inj_xO.
    replace (2 * Pos.to_nat p)%nat with (Pos.to_nat p + Pos.to_nat p)%nat by lia.
    rewrite Nat.iter_add. reflexivity.
  - reflexivity.
Qed.

Lemma pos_iter_nat {A : Type} (f : A -> A) (p : positive) (x : A) :
  Pos.iter f x p = Nat.iter (Pos.to_nat p) f x.
Proof. rewrite Pos2Nat.inj_iter. reflexivity. Qed.

Lemma digits2_shift (n : nat) (q : positive) :
  Z.pos (digits2_pos (Nat.iter n xO q)) = Z.pos (digits2_pos q) + Z.of_nat n.
Proof.
  induction n as [| n IH]; [simpl; lia |].
  change (Nat.iter (S n) xO q) with (xO (Nat.iter n xO q)).
  cbn [digits2_pos]. rewrite Pos2Z.inj_succ, IH. lia.
Qed.

Lemma shift_value (n : nat) (q : positive) :
  Z.pos (Nat.iter n xO q) = Z.pos q * 2 ^ Z.of_nat n.
Proof.
  induction n as [| n IH]; [simpl; lia |].
  change (Nat.iter (S n) xO q) with (xO (Nat.iter n xO q)).
  rewrite Pos2Z.inj_xO, IH, Nat2Z.inj_succ, Z.pow_succ_r by lia. ring.
Qed.

Lemma divisible_shift (n : nat) (m : positive) :
  Z.pos m mod 2 ^ Z.of_nat n = 0 -> exists q, m = Nat.iter n xO q.
Proof.
  revert m; induction n as [| n IH]; intros m H.
  - exists m. reflexivity.
  - rewrite Nat2Z.inj_succ, Z.pow_succ_r in H by lia.
    destruct m as [m | m |].
    + exfalso. apply Z.mod_divide in H; [| lia ].
      destruct H as [k Hk]. lia.
    + destruct (IH m) as [q Hq].
      * apply Z.mod_divide in H; [| lia ]. destruct H as [k Hk].
        apply Z.mod_divide; [ lia |]. exists k. lia.
      * exists q. simpl. rewrite <- Hq. reflexivity.
    + exfalso. apply Z.mod_divide in H; [| lia ].
      destruct H as [k Hk]. lia.
Qed.

Lemma shr_shift (n : nat) (q : positive) :
  Nat.iter n shr_1 {| shr_m := Z.pos (Nat.iter n xO q); shr_r := false; shr_s := false |}
  = {| shr_m := Z.pos q; shr_r := false; shr_s := false |}.
Proof.
  induction n as [| n IH]; [reflexivity |].
  rewrite Nat.iter_succ_r. exact IH.
Qed.

Lemma digits2_bounds (m : positive) :
  2 ^ (Z.pos (digits2_pos m) - 1) <= Z.pos m < 2 ^ Z.pos (digits2_pos m).
Proof.
  induction m as [m IH | m IH |]; cbn [digits2_pos].
  - rewrite Pos2Z.inj_succ.
    replace (Z.succ (Z.pos (digits2_pos m)) - 1) with (Z.succ (Z.pos (digits2_pos m) - 1)) by lia.
    rewrite !Z.pow_succ_r by lia. lia.
  - rewrite Pos2Z.inj_succ.
    replace (Z.succ (Z.pos (digits2_pos m)) - 1) with (Z.succ (Z.pos (digits2_pos m) - 1)) by lia.
    rewrite !Z.pow_succ_r by lia. lia.
  - simpl. lia.
Qed.

End BitLemmas.

Section Rounding.
Variables prec emax : Z.

(** Rounding a canonical mantissa shifted left by [n] places, given [n]
    places too low, recovers the canonical pair exactly. *)
Lemma binary_round_aux_shifted (s : bool) (q : positive) (e' : Z) (n : nat) :
  bounded prec emax q e' = true ->
  binary_round_aux prec emax s (Z.pos (Nat.iter n xO q)) (e' - Z.of_nat n) loc_Exact
  = S754_finite s q e'.
Proof.
  intros Hb. unfold bounded, canonical_mantissa in Hb.
  apply andb_prop in Hb. destruct Hb as [Hc He].
  apply Z.eqb_eq in Hc.
  unfold binary_round_aux, shr_fexp.
  cbn [Zdigits2 shr_record_of_loc].
  rewrite digits2_shift.
  replace (Z.pos (digits2_pos q) + Z.of_nat n + (e' - Z.of_nat n))
    with (Z.pos (digits2_pos q) + e') by lia.
  rewrite Hc.
  replace (e' - (e' - Z.of_nat n)) with (Z.of_nat n) by lia.
  assert (Hshr : shr {| shr_m := Z.pos (Nat.iter n xO q); shr_r := false; shr_s := false |}
                   (e' - Z.of_nat n) (Z.of_nat n)
                 = ({| shr_m := Z.pos q; shr_r := false; shr_s := false |}, e')).
  { destruct n as [| n].
    - simpl. f_equal. lia.
    - unfold shr. rewrite Nat2Z.inj_succ, <- Zpos_P_of_succ_nat.
      rewrite iter_pos_nat, SuccNat2Pos.id_succ, shr_shift.
      f_equal. lia. }
  rewrite Hshr. cbn [shr_m loc_of_shr_record round_nearest_even Zdigits2 shr_record_of_loc].
  rewrite Hc, Z.sub_diag. cbn [shr shr_m].
  rewrite He. reflexivity.
Qed.

Lemma binary_round_aux_canonical (s : bool) (m : positive) (e : Z) :
  bounded prec emax m e = true ->
  binary_round_aux prec emax s (Z.pos m) e loc_Exact = S754_finite s m e.
Proof.
  intros Hb.
  pose proof (binary_round_aux_shifted s m e 0 Hb) as H.
  cbn [Nat.iter nat_rect Z.of_nat] in H. rewrite Z.sub_0_r in H. exact H.
Qed.

End Rounding.

(** What [f32_exact] says of a finite double: its mantissa is a binary32
    mantissa shifted left. *)
Lemma f32_exact_finite (s : bool) (m : positive) (e : Z) :
  f32_exact (S754_finite s m e) = true ->
  exists (q : positive) (n : nat),
    m = Nat.iter n xO q
    /\ bounded Binary32.prec Binary32.emax q (e + Z.of_nat n) = true.
Proof.
  unfold f32_exact. intros H.
  apply andb_prop in H. destruct H as [H H3].
  apply andb_prop in H. destruct H as [H1 H2].
  apply Z.leb_le in H1, H3. apply Z.eqb_eq in H2.
  set (e' := fexp Binary32.prec Binary32.emax (Z.pos (digits2_pos m) + e)) in *.
  destruct (divisible_shift (Z.to_nat (e' - e)) m) as [q Hq].
  { rewrite Z2Nat.id by lia. exact H2. }
  exists q, (Z.to_nat (e' - e)). split; [exact Hq |].
  rewrite Z2Nat.id by lia.
  replace (e + (e' - e)) with e' by lia.
  unfold bounded, canonical_mantissa.
  apply andb_true_intro. split; [| apply Z.leb_le; exact H3].
  apply Z.eqb_eq.
  assert (Hd : Z.pos (digits2_pos m) = Z.pos (digits2_pos q) + Z.of_nat (Z.to_nat (e' - e))).
  { rewrite Hq at 1. apply digits2_shift. }
  rewrite Z2Nat.id in Hd by lia.
  replace (Z.pos (digits2_pos q) + e') with (Z.pos (digits2_pos m) + e) by lia.
  reflexivity.
Qed.

Lemma narrow_shifted (s : bool) (q : positive) (e' : Z) (n : nat) :
  bounded Binary32.prec Binary32.emax q e' = true ->
  narrow (S754_finite s (Nat.iter n xO q) (e' - Z.of_nat n)) = S754_finite s q e'.
Proof.
  intros Hb. unfold narrow, binary_round.
  assert (Hf : fexp Binary32.prec Binary32.emax
                 (Z.pos (digits2_pos (Nat.iter n xO q)) + (e' - Z.of_nat n)) = e').
  { rewrite digits2_shift.
    replace (Z.pos (digits2_pos q) + Z.of_nat n + (e' - Z.of_nat n))
      with (Z.pos (digits2_pos q) + e') by lia.
    unfold bounded, canonical_mantissa in Hb.
    apply andb_prop in Hb. destruct Hb as [Hc _]. apply Z.eqb_eq in Hc. exact Hc. }
  rewrite Hf. unfold shl_align.
  replace (e' - (e' - Z.of_nat n)) with (Z.of_nat n) by lia.
  destruct (Z.of_nat n) eqn:Hn; try lia;
    rewrite <- Hn; apply binary_round_aux_shifted; exact Hb.
Qed.

Lemma widen_shifted (s : bool) (q : positive) (e' : Z) (n : nat) :
  bounded Binary64.prec Binary64.emax (Nat.iter n xO q) (e' - Z.of_nat n) = true ->
  widen (S754_finite s q e') = S754_finite s (Nat.iter n xO q) (e' - Z.of_nat n).
Proof.
  intros Hb. unfold widen, binary_round.
  assert (Hf : fexp Binary64.prec Binary64.emax (Z.pos (digits2_pos q) + e')
               = e' - Z.of_nat n).
  { pose proof Hb as Hb'. unfold bounded, canonical_mantissa in Hb'.
    apply andb_prop in Hb'. destruct Hb' as [Hc _]. apply Z.eqb_eq in Hc.
    rewrite digits2_shift in Hc.
    replace (Z.pos (digits2_pos q) + Z.of_nat n + (e' - Z.of_nat n))
      with (Z.pos (digits2_pos q) + e') in Hc by lia.
    exact Hc. }
  rewrite Hf. unfold shl_align.
  replace (e' - Z.of_nat n - e') with (- Z.of_nat n) by lia.
  destruct n as [| n].
  - cbn [Z.of_nat Z.opp]. cbn [Nat.iter nat_rect Z.of_nat] in *.
    rewrite Z.sub_0_r in *. apply binary_round_aux_canonical. exact Hb.
  - rewrite Nat2Z.inj_succ, <- Zpos_P_of_succ_nat. cbn [Z.opp].
    rewrite pos_iter_nat, SuccNat2Pos.id_succ.
    replace (Z.neg (Pos.of_succ_nat n)) with (- Z.of_nat (S n)) by lia.
    replace (e' - Z.of_nat (S n)) with (e' - Z.of_nat (S n)) in Hb by reflexivity.
    apply binary_round_aux_canonical.
    replace (e' + - Z.of_nat (S n)) with (e' - Z.of_nat (S n)) by lia.
    exact Hb.
Qed.

Lemma Z_of_byte_of_Z (z : Z) : Z_of_byte (byte_of_Z z) = z mod 256.
Proof.
  unfold Z_of_byte, byte_of_Z.
  assert (Hr : 0 <= z mod 256 < 256) by (apply Z.mod_pos_bound; lia).
  destruct (Byte.of_N (Z.to_N (z mod 256))) as [b |] eqn:Hb.
  - apply Byte.to_of_N in Hb. rewrite Hb. apply Z2N.id. lia.
  - apply Byte.of_N_None_iff in Hb. lia.
Qed.

Lemma bytes_to_word_to_bytes (w : Z) :
  0 <= w < 2 ^ 32 ->
  bytes_to_word (byte_of_Z w) (byte_of_Z (Z.shiftr w 8))
                (byte_of_Z (Z.shiftr w 16)) (byte_of_Z (Z.shiftr w 24)) = w.
Proof.
  intros Hw. unfold bytes_to_word.
  rewrite !Z_of_byte_of_Z, !Z.shiftr_div_pow2 by lia.
  change (2 ^ 8) with 256. change (2 ^ 16) with 65536.
  change (2 ^ 24) with 16777216. change (2 ^ 32) with 4294967296 in Hw.
  Z.div_mod_to_equations. lia.
Qed.

Lemma bounded32_range (q : positive) (e : Z) :
  bounded Binary32.prec Binary32.emax q e = true ->
  - 149 <= e <= 104 /\ Z.pos q < 2 ^ 24 /\ (Z.pos q < 2 ^ 23 -> e = - 149).
Proof.
  unfold bounded, canonical_mantissa, fexp, emin, Binary32.prec, Binary32.emax.
  intros H. apply andb_prop in H. destruct H as [Hc He].
  apply Z.eqb_eq in Hc. apply Z.leb_le in He.
  pose proof (digits2_bounds q) as [Hlo Hhi].
  assert (Hd : Z.pos (digits2_pos q) <= 24) by lia.
  split; [lia |]. split.
  - eapply Z.lt_le_trans; [exact Hhi |]. apply Z.pow_le_mono_r; lia.
  - intros Hsmall.
    assert (Z.pos (digits2_pos q) <= 23).
    { destruct (Z_le_gt_dec (Z.pos (digits2_pos q)) 23) as [Hle | Hgt]; [exact Hle |].
      exfalso. assert (2 ^ 23 <= 2 ^ (Z.pos (digits2_pos q) - 1))
        by (apply Z.pow_le_mono_r; lia). lia. }
    lia.
Qed.

Lemma sign_bit (s : bool) (r : Z) :
  0 <= r < 2 ^ 31 ->
  Z.testbit ((if s then 2 ^ 31 else 0) + r) 31 = s.
Proof.
  intros Hr. rewrite Z.testbit_odd, Z.shiftr_div_pow2 by lia.
  change (2 ^ 31) with 2147483648 in *.
  destruct s.
  - replace ((2147483648 + r) / 2147483648) with 1; [reflexivity |].
    Z.div_mod_to_equations. lia.
  - replace ((0 + r) / 2147483648) with 0; [reflexivity |].
    Z.div_mod_to_equations. lia.
Qed.

Lemma exponent_field (s : bool) (ex fr : Z) :
  0 <= ex < 256 -> 0 <= fr < 2 ^ 23 ->
  Z.land (Z.shiftr ((if s then 2 ^ 31 else 0) + (ex * 2 ^ 23 + fr)) 23) 255 = ex.
Proof.
  intros Hex Hfr. change 255 with (Z.ones 8).
  rewrite Z.land_ones, Z.shiftr_div_pow2 by lia.
  change (2 ^ 31) with 2147483648. change (2 ^ 23) with 8388608 in *.
  change (2 ^ 8) with 256.
  destruct s; Z.div_mod_to_equations; lia.
Qed.

Lemma fraction_field (s : bool) (ex fr : Z) :
  0 <= ex < 256 -> 0 <= fr < 2 ^ 23 ->
  Z.land ((if s then 2 ^ 31 else 0) + (ex * 2 ^ 23 + fr)) (2 ^ 23 - 1) = fr.
Proof.
  intros Hex Hfr. change (2 ^ 23 - 1) with (Z.ones 23).
  rewrite Z.land_ones by lia.
  change (2 ^ 31) with 2147483648. change (2 ^ 23) with 8388608 in *.
  destruct s; Z.div_mod_to_equations; lia.
Qed.

Lemma bits_of_finite_range (s : bool) (q : positive) (e : Z) :
  bounded Binary32.prec Binary32.emax q e = true ->
  0 <= Binary32.bits_of (S754_finite s q e) < 2 ^ 32.
Proof.
  intros Hb. apply bounded32_range in Hb. destruct Hb as (He & Hq & _).
  unfold Binary32.bits_of.
  change (2 ^ 31) with 2147483648. change (2 ^ 23) with 8388608.
  change (2 ^ 24) with 16777216 in Hq. change (2 ^ 32) with 4294967296.
  destruct (Z.pos q <? 8388608) eqn:Hlt;
    [apply Z.ltb_lt in Hlt | apply Z.ltb_ge in Hlt]; destruct s; lia.
Qed.

Lemma of_bits_bits_of_finite (s : bool) (q : positive) (e : Z) :
  bounded Binary32.prec Binary32.emax q e = true ->
  Binary32.of_bits (Binary32.bits_of (S754_finite s q e)) = S754_finite s q e.
Proof.
  intros Hb. apply bounded32_range in Hb. destruct Hb as (He & Hq & Hsub).
  unfold Binary32.bits_of.
  destruct (Z.pos q <? 2 ^ 23) eqn:Hlt.
  - apply Z.ltb_lt in Hlt. rewrite (Hsub Hlt).
    replace ((if s then 2 ^ 31 else 0) + Z.pos q)
      with ((if s then 2 ^ 31 else 0) + (0 * 2 ^ 23 + Z.pos q)) by lia.
    unfold Binary32.of_bits.
    rewrite sign_bit, exponent_field, fraction_field by lia.
    reflexivity.
  - apply Z.ltb_ge in Hlt.
    unfold Binary32.of_bits.
    rewrite sign_bit, exponent_field, fraction_field by lia.
    destruct (e + 150 =? 0) eqn:H0; [apply Z.eqb_eq in H0; lia |].
    destruct (e + 150 =? 255) eqn:H255; [apply Z.eqb_eq in H255; lia |].
    replace (Z.pos q - 2 ^ 23 + 2 ^ 23) with (Z.pos q) by lia.
    f_equal. lia.
Qed.

Lemma of_bits_bits_of_zero (s : bool) :
  Binary32.of_bits (Binary32.bits_of (S754_zero s)) = S754_zero s.
Proof. destruct s; reflexivity. Qed.

(** [f32_exact] singles out the doubles that are the exact value of some
    binary32 float. *)
Lemma f32_exact_spec (x : float) :
  is_double x = true ->
  f32_exact x = true <->
  exists y, valid_binary Binary32.prec Binary32.emax y = true
            /\ is_finite y = true /\ widen y = x.
Proof.
  intros Hd. split.
  - intros Hx. destruct x as [s | s | | s m e]; try discriminate Hx.
    + exists (S754_zero s). repeat split.
    + destruct (f32_exact_finite s m e Hx) as (q & n & Hm & Hb).
      exists (S754_finite s q (e + Z.of_nat n)). split; [exact Hb |].
      split; [reflexivity |].
      pose proof (widen_shifted s q (e + Z.of_nat n) n) as Hw.
      replace (e + Z.of_nat n - Z.of_nat n) with e in Hw by lia.
      rewrite <- Hm in Hw. apply Hw. exact Hd.
  - intros (y & Hy & Hfin & Hw).
    destruct y as [s | s | | s q e']; try discriminate Hfin.
    + subst x. reflexivity.
    + cbn [valid_binary] in Hy.
      pose proof (bounded32_range q e' Hy) as (He' & Hq & _).
      pose proof (digits2_bounds q) as [Hlo Hhi].
      assert (Hdig : Z.pos (digits2_pos q) <= 24).
      { destruct (Z_le_gt_dec (Z.pos (digits2_pos q)) 24) as [Hle | Hgt];
          [exact Hle |].
        exfalso. assert (2 ^ 24 <= 2 ^ (Z.pos (digits2_pos q) - 1))
          by (apply Z.pow_le_mono_r; lia). lia. }
      set (n := Z.to_nat (53 - Z.pos (digits2_pos q))).
      assert (Hn : Z.of_nat n = 53 - Z.pos (digits2_pos q))
        by (unfold n; rewrite Z2Nat.id; lia).
      assert (Hcanon : fexp Binary32.prec Binary32.emax (Z.pos (digits2_pos q) + e') = e').
      { unfold bounded, canonical_mantissa in Hy.
        apply andb_prop in Hy. destruct Hy as [Hc _]. apply Z.eqb_eq. exact Hc. }
      assert (Hb64 : bounded Binary64.prec Binary64.emax (Nat.iter n xO q)
                       (e' - Z.of_nat n) = true).
      { unfold bounded, canonical_mantissa. rewrite digits2_shift.
        unfold fexp, emin, Binary64.prec, Binary64.emax.
        apply andb_true_intro. split; [apply Z.eqb_eq | apply Z.leb_le]; lia. }
      rewrite (widen_shifted s q e' n Hb64) in Hw. subst x.
      unfold f32_exact. rewrite digits2_shift.
      replace (Z.pos (digits2_pos q) + Z.of_nat n + (e' - Z.of_nat n))
        with (Z.pos (digits2_pos q) + e') by lia.
      rewrite Hcanon.
      replace (e' - (e' - Z.of_nat n)) with (Z.of_nat n) by lia.
      rewrite shift_value, Z.mod_mul by (apply Z.pow_nonzero; lia).
      apply andb_true_intro. split; [apply andb_true_intro; split |].
      * apply Z.leb_le. lia.
      * reflexivity.
      * apply Z.leb_le. unfold Binary32.emax, Binary32.prec. lia.
Qed.

(** One float through [struct.pack("f")] and back. *)
Lemma pack_unpack_f (x : float) :
  is_double x = true -> f32_exact x = true ->
  exists b0 b1 b2 b3,
    pack_f x = Ok [b0; b1; b2; b3] /\ unpack_f b0 b1 b2 b3 = x.
Proof.
  intros Hd Hx. destruct x as [s | s | | s m e]; try discriminate Hx.
  - exists (byte_of_Z (Binary32.bits_of (S754_zero s))),
      (byte_of_Z (Z.shiftr (Binary32.bits_of (S754_zero s)) 8)),
      (byte_of_Z (Z.shiftr (Binary32.bits_of (S754_zero s)) 16)),
      (byte_of_Z (Z.shiftr (Binary32.bits_of (S754_zero s)) 24)).
    split; [reflexivity |].
    unfold unpack_f. rewrite bytes_to_word_to_bytes.
    + rewrite of_bits_bits_of_zero. reflexivity.
    + destruct s; cbn; lia.
  - destruct (f32_exact_finite s m e Hx) as (q & n & Hm & Hb).
    set (e' := e + Z.of_nat n) in *.
    assert (He : e = e' - Z.of_nat n) by (unfold e'; lia).
    assert (Hn : narrow (S754_finite s m e) = S754_finite s q e').
    { rewrite Hm, He. apply narrow_shifted. exact Hb. }
    set (w := Binary32.bits_of (S754_finite s q e')).
    exists (byte_of_Z w), (byte_of_Z (Z.shiftr w 8)),
      (byte_of_Z (Z.shiftr w 16)), (byte_of_Z (Z.shiftr w 24)).
    split.
    + unfold pack_f. rewrite Hn. reflexivity.
    + unfold unpack_f. rewrite bytes_to_word_to_bytes
        by (apply bits_of_finite_range; exact Hb).
      unfold w. rewrite of_bits_bits_of_finite by exact Hb.
      rewrite Hm, He. apply widen_shifted.
      rewrite <- Hm, <- He. exact Hd.
Qed.

Lemma struct_pack_f_length (vec : list float) (data : bytes) :
  struct_pack_f vec = Ok data ->
  Z.of_nat (length data) = 4 * Z.of_nat (length vec).
Proof.
  revert data; induction vec as [| x rest IH]; intros data H.
  - inversion H. reflexivity.
  - cbn [struct_pack_f] in H. unfold pack_f at 1 in H.
    destruct (is_infinity (narrow x) && negb (is_infinity x)); [discriminate |].
    cbn [bind] in H.
    destruct (struct_pack_f rest) as [bs |] eqn:Hrest; [| discriminate].
    cbn [bind] in H. inversion H; subst data.
    specialize (IH bs eq_refl).
    unfold word_to_bytes. cbn [length app]. lia.
Qed.

Lemma unpack_floats_app4 (b0 b1 b2 b3 : byte) (rest : bytes) :
  unpack_floats ([b0; b1; b2; b3] ++ rest)
  = unpack_f b0 b1 b2 b3 :: unpack_floats rest.
Proof. reflexivity. Qed.

(** A buffer whose length is a multiple of four is decoded, whatever the
    number of floats in it. *)
Lemma deserialize_vector_multiple (data : bytes) :
  Z.of_nat (length data) mod 4 = 0 ->
  deserialize_vector data = Ok (unpack_floats data).
Proof.
  intros H. unfold deserialize_vector, struct_unpack_f.
  replace (Z.of_nat (length data) =? 4 * (Z.of_nat (length data) / 4)) with true;
    [reflexivity |].
  symmetry. apply Z.eqb_eq. Z.div_mod_to_equations. lia.
Qed.

(** A buffer whose length is not a multiple of four is refused. *)
Lemma deserialize_vector_ragged (data : bytes) :
  Z.of_nat (length data) mod 4 <> 0 ->
  deserialize_vector data = Raise StructError.
Proof.
  intros H. unfold deserialize_vector, struct_unpack_f.
  replace (Z.of_nat (length data) =? 4 * (Z.of_nat (length data) / 4)) with false;
    [reflexivity |].
  symmetry. apply Z.eqb_neq. Z.div_mod_to_equations. lia.
Qed.

(** C8.  Every vector of well-formed doubles that binary32 holds exactly
    (zero or finite, hence no infinity and no NaN) is encoded by
    [serialize_vector] into a buffer of [4 * dim] bytes, and
    [deserialize_vector] gives the same vector back. *)
Theorem serialize_deserialize_roundtrip (v : list float) :
  Forall (fun x => is_double x = true /\ f32_exact x = true) v ->
  exists data,
    serialize_vector v = Ok data
    /\ Z.of_nat (length data) = 4 * Z.of_nat (length v)
    /\ deserialize_vector data = Ok v.
Proof.
  intros Hv.
  assert (Hpack : exists data,
             struct_pack_f v = Ok data /\ unpack_floats data = v).
  { induction Hv as [| x rest [Hd Hx] _ IH].
    - exists []. split; reflexivity.
    - destruct IH as (bs & Hbs & Hun).
      destruct (pack_unpack_f x Hd Hx) as (b0 & b1 & b2 & b3 & Hp & Hu).
      exists ([b0; b1; b2; b3] ++ bs). split.
      + cbn [struct_pack_f]. rewrite Hp, Hbs. reflexivity.
      + rewrite unpack_floats_app4, Hu, Hun. reflexivity. }
  destruct Hpack as (data & Hp & Hu).
  exists data. unfold serialize_vector.
  pose proof (struct_pack_f_length v data Hp) as Hlen.
  split; [exact Hp |]. split; [exact Hlen |].
  rewrite deserialize_vector_multiple.
  - rewrite Hu. reflexivity.
  - rewrite Hlen. rewrite Z.mul_comm. apply Z.mod_mul. lia.
Qed.

(** ** The embedding model *)

Lemma embed_text_unavailable (rt : Runtime) (text : string) (w : World) :
  provider rt w = None ->
  embed_text rt text w = (Raise ImportError, w).
Proof.
  unfold provider, embed_text, py_bind, _get_model.
  destruct (_embed_model w); [discriminate |].
  intros ->. reflexivity.
Qed.

Lemma embed_text_available (rt : Runtime) (text : string) (w : World) (m : Model) :
  provider rt w = Some m ->
  exists w', embed_text rt text w = (Ok (m text), w')
             /\ db w' = db w /\ provider rt w' = Some m.
Proof.
  unfold provider, embed_text, py_bind, _get_model, ret.
  destruct (_embed_model w) as [m0 |] eqn:Hc.
  - intros H; inversion H; subst m0. exists w.
    rewrite Hc. repeat split; reflexivity.
  - intros ->. eexists. split; [reflexivity |]. split; reflexivity.
Qed.

(** ** Dictionaries, sorting and slices *)

Lemma dict_set_keys {V : Type} (k : Z) (v : V) (d : list (Z * V)) (j : Z) :
  In j (map fst (dict_set Z.eqb k v d)) <-> j = k \/ In j (map fst d).
Proof.
  induction d as [| [k' v'] d IH]; cbn [dict_set map fst In].
  - intuition.
  - destruct (Z.eqb_spec k' k) as [-> | Hne]; cbn [map fst In].
    + intuition.
    + rewrite IH. intuition.
Qed.

Lemma insert_desc_perm {A : Type} (key : A -> R) (x : A) (l : list A) :
  Permutation (insert_desc key x l) (x :: l).
Proof.
  induction l as [| y l IH]; cbn [insert_desc]; [reflexivity |].
  destruct (Rlt_dec (key x) (key y)); [| reflexivity].
  rewrite IH. apply perm_swap.
Qed.

Lemma sort_desc_perm {A : Type} (key : A -> R) (l : list A) :
  Permutation (sort_desc key l) l.
Proof.
  induction l as [| x l IH]; cbn [sort_desc fold_right]; [reflexivity |].
  fold (sort_desc key l). rewrite insert_desc_perm, IH. reflexivity.
Qed.

Lemma firstn_incl {A : Type} (n : nat) (l : list A) (x : A) :
  In x (firstn n l) -> In x l.
Proof.
  intros H. rewrite <- (firstn_skipn n l). apply in_or_app. left. exact H.
Qed.

Lemma py_slice_to_incl {A : Type} (n : Z) (l : list A) (x : A) :
  In x (py_slice_to n l) -> In x l.
Proof.
  unfold py_slice_to. destruct (0 <=? n); apply firstn_incl.
Qed.

Lemma py_slice_to_all {A : Type} (n : Z) (l : list A) :
  Z.of_nat (length l) <= n -> py_slice_to n l = l.
Proof.
  intros H. unfold py_slice_to.
  destruct (Z.leb_spec 0 n); [| lia].
  apply firstn_all2. lia.
Qed.

Lemma firstn_plus {A : Type} (a b : nat) (l : list A) :
  firstn (a + b) l = firstn a l ++ firstn b (skipn a l).
Proof.
  revert l; induction a as [| a IH]; intros l; [reflexivity |].
  destruct l as [| x l]; cbn [Nat.add firstn skipn app].
  - rewrite firstn_nil. reflexivity.
  - rewrite IH. reflexivity.
Qed.

Lemma py_slice_to_prefix {A : Type} (m n : Z) (l : list A) :
  0 <= m <= n -> exists rest, py_slice_to n l = py_slice_to m l ++ rest.
Proof.
  intros H. unfold py_slice_to.
  destruct (Z.leb_spec 0 m); [| lia]. destruct (Z.leb_spec 0 n); [| lia].
  exists (firstn (Z.to_nat n - Z.to_nat m) (skipn (Z.to_nat m) l)).
  replace (Z.to_nat n) with (Z.to_nat m + (Z.to_nat n - Z.to_nat m))%nat at 1 by lia.
  apply firstn_plus.
Qed.

(** ** Step 3 of [search] *)

Lemma score_row_outcome (q : list float) (r : Row) (vs : list (Z * Scored)) :
  (exists vs', score_row q r vs = Ok vs') \/ score_row q r vs = Raise StructError.
Proof.
  unfold score_row. destruct (blob_of r) as [blob |]; [| left; eauto].
  unfold deserialize_vector, struct_unpack_f.
  destruct (_ =? _); cbn [bind]; [left; eauto | right; reflexivity].
Qed.

Lemma score_rows_ragged (q : list float) (rows : list Row) :
  Exists ragged rows ->
  forall vs, score_rows q rows vs = Raise StructError.
Proof.
  induction rows as [| r rows IH]; intros Hex vs.
  - inversion Hex.
  - cbn [score_rows].
    destruct (score_row_outcome q r vs) as [[vs' Hok] | Hbad].
    + rewrite Hok. cbn [bind].
      inversion Hex as [? ? Hr | ? ? Hrest]; subst.
      * exfalso. destruct Hr as (blob & Hb & Hlen).
        unfold score_row in Hok. rewrite Hb in Hok.
        rewrite (deserialize_vector_ragged blob Hlen) in Hok. discriminate.
      * apply IH. exact Hrest.
    + rewrite Hbad. reflexivity.
Qed.

Lemma score_rows_well_sized (q : list float) (rows : list Row) :
  Forall well_sized rows ->
  forall vs, exists vs', score_rows q rows vs = Ok vs'.
Proof.
  induction rows as [| r rows IH]; intros Hall vs.
  - exists vs. reflexivity.
  - inversion Hall as [| ? ? Hr Hrest]; subst.
    cbn [score_rows]. unfold score_row.
    destruct (blob_of r) as [blob |] eqn:Hb.
    + rewrite (deserialize_vector_multiple blob (Hr blob Hb)).
      cbn [bind]. apply IH. exact Hrest.
    + cbn [bind]. apply IH. exact Hrest.
Qed.

(** The keys of [vector_scores] are ids of rows with a non-empty blob. *)
Lemma score_rows_keys (q : list float) (rows : list Row) :
  forall vs vs', score_rows q rows vs = Ok vs' ->
  forall k, In k (map fst vs') <->
            In k (map fst vs)
            \/ exists r, In r rows /\ row_id r = k /\ blob_of r <> None.
Proof.
  induction rows as [| r rows IH]; intros vs vs' H k.
  - inversion H; subst. split; [auto |]. intros [Hk | (r & [] & _)]. exact Hk.
  - cbn [score_rows] in H.
    destruct (score_row q r vs) as [vs1 |] eqn:H1; [| discriminate].
    cbn [bind] in H. rewrite (IH vs1 vs' H k).
    unfold score_row in H1.
    destruct (blob_of r) as [blob |] eqn:Hb.
    + destruct (deserialize_vector blob) as [mem |]; [| discriminate].
      cbn [bind] in H1. inversion H1; subst vs1. rewrite dict_set_keys.
      split.
      * intros [[-> | Hk] | (r' & Hin & Hid & Hne)].
        -- right. exists r. split; [left; reflexivity |]. split; [reflexivity |].
           rewrite Hb. discriminate.
        -- left. exact Hk.
        -- right. exists r'. split; [right; exact Hin | auto].
      * intros [Hk | (r' & [-> | Hin] & Hid & Hne)].
        -- left. right. exact Hk.
        -- left. left. symmetry. exact Hid.
        -- right. exists r'. auto.
    + inversion H1; subst vs1. split.
      * intros [Hk | (r' & Hin & Hid & Hne)]; [left; exact Hk |].
        right. exists r'. split; [right; exact Hin | auto].
      * intros [Hk | (r' & [-> | Hin] & Hid & Hne)]; [left; exact Hk | |].
        -- contradiction.
        -- right. exists r'. auto.
Qed.

Lemma combine_scores_id (ks : list (Z * R)) (entry : Z * Scored) :
  hit_id (combine_scores ks entry) = fst entry.
Proof. destruct entry. reflexivity. Qed.

(** ** [search] as a whole *)

(** With a model at hand, [search] is its steps 2 to 6 on the vector the
    model gives for the query. *)
Lemma search_available (rt : Runtime) (query : string) (limit : Z)
    (w : World) (m : Model) :
  provider rt w = Some m ->
  fst (search rt query limit w)
  = match memories (db w) with
    | [] => Ok []
    | _ :: _ =>
        vector_scores <- score_rows (m query) (memories (db w)) [] ;;
        Ok (py_slice_to limit
              (sort_desc hit_score
                 (map (combine_scores (keyword_search rt (db w) query limit))
                      vector_scores)))
    end.
Proof.
  intros Hp.
  destruct (embed_text_available rt query w m Hp) as (w' & He & Hdb & _).
  unfold search, py_bind. rewrite He. unfold get_db. rewrite Hdb.
  destruct (memories (db w)) as [| r rows]; [reflexivity |].
  unfold lift, ret.
  destruct (score_rows (m query) (r :: rows) []); reflexivity.
Qed.

Lemma search_unavailable (rt : Runtime) (query : string) (limit : Z) (w : World) :
  provider rt w = None ->
  search rt query limit w = (Raise ImportError, w).
Proof.
  intros Hp. unfold search, py_bind.
  rewrite (embed_text_unavailable rt query w Hp). reflexivity.
Qed.

(** ** Claims about [search] *)

(** C2 (as the code has it).  When the embedding model cannot be loaded,
    [search] raises [ImportError] for every query, limit and store: the
    failure of [embed_text] is not caught, no keyword-only result is
    produced, and the world is left as it was. *)
Theorem search_propagates_import_error (rt : Runtime) (query : string)
    (limit : Z) (w : World) :
  fastembed rt = None -> _embed_model w = None ->
  search rt query limit w = (Raise ImportError, w).
Proof.
  intros Hrt Hw. apply search_unavailable.
  unfold provider. rewrite Hw. exact Hrt.
Qed.

(** C3 (as the code has it).  A record whose embedding is absent is never
    among the results of [search], whatever the keyword index answers:
    the results are built from [vector_scores] alone. *)
Theorem search_skips_null_embedding (rt : Runtime) (query : string)
    (limit : Z) (w : World) (r : Row) (res : list Hit) :
  NoDup (map row_id (memories (db w))) ->
  In r (memories (db w)) ->
  row_embedding r = None ->
  fst (search rt query limit w) = Ok res ->
  ~ In (row_id r) (map hit_id res).
Proof.
  intros Hnd Hin Hnull Hres Hhit.
  destruct (provider rt w) as [m |] eqn:Hp.
  2:{ rewrite (search_unavailable rt query limit w Hp) in Hres. discriminate. }
  rewrite (search_available rt query limit w m Hp) in Hres.
  destruct (memories (db w)) as [| r0 rows] eqn:Hrows; [inversion Hin |].
  destruct (score_rows (m query) (r0 :: rows) []) as [vs |] eqn:Hvs;
    [| discriminate].
  cbn [bind] in Hres. inversion Hres; subst res; clear Hres.
  apply in_map_iff in Hhit. destruct Hhit as (h & Hid & Hh).
  apply py_slice_to_incl in Hh.
  apply (Permutation_in _ (sort_desc_perm hit_score _)) in Hh.
  apply in_map_iff in Hh. destruct Hh as (entry & He & Hentry).
  subst h. rewrite combine_scores_id in Hid.
  assert (Hk : In (row_id r) (map fst vs)).
  { rewrite <- Hid. apply in_map. exact Hentry. }
  apply (score_rows_keys _ _ _ _ Hvs) in Hk.
  destruct Hk as [[] | (r' & Hin' & Hid' & Hblob)].
  assert (r' = r).
  { clear - Hnd Hin Hin' Hid'.
    induction (r0 :: rows) as [| x l IH]; [inversion Hin |].
    cbn [map] in Hnd. inversion Hnd as [| ? ? Hnot Hnd']; subst.
    destruct Hin as [-> | Hin], Hin' as [-> | Hin'].
    - reflexivity.
    - exfalso. apply Hnot. rewrite <- Hid'. apply in_map. exact Hin'.
    - exfalso. apply Hnot. rewrite Hid'. apply in_map. exact Hin.
    - apply IH; assumption. }
  subst r'. apply Hblob. unfold blob_of. rewrite Hnull. reflexivity.
Qed.

(** C5 (as the code has it).  [search] has no check of the query: for
    every query, the empty one included, it returns a list of results as
    soon as the embedding model can be loaded and every stored embedding
    can be cut into 4-byte floats; a failure of the keyword query is
    swallowed by step 4 and never reaches the caller. *)
Theorem search_returns (rt : Runtime) (query : string) (limit : Z)
    (w : World) (m : Model) :
  provider rt w = Some m ->
  Forall well_sized (memories (db w)) ->
  returns (fst (search rt query limit w)).
Proof.
  intros Hp Hall. rewrite (search_available rt query limit w m Hp).
  destruct (memories (db w)) as [| r rows]; [eexists; reflexivity |].
  destruct (score_rows_well_sized (m query) (r :: rows) Hall []) as [vs Hvs].
  rewrite Hvs. eexists. reflexivity.
Qed.

(** C6 (as the code has it).  A stored embedding whose length is not a
    multiple of four makes [deserialize_vector] raise [struct.error], and
    [search] with a loaded model raises it too: the record is not skipped.
    A buffer whose length is a multiple of four is decoded whatever its
    dimension: nothing compares it with the dimension of the model. *)
Theorem search_raises_on_ragged_embedding (rt : Runtime) (query : string)
    (limit : Z) (w : World) (m : Model) :
  provider rt w = Some m ->
  Exists ragged (memories (db w)) ->
  fst (search rt query limit w) = Raise StructError
  /\ (forall data, Z.of_nat (length data) mod 4 <> 0 ->
        deserialize_vector data = Raise StructError)
  /\ (forall data, Z.of_nat (length data) mod 4 = 0 ->
        exists v, deserialize_vector data = Ok v
                  /\ 4 * Z.of_nat (length v) = Z.of_nat (length data)).
Proof.
  intros Hp Hex. split; [| split].
  - rewrite (search_available rt query limit w m Hp).
    destruct (memories (db w)) as [| r rows]; [inversion Hex |].
    rewrite (score_rows_ragged (m query) (r :: rows) Hex). reflexivity.
  - exact deserialize_vector_ragged.
  - intros data Hd. exists (unpack_floats data).
    split; [apply deserialize_vector_multiple; exact Hd |].
    clear Hp Hex. revert Hd.
    assert (Hgen : forall n (l : bytes), (length l <= n)%nat ->
              Z.of_nat (length l) mod 4 = 0 ->
              4 * Z.of_nat (length (unpack_floats l)) = Z.of_nat (length l)).
    { induction n as [| n IH]; intros l Hn Hl.
      - destruct l; [reflexivity | cbn [length] in Hn; lia].
      - destruct l as [| b0 [| b1 [| b2 [| b3 rest]]]]; try reflexivity;
          try (cbn [length] in Hl; exfalso; revert Hl; cbn; lia).
        cbn [unpack_floats length] in *.
        assert (Hrest : 4 * Z.of_nat (length (unpack_floats rest))
                        = Z.of_nat (length rest)).
        { apply IH; [lia |].
          replace (Z.of_nat (S (S (S (S (length rest))))))
            with (Z.of_nat (length rest) + 1 * 4) in Hl by lia.
          rewrite Z.mod_add in Hl by lia. exact Hl. }
        lia. }
    apply (Hgen (length data)). lia.
Qed.

(** C7 (as the code has it).  For limits [0 <= m <= n] whose keyword
    queries see the same rows (FTS5 finds at most [3 * m] matches, and
    [3 * n] is still an integer SQLite accepts), the result for [m] is a
    prefix of the result for [n]. *)
Theorem search_prefix_stable (rt : Runtime) (query : string) (m n : Z)
    (w : World) (res_m : list Hit) :
  0 <= m <= n ->
  int64_ok (n * 3) = true ->
  (forall matches,
      fts5_match rt (memories_fts (db w)) (sanitize query) = Some matches ->
      Z.of_nat (length matches) <= 3 * m) ->
  fst (search rt query m w) = Ok res_m ->
  exists rest, fst (search rt query n w) = Ok (res_m ++ rest).
Proof.
  intros Hmn Hn Hfew Hres.
  destruct (provider rt w) as [md |] eqn:Hp.
  2:{ rewrite (search_unavailable rt query m w Hp) in Hres. discriminate. }
  rewrite (search_available rt query m w md Hp) in Hres.
  rewrite (search_available rt query n w md Hp).
  destruct (memories (db w)) as [| r rows].
  { inversion Hres; subst. exists []. reflexivity. }
  destruct (score_rows (md query) (r :: rows) []) as [vs |]; [| discriminate].
  cbn [bind] in *. inversion Hres; subst res_m; clear Hres.
  assert (Hk : keyword_search rt (db w) query n = keyword_search rt (db w) query m).
  { unfold keyword_search.
    destruct (truthy (strip (sanitize query))); [| reflexivity].
    rewrite Hn.
    assert (Hm : int64_ok (m * 3) = true).
    { unfold int64_ok in *. apply andb_prop in Hn. destruct Hn as [Hn1 Hn2].
      apply Z.leb_le in Hn1. apply Z.ltb_lt in Hn2.
      apply andb_true_intro. split; [apply Z.leb_le | apply Z.ltb_lt]; lia. }
    rewrite Hm.
    destruct (fts5_match rt (memories_fts (db w)) (sanitize query))
      as [matches |] eqn:Hf; [| reflexivity].
    specialize (Hfew matches eq_refl).
    unfold sql_limit.
    destruct (Z.ltb_spec (n * 3) 0); [lia |].
    destruct (Z.ltb_spec (m * 3) 0); [lia |].
    rewrite !firstn_all2 by lia. reflexivity. }
  rewrite Hk.
  destruct (py_slice_to_prefix m n
              (sort_desc hit_score
                 (map (combine_scores (keyword_search rt (db w) query m)) vs)) Hmn)
    as [rest Hrest].
  exists rest. rewrite Hrest. reflexivity.
Qed.

(** ** Claims about [save], [delete] and [get_all] *)

Lemma save_available (rt : Runtime) (content category now : string)
    (w : World) (m : Model) (blob : bytes) :
  provider rt w = Some m ->
  serialize_vector (m content) = Ok blob ->
  exists w',
    save rt content category now w
    = (Ok (Z.max (sqlite_sequence (db w)) (max_rowid (memories (db w))) + 1), w')
    /\ db w' = snd (insert_memory content category blob now (db w)).
Proof.
  intros Hp Hs.
  destruct (embed_text_available rt content w m Hp) as (w1 & He & Hdb & _).
  unfold save, py_bind. rewrite He. unfold lift. rewrite Hs.
  unfold get_db, put_db, ret. rewrite Hdb.
  cbn [insert_memory]. eexists. split; reflexivity.
Qed.

Lemma save_db (rt : Runtime) (content category now : string) (w : World) :
  db (snd (save rt content category now w)) = db w
  \/ exists blob,
       db (snd (save rt content category now w))
       = snd (insert_memory content category blob now (db w)).
Proof.
  destruct (provider rt w) as [m |] eqn:Hp.
  - destruct (serialize_vector (m content)) as [blob |] eqn:Hs.
    + right. exists blob.
      destruct (save_available rt content category now w m blob Hp Hs)
        as (w' & Hsave & Hdb).
      rewrite Hsave. exact Hdb.
    + left.
      destruct (embed_text_available rt content w m Hp) as (w1 & He & Hdb & _).
      unfold save, py_bind. rewrite He. unfold lift. rewrite Hs. exact Hdb.
  - left. unfold save, py_bind.
    rewrite (embed_text_unavailable rt content w Hp). reflexivity.
Qed.

Lemma delete_db (memory_id : Z) (w : World) :
  db (snd (delete memory_id w)) = db w
  \/ db (snd (delete memory_id w)) = snd (delete_memory memory_id (db w)).
Proof.
  unfold delete, py_bind, get_db, put_db, ret, raise.
  destruct (int64_ok memory_id); [right | left; reflexivity].
  destruct (delete_memory memory_id (db w)). reflexivity.
Qed.

Lemma filter_mirrored (p : Z -> bool) (rows : list Row) (idx : list FtsRow) :
  map row_id rows = map fts_rowid idx ->
  map row_id (filter (fun r => p (row_id r)) rows)
  = map fts_rowid (filter (fun x => p (fts_rowid x)) idx).
Proof.
  revert idx; induction rows as [| r rows IH]; intros [| x idx] H;
    try discriminate; [reflexivity |].
  cbn [map] in H. inversion H as [[Hid Hrest]].
  cbn [filter]. rewrite Hid.
  destruct (p (fts_rowid x)); cbn [map]; rewrite (IH idx Hrest); congruence.
Qed.

Lemma insert_memory_mirrored (content category now : string) (blob : bytes)
    (d : Database) :
  table_ids d = index_ids d ->
  table_ids (snd (insert_memory content category blob now d))
  = index_ids (snd (insert_memory content category blob now d)).
Proof.
  unfold table_ids, index_ids, insert_memory. cbn [snd memories memories_fts].
  intros H. rewrite !map_app, H. reflexivity.
Qed.

Lemma delete_memory_mirrored (memory_id : Z) (d : Database) :
  table_ids d = index_ids d ->
  table_ids (snd (delete_memory memory_id d))
  = index_ids (snd (delete_memory memory_id d)).
Proof.
  unfold table_ids, index_ids, delete_memory. intros H.
  destruct (filter (fun r => row_id r =? memory_id) (memories d));
    [exact H |].
  cbn [snd memories memories_fts].
  apply (filter_mirrored (fun i => negb (i =? memory_id))). exact H.
Qed.

Lemma step_mirrored (rt : Runtime) (o : op) (w : World) :
  table_ids (db w) = index_ids (db w) ->
  table_ids (db (step rt o w)) = index_ids (db (step rt o w)).
Proof.
  intros H. destruct o as [content category now | memory_id]; cbn [step].
  - destruct (save_db rt content category now w) as [-> | [blob ->]].
    + exact H.
    + apply insert_memory_mirrored. exact H.
  - destruct (delete_db memory_id w) as [-> | ->].
    + exact H.
    + apply delete_memory_mirrored. exact H.
Qed.

(** C4 (as the code has it).  [save] has no check of the content: for
    every content, the empty and the blank ones included, it stores a new
    record and returns its id, and the record count grows by one, as soon
    as the embedding model can be loaded and the vector it gives fits the
    4-byte format. *)
Theorem save_accepts_any_content (rt : Runtime) (content category now : string)
    (w : World) (m : Model) (blob : bytes) :
  provider rt w = Some m ->
  serialize_vector (m content) = Ok blob ->
  exists id w',
    save rt content category now w = (Ok id, w')
    /\ memories (db w')
       = memories (db w)
         ++ [ {| row_id := id; row_content := content;
                 row_category := category; row_embedding := Some blob;
                 row_created_at := now; row_updated_at := now |} ]
    /\ fst (count w') = Ok (Z.of_nat (length (memories (db w))) + 1).
Proof.
  intros Hp Hs.
  destruct (save_available rt content category now w m blob Hp Hs)
    as (w' & Hsave & Hdb).
  eexists. exists w'. split; [exact Hsave |].
  unfold count, py_bind, get_db, ret. cbn [fst].
  rewrite Hdb. cbn [insert_memory snd memories]. split; [reflexivity |].
  rewrite length_app. cbn [length]. f_equal. lia.
Qed.

(** C9.  After every sequence of [save] and [delete] calls on a new
    store, the record table and the keyword index hold the same ids, row
    by row; so an id is in one exactly when it is in the other. *)
Theorem index_mirrors_table (rt : Runtime) (ops : list op) (cache : option Model) :
  let w := run rt ops {| _embed_model := cache; db := _init_db |} in
  table_ids (db w) = index_ids (db w)
  /\ forall id, In id (table_ids (db w)) <-> In id (index_ids (db w)).
Proof.
  cbv zeta.
  assert (H : forall w, table_ids (db w) = index_ids (db w) ->
            table_ids (db (run rt ops w)) = index_ids (db (run rt ops w))).
  { induction ops as [| o ops IH]; intros w Hw; [exact Hw |].
    cbn [run fold_left]. apply IH. apply step_mirrored. exact Hw. }
  specialize (H {| _embed_model := cache; db := _init_db |} eq_refl).
  split; [exact H |]. intros id. rewrite H. reflexivity.
Qed.

Lemma record_dict_keys (r : Row) :
  dict_get key_eqb (KStr "id") (record_dict r) = None
  /\ dict_get key_eqb KBuiltinId (record_dict r) = Some (VInt (row_id r)).
Proof. split; reflexivity. Qed.

Lemma insert_recent_perm (r : Row) (l : list Row) :
  Permutation (insert_recent r l) (r :: l).
Proof.
  induction l as [| y l IH]; cbn [insert_recent]; [reflexivity |].
  destruct (String.ltb _ _); [| reflexivity].
  rewrite IH. apply perm_swap.
Qed.

Lemma order_by_created_at_desc_perm (rows : list Row) :
  Permutation (order_by_created_at_desc rows) rows.
Proof.
  induction rows as [| r rows IH]; [reflexivity |].
  cbn [order_by_created_at_desc fold_right].
  fold (order_by_created_at_desc rows).
  rewrite insert_recent_perm, IH. reflexivity.
Qed.

(** C10.  [get_all] returns for every limit SQLite accepts, and in every
    dictionary it returns the string ["id"] is not a key: the identifier
    of the record is the value of the key that is the builtin function
    [id]. *)
Theorem get_all_has_no_id_key (limit : Z) (w : World) :
  (int64_ok limit = true -> returns (fst (get_all limit w)))
  /\ forall dicts, fst (get_all limit w) = Ok dicts ->
       Forall (fun d =>
                 dict_get key_eqb (KStr "id") d = None
                 /\ exists r, In r (memories (db w))
                              /\ dict_get key_eqb KBuiltinId d
                                 = Some (VInt (row_id r)))
              dicts.
Proof.
  unfold get_all, py_bind, get_db, ret, raise. cbn [fst].
  destruct (int64_ok limit); cbn [fst].
  - split; [intros _; eexists; reflexivity |].
    intros dicts H. inversion H; subst dicts; clear H.
    apply Forall_forall. intros d Hd.
    apply in_map_iff in Hd. destruct Hd as (r & <- & Hr).
    split; [apply record_dict_keys |].
    exists r. split; [| apply record_dict_keys].
    apply (Permutation_in _ (order_by_created_at_desc_perm (memories (db w)))).
    unfold sql_limit in Hr. destruct (limit <? 0); [exact Hr |].
    apply firstn_incl in Hr. exact Hr.
  - split; [discriminate |]. intros dicts H. discriminate.
Qed.

(** ** Real-number facts about the concrete floats *)

Lemma float_val_f_two : float_val f_two = 2%R.
Proof.
  unfold f_two, float_val. cbn [Z.leb Z.compare cond_Zopp Z.opp].
  change (2 ^ 51) with 2251799813685248. lra.
Qed.

Lemma float_val_f_zero : float_val f_zero = 0%R.
Proof. reflexivity. Qed.

Lemma float_val_eighths (k : Z) :
  0 <= k <= 8 -> float_val (eighths k) = (IZR k / 8)%R.
Proof.
  intros Hk.
  assert (Hcases : k = 0 \/ k = 1 \/ k = 2 \/ k = 3 \/ k = 4 \/ k = 5
                   \/ k = 6 \/ k = 7 \/ k = 8) by lia.
  repeat destruct Hcases as [-> | Hcases]; try subst k;
    try (cbn [eighths float_val f_zero]; lra);
    match goal with
    | |- float_val ?x = _ =>
        let y := eval vm_compute in x in
        replace x with y by (vm_compute; reflexivity)
    end;
    unfold float_val; cbn [Z.leb Z.compare cond_Zopp Z.opp];
    match goal with
    | |- context [IZR (2 ^ ?e)] =>
        let z := eval vm_compute in (2 ^ e) in
        change (2 ^ e) with z
    end; lra.
Qed.

Lemma float_pow_one (y : R) : float_pow 1 y = 1%R.
Proof.
  unfold float_pow. destruct (Req_dec_T 1 0) as [H | _]; [lra |].
  unfold Rpower. rewrite ln_1, Rmult_0_r. apply exp_0.
Qed.

(** For two vectors of norm 1 the exponent of the norms does not show:
    [cosine_similarity] is the dot product. *)
Lemma cosine_similarity_unit (a b : list float) :
  py_sum (map (fun x => (float_val x * float_val x)%R) a) = 1%R ->
  py_sum (map (fun x => (float_val x * float_val x)%R) b) = 1%R ->
  cosine_similarity a b
  = py_sum (map (fun xy => (float_val (fst xy) * float_val (snd xy))%R)
                (combine a b)).
Proof.
  intros Ha Hb. unfold cosine_similarity. rewrite Ha, Hb, float_pow_one.
  destruct (Req_dec_T 1 0) as [H | _]; [lra |]. field.
Qed.

(** ** Claim about [cosine_similarity] *)

(** C1 (the code departs from it).  On [a = b = [2.0]] the reference
    cosine similarity, the dot product over the product of the Euclidean
    norms, is [1]; [cosine_similarity] raises the sums of squares to the
    power [.05] and returns a value above [1], outside [[-1, 1]]. *)
Theorem cosine_similarity_exceeds_one :
  reference_cosine [f_two] [f_two] = 1%R
  /\ (1 < cosine_similarity [f_two] [f_two])%R.
Proof.
  split.
  - unfold reference_cosine, euclidean_norm, py_sum.
    cbn [map combine fold_left fst snd]. rewrite float_val_f_two.
    replace (0 + 2 * 2)%R with 4%R by lra.
    rewrite sqrt_sqrt by lra. field.
  - unfold cosine_similarity, py_sum.
    cbn [map combine fold_left fst snd]. rewrite float_val_f_two.
    replace (0 + 2 * 2)%R with 4%R by lra.
    unfold float_pow. destruct (Req_dec_T 4 0) as [H | _]; [lra |].
    assert (Hpos : (0 < Rpower 4 (5 / 100))%R) by apply exp_pos.
    destruct (Req_dec_T (Rpower 4 (5 / 100)) 0) as [H | _]; [lra |].
    rewrite <- Rpower_plus.
    assert (Hlt : (Rpower 4 (5 / 100 + 5 / 100) < Rpower 4 1)%R)
      by (apply Rpower_lt; lra).
    rewrite Rpower_1 in Hlt by lra.
    assert (Hp : (0 < Rpower 4 (5 / 100 + 5 / 100))%R) by apply exp_pos.
    apply (Rmult_lt_reg_r (Rpower 4 (5 / 100 + 5 / 100))); [exact Hp |].
    unfold Rdiv. rewrite Rmult_assoc, Rinv_l by lra. lra.
Qed.

(** ** The claims on concrete stores *)

Lemma blob_unit_decodes :
  deserialize_vector blob_unit = Ok (map eighths [8; 0; 0; 0; 0]).
Proof. vm_compute. reflexivity. Qed.

(** On [partial_world] every query with a limit of at least one gives
    exactly the record that has an embedding. *)
Lemma search_partial_world (query : string) (limit : Z) :
  1 <= limit ->
  exists h, fst (search rt_friday query limit partial_world) = Ok [h]
            /\ hit_id h = 1.
Proof.
  intros Hl.
  rewrite (search_available rt_friday query limit partial_world toy_model eq_refl).
  cbn [partial_world db memories score_rows score_row blob_of row_dark
       row_friday row_embedding blob_unit bind].
  fold blob_unit. rewrite blob_unit_decodes.
  cbn [bind dict_set map combine_scores sort_desc fold_right insert_desc].
  rewrite py_slice_to_all by (cbn [length]; lia).
  eexists. split; reflexivity.
Qed.

Lemma partial_world_well_sized : Forall well_sized (memories (db partial_world)).
Proof.
  repeat constructor; intros blob H; cbv in H; inversion H; reflexivity.
Qed.

Lemma ragged_world_ragged : Exists ragged (memories (db ragged_world)).
Proof.
  constructor. eexists. split; [reflexivity |]. cbn. lia.
Qed.

(** C2, counterexample: without FastEmbed, and with a keyword index that
    matches a stored record, [search] does not return: it raises
    [ImportError]. *)
Lemma search_offline_counterexample :
  fst (search rt_offline "Fridays" 5 partial_world) = Raise ImportError
  /\ ~ returns (fst (search rt_offline "Fridays" 5 partial_world)).
Proof.
  assert (H : fst (search rt_offline "Fridays" 5 partial_world) = Raise ImportError)
    by reflexivity.
  split; [exact H |]. intros [res Hres]. rewrite H in Hres. discriminate.
Qed.

Lemma search_propagates_import_error_witness :
  search rt_offline "Fridays" 5 partial_world = (Raise ImportError, partial_world).
Proof.
  apply search_propagates_import_error; reflexivity.
Defined.

(** C3, counterexample: the record with the NULL embedding is matched by
    the keyword index for ["Fridays"], and the result of [search] does not
    contain it. *)
Lemma search_null_embedding_counterexample :
  In row_friday (memories (db partial_world))
  /\ row_embedding row_friday = None
  /\ fts5_match rt_friday (memories_fts (db partial_world)) (sanitize "Fridays")
     = Some [(row_id row_friday, (-1)%R)]
  /\ exists res,
       fst (search rt_friday "Fridays" 5 partial_world) = Ok res
       /\ ~ In (row_id row_friday) (map hit_id res).
Proof.
  split; [right; left; reflexivity |]. split; [reflexivity |].
  split; [reflexivity |].
  destruct (search_partial_world "Fridays" 5 ltac:(lia)) as (h & Hs & Hid).
  exists [h]. split; [exact Hs |].
  cbn [map In row_friday row_id]. rewrite Hid. intros [H | []]. discriminate.
Qed.

Lemma search_skips_null_embedding_witness :
  exists res,
    fst (search rt_friday "Fridays" 5 partial_world) = Ok res
    /\ ~ In (row_id row_friday) (map hit_id res).
Proof.
  destruct (search_partial_world "Fridays" 5 ltac:(lia)) as (h & Hs & _).
  exists [h]. split; [exact Hs |].
  apply (search_skips_null_embedding rt_friday "Fridays" 5 partial_world).
  - cbn. repeat constructor; cbn; intuition discriminate.
  - right; left; reflexivity.
  - reflexivity.
  - exact Hs.
Defined.

(** C4, counterexample: [save] of the empty string and of three spaces
    into a new store returns the id [1], and the store then holds one
    record. *)
Lemma save_empty_content_counterexample :
  fst (save rt_plain "" "fact" "2026-01-01T09:00:00" new_world) = Ok 1
  /\ fst (count (snd (save rt_plain "" "fact" "2026-01-01T09:00:00" new_world)))
     = Ok 1
  /\ fst (save rt_plain "   " "fact" "2026-01-01T09:00:00" new_world) = Ok 1
  /\ fst (count (snd (save rt_plain "   " "fact" "2026-01-01T09:00:00" new_world)))
     = Ok 1.
Proof. repeat split; vm_compute; reflexivity. Qed.

Lemma save_accepts_any_content_witness :
  exists id w',
    save rt_plain "" "fact" "2026-01-01T09:00:00" new_world = (Ok id, w')
    /\ memories (db w')
       = memories (db new_world)
         ++ [ {| row_id := id; row_content := "";
                 row_category := "fact"; row_embedding := Some blob_unit;
                 row_created_at := "2026-01-01T09:00:00";
                 row_updated_at := "2026-01-01T09:00:00" |} ]
    /\ fst (count w') = Ok (Z.of_nat (length (memories (db new_world))) + 1).
Proof.
  apply (save_accepts_any_content rt_plain "" "fact" "2026-01-01T09:00:00"
           new_world toy_model blob_unit).
  - reflexivity.
  - vm_compute. reflexivity.
Defined.

(** C5, counterexample: the empty query is answered like any other. *)
Lemma search_empty_query_counterexample :
  exists res,
    fst (search rt_friday "" 5 partial_world) = Ok res
    /\ map hit_id res = [1].
Proof.
  destruct (search_partial_world "" 5 ltac:(lia)) as (h & Hs & Hid).
  exists [h]. split; [exact Hs |]. cbn [map]. rewrite Hid. reflexivity.
Qed.

Lemma search_returns_witness :
  returns (fst (search rt_friday "" 5 partial_world)).
Proof.
  apply (search_returns rt_friday "" 5 partial_world toy_model).
  - reflexivity.
  - exact partial_world_well_sized.
Defined.

(** C6, counterexample: one stored embedding of five bytes, and [search]
    raises [struct.error] instead of skipping the record. *)
Lemma search_ragged_counterexample :
  row_embedding row_ragged = Some [x00; x00; x80; x3f; x00]
  /\ fst (search rt_plain "dark" 5 ragged_world) = Raise StructError.
Proof.
  split; [reflexivity |].
  rewrite (search_available rt_plain "dark" 5 ragged_world toy_model eq_refl).
  reflexivity.
Qed.

Lemma search_raises_on_ragged_embedding_witness :
  fst (search rt_plain "dark" 5 ragged_world) = Raise StructError
  /\ (forall data, Z.of_nat (length data) mod 4 <> 0 ->
        deserialize_vector data = Raise StructError)
  /\ (forall data, Z.of_nat (length data) mod 4 = 0 ->
        exists v, deserialize_vector data = Ok v
                  /\ 4 * Z.of_nat (length v) = Z.of_nat (length data)).
Proof.
  apply (search_raises_on_ragged_embedding rt_plain "dark" 5 ragged_world toy_model).
  - reflexivity.
  - exact ragged_world_ragged.
Defined.

(** C8 on [sample_vector]. *)
Lemma serialize_deserialize_roundtrip_witness :
  exists data,
    serialize_vector sample_vector = Ok data
    /\ Z.of_nat (length data) = 4 * Z.of_nat (length sample_vector)
    /\ deserialize_vector data = Ok sample_vector.
Proof.
  apply serialize_deserialize_roundtrip.
  repeat constructor; vm_compute; reflexivity.
Defined.

(** C10 on the store of the four notes. *)
Lemma get_all_has_no_id_key_witness :
  returns (fst (get_all 100 theme_world))
  /\ Forall (fun d =>
               dict_get key_eqb (KStr "id") d = None
               /\ exists r, In r (memories (db theme_world))
                            /\ dict_get key_eqb KBuiltinId d
                               = Some (VInt (row_id r)))
            (map record_dict
               (sql_limit 100 (order_by_created_at_desc (memories (db theme_world))))).
Proof.
  destruct (get_all_has_no_id_key 100 theme_world) as [Hret Hall].
  split; [apply Hret; reflexivity |].
  apply Hall. reflexivity.
Defined.

(** ** The store of the four notes *)

Lemma cosine_theme (a b c d e : Z) :
  0 <= a <= 8 -> 0 <= b <= 8 -> 0 <= c <= 8 -> 0 <= d <= 8 -> 0 <= e <= 8 ->
  a * a + b * b + c * c + d * d + e * e = 64 ->
  cosine_similarity (toy_model theme_query) (map eighths [a; b; c; d; e])
  = (IZR a / 8)%R.
Proof.
  intros Ha Hb Hc Hd He Hsum.
  change (toy_model theme_query) with (map eighths [8; 0; 0; 0; 0]).
  rewrite cosine_similarity_unit.
  - unfold py_sum. cbn [map combine fold_left fst snd].
    rewrite !float_val_eighths by lia. lra.
  - unfold py_sum. cbn [map fold_left].
    rewrite !float_val_eighths by lia. lra.
  - unfold py_sum. cbn [map fold_left].
    rewrite !float_val_eighths by lia.
    apply (f_equal IZR) in Hsum.
    rewrite !plus_IZR, !mult_IZR in Hsum. lra.
Qed.

Lemma theme_vector_scores :
  score_rows (toy_model theme_query) (memories (db theme_world)) []
  = Ok [ (1, {| sc_content := note_a; sc_category := "fact";
                sc_created_at := "2026-01-01T09:00:00";
                sc_vector_score := (5 / 8)%R |});
         (2, {| sc_content := note_b; sc_category := "preference";
                sc_created_at := "2026-01-02T09:00:00";
                sc_vector_score := (7 / 8)%R |});
         (3, {| sc_content := note_c; sc_category := "preference";
                sc_created_at := "2026-01-03T09:00:00";
                sc_vector_score := (6 / 8)%R |});
         (4, {| sc_content := note_d; sc_category := "context";
                sc_created_at := "2026-01-04T09:00:00";
                sc_vector_score := 0%R |}) ].
Proof.
  concrete_db.
  cbn [memories score_rows score_row blob_of row_embedding bind].
  decode_as [5; 6; 1; 1; 1]. cbn [bind].
  decode_as [7; 3; 2; 1; 1]. cbn [bind].
  decode_as [6; 5; 1; 1; 1]. cbn [bind].
  decode_as [0; 8; 0; 0; 0]. cbn [bind].
  rewrite !cosine_theme by lia.
  cbn [dict_set row_id row_content row_category row_created_at Z.eqb Pos.eqb].
  rewrite !Rmax_right by lra.
  repeat f_equal; lra.
Qed.

Lemma theme_matches :
  fts5_match rt_theme (memories_fts (db theme_world)) (sanitize theme_query)
  = Some theme_ranks.
Proof.
  concrete_db. reflexivity.
Qed.

Lemma theme_keywords_1 :
  keyword_search rt_theme (db theme_world) theme_query 1
  = [ (1, 1%R); (2, (1 / 10)%R); (3, 0%R) ].
Proof.
  unfold keyword_search. rewrite theme_matches.
  replace (truthy (strip (sanitize theme_query))) with true by reflexivity.
  replace (int64_ok (1 * 3)) with true by reflexivity.
  change (sql_limit (1 * 3) theme_ranks)
    with [ (1, (-10)%R); (2, (-91 / 10)%R); (3, (-9)%R) ].
  unfold normalize_ranks.
  cbn [map snd fst py_min py_max fold_left].
  eval_min_max. decide_reals.
  cbn [fold_left dict_set fst snd Z.eqb Pos.eqb].
  repeat (f_equal; try lra).
Qed.

Lemma theme_keywords_2 :
  keyword_search rt_theme (db theme_world) theme_query 2
  = [ (1, 1%R); (2, (9 / 10)%R); (3, (8 / 9)%R); (4, 0%R) ].
Proof.
  unfold keyword_search. rewrite theme_matches.
  replace (truthy (strip (sanitize theme_query))) with true by reflexivity.
  replace (int64_ok (2 * 3)) with true by reflexivity.
  change (sql_limit (2 * 3) theme_ranks)
    with [ (1, (-10)%R); (2, (-91 / 10)%R); (3, (-9)%R); (4, (-1)%R) ].
  unfold normalize_ranks.
  cbn [map snd fst py_min py_max fold_left].
  eval_min_max. decide_reals.
  cbn [fold_left dict_set fst snd Z.eqb Pos.eqb].
  repeat (f_equal; try lra).
Qed.

(** The results for the limits 1 and 2 on the store of the four notes. *)
Lemma search_theme_results :
  exists res1 res2,
    fst (search rt_theme theme_query 1 theme_world) = Ok res1
    /\ fst (search rt_theme theme_query 2 theme_world) = Ok res2
    /\ map hit_id res1 = [1]
    /\ map hit_id res2 = [2; 3].
Proof.
  assert (Hp : provider rt_theme theme_world = Some toy_model) by reflexivity.
  rewrite !(search_available rt_theme theme_query _ theme_world toy_model Hp).
  rewrite theme_vector_scores, theme_keywords_1, theme_keywords_2.
  destruct (memories (db theme_world)) eqn:Hm; [discriminate Hm |].
  cbn [bind map combine_scores dict_get Z.eqb Pos.eqb sc_vector_score
       sc_content sc_category sc_created_at].
  unfold sort_desc. cbn [fold_right insert_desc hit_score].
  unfold VECTOR_WEIGHT, KEYWORD_WEIGHT.
  repeat (cbn [insert_desc hit_score]; progress decide_reals).
  eexists. eexists. repeat split; reflexivity.
Qed.

(** C7, counterexample: with limit 1 the first note is the result; with
    limit 2 the keyword ranks are normalised over one more match, the
    second and third notes overtake it, and it is gone from the result. *)
Lemma search_limit_counterexample :
  exists res1 res2,
    fst (search rt_theme theme_query 1 theme_world) = Ok res1
    /\ fst (search rt_theme theme_query 2 theme_world) = Ok res2
    /\ In 1 (map hit_id res1)
    /\ ~ In 1 (map hit_id res2).
Proof.
  destruct search_theme_results as (res1 & res2 & H1 & H2 & Hid1 & Hid2).
  exists res1, res2. rewrite Hid1, Hid2.
  repeat split; try assumption.
  - left. reflexivity.
  - cbn [In]. intros [H | [H | []]]; discriminate.
Qed.

Lemma search_prefix_stable_witness :
  exists h rest,
    fst (search rt_friday "Fridays" 1 partial_world) = Ok [h]
    /\ fst (search rt_friday "Fridays" 2 partial_world) = Ok ([h] ++ rest).
Proof.
  destruct (search_partial_world "Fridays" 1 ltac:(lia)) as (h & Hs & _).
  exists h.
  destruct (search_prefix_stable rt_friday "Fridays" 1 2 partial_world [h])
    as [rest Hrest].
  - lia.
  - reflexivity.
  - intros matches H.
    change (fts5_match rt_friday (memories_fts (db partial_world))
              (sanitize "Fridays"))
      with (Some [(2, (-1)%R)]) in H.
    inversion H. cbn [length]. lia.
  - exact Hs.
  - exists rest. split; [exact Hs | exact Hrest].
Defined.

(** * Further properties of the memory store *)

(** ** What the operations do to the world *)

Lemma world_eta (w : World) :
  {| _embed_model := _embed_model w; db := db w |} = w.
Proof. destruct w. reflexivity. Qed.

Lemma search_world (rt : Runtime) (query : string) (limit : Z) (w : World) :
  snd (search rt query limit w) = snd (embed_text rt query w).
Proof.
  unfold search, py_bind.
  destruct (embed_text rt query w) as [[qe | e] w']; [| reflexivity].
  unfold get_db, ret, lift.
  destruct (memories (db w')); [reflexivity |].
  destruct (score_rows qe (r :: l) []); reflexivity.
Qed.

Lemma embed_text_world (rt : Runtime) (text : string) (w : World) :
  db (snd (embed_text rt text w)) = db w
  /\ provider rt (snd (embed_text rt text w)) = provider rt w.
Proof.
  destruct (provider rt w) as [m |] eqn:Hp.
  - destruct (embed_text_available rt text w m Hp) as (w' & He & Hdb & Hp').
    rewrite He. cbn [snd]. split; assumption.
  - rewrite (embed_text_unavailable rt text w Hp). cbn [snd].
    split; [reflexivity | exact Hp].
Qed.

(** The three reading operations never write: [get_all] and [count] give
    the world back as it was, and [search] can only load the embedding
    model; the database is the same afterwards. *)
Theorem reads_leave_the_database (rt : Runtime) (query : string)
    (limit : Z) (w : World) :
  snd (get_all limit w) = w
  /\ snd (count w) = w
  /\ db (snd (search rt query limit w)) = db w
  /\ provider rt (snd (search rt query limit w)) = provider rt w.
Proof.
  split; [| split].
  - unfold get_all, py_bind, get_db, ret, raise.
    destruct (int64_ok limit); reflexivity.
  - reflexivity.
  - rewrite search_world. apply embed_text_world.
Qed.

(** The model is loaded once: after a call of [embed_text] that returned,
    the model is in [_embed_model], and every later call, whatever the
    import of FastEmbed would now give, answers with that model and leaves
    the world alone.  A call that fails raises [ImportError] and caches
    nothing. *)
Theorem model_is_loaded_once (rt : Runtime) (text : string) (w : World) :
  (forall v w', embed_text rt text w = (Ok v, w') ->
     exists m, _embed_model w' = Some m /\ v = m text
               /\ forall rt' text',
                    embed_text rt' text' w' = (Ok (m text'), w'))
  /\ (forall e w', embed_text rt text w = (Raise e, w') ->
        e = ImportError /\ w' = w /\ _embed_model w = None).
Proof.
  unfold embed_text, py_bind, _get_model, ret. split.
  - intros v w' H.
    destruct (_embed_model w) as [m |] eqn:Hc.
    + inversion H; subst. exists m.
      split; [exact Hc |]. split; [reflexivity |].
      intros rt' text'. rewrite Hc. reflexivity.
    + destruct (fastembed rt) as [m |]; [| discriminate].
      inversion H; subst. exists m. cbn [_embed_model].
      split; [reflexivity |]. split; reflexivity.
  - intros e w' H.
    destruct (_embed_model w) as [m |] eqn:Hc; [discriminate |].
    destruct (fastembed rt) as [m |]; [discriminate |].
    inversion H; subst. repeat split.
Qed.

Lemma embed_text_loads (rt : Runtime) (text : string) (w : World) (m : Model) :
  provider rt w = Some m ->
  exists w', embed_text rt text w = (Ok (m text), w')
             /\ db w' = db w /\ _embed_model w' = Some m.
Proof.
  unfold provider, embed_text, py_bind, _get_model, ret.
  destruct (_embed_model w) as [m0 |] eqn:Hc.
  - intros H; inversion H; subst m0. exists w.
    rewrite Hc. repeat split; reflexivity || exact Hc.
  - intros ->. eexists. split; [reflexivity |]. split; reflexivity.
Qed.

(** ** Identifiers *)

Lemma max_rowid_from (rows : list Row) (a : Z) :
  a <= fold_left (fun acc r => Z.max acc (row_id r)) rows a
  /\ forall r, In r rows ->
       row_id r <= fold_left (fun acc r => Z.max acc (row_id r)) rows a.
Proof.
  revert a; induction rows as [| x rows IH]; intros a; cbn [fold_left].
  - split; [lia | intros r []].
  - destruct (IH (Z.max a (row_id x))) as [Hge Hall]. split; [lia |].
    intros r [-> | Hin]; [lia | apply Hall; exact Hin].
Qed.

Lemma max_rowid_bound (rows : list Row) (r : Row) :
  In r rows -> row_id r <= max_rowid rows.
Proof. apply max_rowid_from. Qed.

(** What a call of [save] that returned has done. *)
Lemma save_returned (rt : Runtime) (content category now : string)
    (w w1 : World) (id : Z) :
  save rt content category now w = (Ok id, w1) ->
  exists m blob,
    provider rt w = Some m
    /\ serialize_vector (m content) = Ok blob
    /\ id = Z.max (sqlite_sequence (db w)) (max_rowid (memories (db w))) + 1
    /\ db w1 = snd (insert_memory content category blob now (db w))
    /\ _embed_model w1 = Some m.
Proof.
  intros H.
  destruct (provider rt w) as [m |] eqn:Hp.
  2:{ unfold save, py_bind in H.
      rewrite (embed_text_unavailable rt content w Hp) in H. discriminate. }
  destruct (serialize_vector (m content)) as [blob |] eqn:Hs.
  2:{ destruct (embed_text_available rt content w m Hp) as (w' & He & _).
      unfold save, py_bind in H. rewrite He in H. unfold lift in H.
      rewrite Hs in H. discriminate. }
  exists m, blob. split; [reflexivity |]. split; [exact Hs |].
  destruct (embed_text_loads rt content w m Hp) as (w' & He & Hdb & Hc).
  unfold save, py_bind in H. rewrite He in H. unfold lift in H.
  rewrite Hs in H. unfold get_db, put_db, ret in H.
  cbn [insert_memory] in H. rewrite Hdb in H.
  inversion H; subst id w1. cbn [db _embed_model].
  repeat split. exact Hc.
Qed.

Lemma step_sequence_grows (rt : Runtime) (o : op) (w : World) :
  sqlite_sequence (db w) <= sqlite_sequence (db (step rt o w)).
Proof.
  destruct o as [content category now | memory_id]; cbn [step].
  - destruct (save_db rt content category now w) as [-> | [blob ->]]; [lia |].
    cbn [insert_memory snd sqlite_sequence]. lia.
  - destruct (delete_db memory_id w) as [-> | ->]; [lia |].
    unfold delete_memory.
    destruct (filter (fun r => row_id r =? memory_id) (memories (db w)));
      cbn [snd sqlite_sequence]; lia.
Qed.

Lemma run_sequence_grows (rt : Runtime) (ops : list op) (w : World) :
  sqlite_sequence (db w) <= sqlite_sequence (db (run rt ops w)).
Proof.
  revert w; induction ops as [| o ops IH]; intros w; cbn [run fold_left].
  - lia.
  - fold (run rt ops (step rt o w)).
    pose proof (step_sequence_grows rt o w). specialize (IH (step rt o w)). lia.
Qed.

(** The id [save] returns is above every id in the table, and every later
    [save], whatever was saved or deleted in between, returns a larger
    one: an id is never given twice. *)
Theorem save_ids_are_never_reused (rt : Runtime) (ops : list op)
    (c1 k1 t1 c2 k2 t2 : string) (w w1 : World) (id1 id2 : Z) :
  save rt c1 k1 t1 w = (Ok id1, w1) ->
  fst (save rt c2 k2 t2 (run rt ops w1)) = Ok id2 ->
  (forall id, In id (table_ids (db w)) -> id < id1) /\ id1 < id2.
Proof.
  intros H1 H2.
  destruct (save_returned rt c1 k1 t1 w w1 id1 H1)
    as (m & blob & _ & _ & Hid1 & Hdb1 & _).
  split.
  - intros id Hin. unfold table_ids in Hin.
    apply in_map_iff in Hin. destruct Hin as (r & <- & Hr).
    pose proof (max_rowid_bound _ _ Hr). lia.
  - destruct (save rt c2 k2 t2 (run rt ops w1)) as [o w2] eqn:Hs2.
    cbn [fst] in H2. subst o.
    destruct (save_returned rt c2 k2 t2 _ w2 id2 Hs2)
      as (m2 & blob2 & _ & _ & Hid2 & _ & _).
    pose proof (run_sequence_grows rt ops w1) as Hgrow.
    rewrite Hdb1 in Hgrow at 1.
    cbn [insert_memory snd sqlite_sequence] in Hgrow. lia.
Qed.

(** ** [delete] *)

Lemma filter_none {A : Type} (p : A -> bool) (l : list A) :
  filter p l = [] -> filter (fun x => negb (p x)) l = l.
Proof.
  induction l as [| x l IH]; [reflexivity |]. cbn [filter].
  destruct (p x); [discriminate |]. intros H. cbn [negb]. rewrite IH by exact H.
  reflexivity.
Qed.

Lemma filter_id_nil (memory_id : Z) (rows : list Row) :
  filter (fun r => row_id r =? memory_id) rows = []
  <-> ~ In memory_id (map row_id rows).
Proof.
  induction rows as [| r rows IH]; cbn [filter map In]; [intuition |].
  destruct (Z.eqb_spec (row_id r) memory_id) as [He | Hne].
  - split; [discriminate | intros H; exfalso; apply H; left; exact He].
  - rewrite IH. intuition.
Qed.

Lemma not_in_filtered (memory_id : Z) (rows : list Row) :
  ~ In memory_id
      (map row_id (filter (fun r => negb (row_id r =? memory_id)) rows)).
Proof.
  intros H. apply in_map_iff in H. destruct H as (r & Hid & Hr).
  apply filter_In in Hr. destruct Hr as [_ Hr].
  rewrite Hid, Z.eqb_refl in Hr. discriminate.
Qed.

Lemma delete_cases (memory_id : Z) (w : World) :
  int64_ok memory_id = true ->
  exists b w',
    delete memory_id w = (Ok b, w')
    /\ (b = true <-> In memory_id (table_ids (db w)))
    /\ (b = false -> w' = w)
    /\ memories (db w')
       = filter (fun r => negb (row_id r =? memory_id)) (memories (db w))
    /\ (b = true ->
          memories_fts (db w')
          = filter (fun x => negb (fts_rowid x =? memory_id))
                   (memories_fts (db w)))
    /\ ~ In memory_id (table_ids (db w'))
    /\ (table_ids (db w) = index_ids (db w) ->
          ~ In memory_id (index_ids (db w'))).
Proof.
  intros Hok. unfold delete, py_bind, get_db, put_db, ret. rewrite Hok.
  unfold delete_memory, table_ids.
  destruct (filter (fun r => row_id r =? memory_id) (memories (db w)))
    as [| r hit] eqn:Hhit.
  - pose proof (proj1 (filter_id_nil memory_id (memories (db w))) Hhit) as Hnot.
    exists false, {| _embed_model := _embed_model w; db := db w |}.
    rewrite world_eta. cbn [Z.ltb Z.compare].
    split; [reflexivity |].
    split; [split; [discriminate | intros H; contradiction] |].
    split; [reflexivity |].
    split; [symmetry; apply filter_none; exact Hhit |].
    split; [discriminate |]. split; [exact Hnot |].
    intros Hm. unfold index_ids in *. rewrite <- Hm. exact Hnot.
  - set (gone := filter (fun x => fts_rowid x =? memory_id) (memories_fts (db w))).
    assert (Hpos : (0 <? Z.of_nat (length (r :: hit)) + Z.of_nat (length gone)) = true)
      by (apply Z.ltb_lt; cbn [length]; lia).
    rewrite Hpos.
    eexists true, _. split; [reflexivity |].
    cbn [db memories memories_fts].
    assert (Hin : In memory_id (map row_id (memories (db w)))).
    { destruct (in_dec Z.eq_dec memory_id (map row_id (memories (db w))))
        as [Hin | Hnot]; [exact Hin |].
      apply filter_id_nil in Hnot. rewrite Hnot in Hhit. discriminate. }
    split; [split; [intros _; exact Hin | reflexivity] |].
    split; [discriminate |]. split; [reflexivity |].
    split; [reflexivity |].
    split; [apply not_in_filtered |].
    intros Hm. unfold index_ids in *. cbn [db memories_fts].
    rewrite <- (filter_mirrored (fun i => negb (i =? memory_id))
                  (memories (db w)) (memories_fts (db w)) Hm).
    apply not_in_filtered.
Qed.

(** [delete] of an id SQLite can bind returns whether a record had that
    id.  If one had, exactly the rows with that id leave the table and the
    index and every other row stays; if none had, the world is untouched.
    Afterwards the id is in neither the table nor, when the index mirrored
    the table, the index. *)
Theorem delete_removes_exactly (memory_id : Z) (w : World) :
  int64_ok memory_id = true ->
  exists b w',
    delete memory_id w = (Ok b, w')
    /\ (b = true <-> In memory_id (table_ids (db w)))
    /\ (b = false -> w' = w)
    /\ memories (db w')
       = filter (fun r => negb (row_id r =? memory_id)) (memories (db w))
    /\ (b = true ->
          memories_fts (db w')
          = filter (fun x => negb (fts_rowid x =? memory_id))
                   (memories_fts (db w)))
    /\ ~ In memory_id (table_ids (db w'))
    /\ (table_ids (db w) = index_ids (db w) ->
          ~ In memory_id (index_ids (db w'))).
Proof. exact (delete_cases memory_id w). Qed.

(** A second [delete] of the same id finds nothing: it returns [False]
    and changes nothing. *)
Theorem delete_twice (memory_id : Z) (w : World) :
  int64_ok memory_id = true ->
  delete memory_id (snd (delete memory_id w))
  = (Ok false, snd (delete memory_id w)).
Proof.
  intros Hok.
  destruct (delete_cases memory_id w Hok)
    as (b & w' & Hd & _ & _ & _ & _ & Hnot & _).
  rewrite Hd. cbn [snd].
  destruct (delete_cases memory_id w' Hok)
    as (b2 & w2 & Hd2 & Hb2 & Hsame & _).
  destruct b2.
  - exfalso. apply Hnot. apply Hb2. reflexivity.
  - rewrite Hd2, (Hsame eq_refl). reflexivity.
Qed.

Lemma filter_all {A : Type} (p : A -> bool) (l : list A) :
  (forall x, In x l -> p x = true) -> filter p l = l.
Proof.
  induction l as [| x l IH]; intros H; [reflexivity |]. cbn [filter].
  rewrite (H x (or_introl eq_refl)), IH; [reflexivity |].
  intros y Hy. apply H. right. exact Hy.
Qed.

(** [save] followed by [delete] of the id it returned gives back the
    table and the index as they were, so [count] is what it was before;
    only the AUTOINCREMENT counter keeps the id.  (The index must have
    mirrored the table, and the id must be one SQLite can bind.) *)
Theorem save_then_delete_restores (rt : Runtime) (content category now : string)
    (w w1 : World) (id : Z) :
  table_ids (db w) = index_ids (db w) ->
  save rt content category now w = (Ok id, w1) ->
  int64_ok id = true ->
  exists w2,
    delete id w1 = (Ok true, w2)
    /\ memories (db w2) = memories (db w)
    /\ memories_fts (db w2) = memories_fts (db w)
    /\ fst (count w2) = fst (count w)
    /\ sqlite_sequence (db w2) = id.
Proof.
  intros Hm Hs Hok.
  destruct (save_returned rt content category now w w1 id Hs)
    as (m & blob & _ & _ & Hid & Hdb & _).
  assert (Hlt : forall i, In i (table_ids (db w)) -> i < id).
  { intros i Hin. unfold table_ids in Hin. apply in_map_iff in Hin.
    destruct Hin as (r & <- & Hr). pose proof (max_rowid_bound _ _ Hr). lia. }
  unfold delete, py_bind, get_db, put_db, ret. rewrite Hok, Hdb.
  unfold delete_memory. cbn [insert_memory snd memories memories_fts sqlite_sequence].
  rewrite <- Hid.
  rewrite !filter_app. cbn [filter row_id fts_rowid]. rewrite Z.eqb_refl.
  cbn [negb].
  assert (H1 : filter (fun r => row_id r =? id) (memories (db w)) = []).
  { apply filter_id_nil. intros Hin. specialize (Hlt id Hin). lia. }
  assert (H2 : filter (fun r => negb (row_id r =? id)) (memories (db w))
               = memories (db w)).
  { apply filter_none. exact H1. }
  assert (H3 : filter (fun x => negb (fts_rowid x =? id)) (memories_fts (db w))
               = memories_fts (db w)).
  { apply filter_all. intros x Hx.
    assert (Hin : In (fts_rowid x) (table_ids (db w))).
    { rewrite Hm. unfold index_ids. apply in_map. exact Hx. }
    specialize (Hlt _ Hin). apply negb_true_iff. apply Z.eqb_neq. lia. }
  rewrite H1, H2, H3. cbn [app].
  eexists. split.
  - f_equal. f_equal. apply Z.ltb_lt. cbn [length]. lia.
  - cbn [db memories memories_fts sqlite_sequence]. rewrite !app_nil_r.
    repeat split.
Qed.

(** ** Stores written by [save] and [delete] only *)

Lemma search_with_model (rt : Runtime) (query : string) (limit : Z)
    (w : World) (m : Model) :
  provider rt w = Some m ->
  Forall well_sized (memories (db w)) ->
  returns (fst (search rt query limit w)).
Proof.
  intros Hp Hall. rewrite (search_available rt query limit w m Hp).
  destruct (memories (db w)) as [| r rows]; [eexists; reflexivity |].
  destruct (score_rows_well_sized (m query) (r :: rows) Hall []) as [vs Hvs].
  rewrite Hvs. eexists. reflexivity.
Qed.

Lemma serialized_is_well_sized (vec : list float) (blob : bytes)
    (id : Z) (content category now : string) :
  serialize_vector vec = Ok blob ->
  well_sized {| row_id := id; row_content := content;
                row_category := category; row_embedding := Some blob;
                row_created_at := now; row_updated_at := now |}.
Proof.
  intros Hs b Hb. unfold blob_of in Hb. cbn [row_embedding] in Hb.
  destruct blob as [| x blob]; [discriminate |]. inversion Hb; subst b.
  rewrite (struct_pack_f_length vec (x :: blob) Hs).
  rewrite Z.mul_comm. apply Z.mod_mul. lia.
Qed.

Lemma step_own_store (rt : Runtime) (o : op) (w : World) :
  own_store w -> own_store (step rt o w).
Proof.
  intros [Hall Hmodel]. destruct o as [content category now | memory_id];
    cbn [step].
  - destruct (save rt content category now w) as [[id | e] w1] eqn:Hs.
    + destruct (save_returned rt content category now w w1 id Hs)
        as (m & blob & _ & Hser & _ & Hdb & Hc).
      cbn [snd]. split.
      * rewrite Hdb. cbn [insert_memory snd memories].
        apply Forall_app. split; [exact Hall |].
        constructor; [| constructor].
        apply (serialized_is_well_sized (m content)). exact Hser.
      * intros _. rewrite Hc. discriminate.
    + cbn [snd].
      assert (Hdb : db w1 = db w /\ (_embed_model w <> None -> _embed_model w1 <> None)).
      { unfold save, py_bind in Hs.
        destruct (provider rt w) as [m |] eqn:Hp.
        - destruct (embed_text_loads rt content w m Hp) as (w' & He & Hdb & Hc).
          rewrite He in Hs. unfold lift in Hs.
          destruct (serialize_vector (m content)) as [blob |].
          + unfold get_db, put_db, ret in Hs. cbn [insert_memory] in Hs.
            discriminate.
          + inversion Hs; subst. split; [exact Hdb |].
            intros _. rewrite Hc. discriminate.
        - rewrite (embed_text_unavailable rt content w Hp) in Hs.
          inversion Hs; subst. split; [reflexivity | auto]. }
      destruct Hdb as [Hdb Hkeep]. split; rewrite Hdb; [exact Hall |].
      intros Hne. apply Hkeep. apply Hmodel. exact Hne.
  - assert (Hc : _embed_model (snd (delete memory_id w)) = _embed_model w).
    { unfold delete, py_bind, get_db, put_db, ret, raise.
      destruct (int64_ok memory_id); [| reflexivity].
      destruct (delete_memory memory_id (db w)). reflexivity. }
    destruct (delete_db memory_id w) as [Hdb | Hdb]; split; rewrite Hdb.
    + exact Hall.
    + rewrite Hc. exact Hmodel.
    + unfold delete_memory.
      destruct (filter (fun r => row_id r =? memory_id) (memories (db w)))
        as [| r0 hit]; cbn [snd memories]; [exact Hall |].
      apply Forall_forall. intros r Hr. apply filter_In in Hr.
      destruct Hr as [Hr _]. revert r Hr. apply Forall_forall. exact Hall.
    + rewrite Hc. intros Hne. apply Hmodel. intros Hnil. apply Hne.
      unfold delete_memory. rewrite Hnil. cbn [filter snd]. exact Hnil.
Qed.

Lemma run_own_store (rt : Runtime) (ops : list op) (w : World) :
  own_store w -> own_store (run rt ops w).
Proof.
  revert w; induction ops as [| o ops IH]; intros w Hw; [exact Hw |].
  cbn [run fold_left]. apply IH. apply step_own_store. exact Hw.
Qed.

(** On a store created and written by this process through [save] and
    [delete], [search] can fail in one way only: with [ImportError], and
    only while the store is still empty.  As soon as the store holds a
    record, every search returns: the model was loaded by the [save] that
    wrote the record, and every embedding [save] wrote can be decoded. *)
Theorem search_on_own_store (rt rt' : Runtime) (ops : list op)
    (cache : option Model) (query : string) (limit : Z) :
  let w := run rt ops {| _embed_model := cache; db := _init_db |} in
  (memories (db w) <> [] -> returns (fst (search rt' query limit w)))
  /\ (forall e, fst (search rt' query limit w) = Raise e ->
        e = ImportError /\ memories (db w) = []).
Proof.
  cbv zeta.
  set (w := run rt ops {| _embed_model := cache; db := _init_db |}).
  assert (Hown : own_store w).
  { apply run_own_store. split; [constructor |]. intros H. exfalso.
    apply H. reflexivity. }
  destruct Hown as [Hall Hmodel].
  destruct (provider rt' w) as [m |] eqn:Hp.
  - pose proof (search_with_model rt' query limit w m Hp Hall) as [res Hres].
    split; [intros _; exists res; exact Hres |].
    intros e He. rewrite Hres in He. discriminate.
  - assert (Hnil : memories (db w) = []).
    { destruct (memories (db w)) as [| r rows] eqn:Hrows; [reflexivity |].
      exfalso. apply Hmodel; [discriminate |].
      unfold provider in Hp. destruct (_embed_model w); [discriminate | reflexivity]. }
    rewrite (search_unavailable rt' query limit w Hp). cbn [fst].
    split; [intros H; contradiction |].
    intros e He. inversion He. split; [reflexivity | exact Hnil].
Qed.

(** ** The shape of a search result *)

Lemma search_result_form (rt : Runtime) (query : string) (limit : Z)
    (w : World) (res : list Hit) :
  fst (search rt query limit w) = Ok res ->
  (memories (db w) = [] /\ res = [])
  \/ exists m vs,
       provider rt w = Some m
       /\ score_rows (m query) (memories (db w)) [] = Ok vs
       /\ res = py_slice_to limit
                  (sort_desc hit_score
                     (map (combine_scores (keyword_search rt (db w) query limit))
                          vs)).
Proof.
  intros H.
  destruct (provider rt w) as [m |] eqn:Hp.
  2:{ rewrite (search_unavailable rt query limit w Hp) in H. discriminate. }
  rewrite (search_available rt query limit w m Hp) in H.
  destruct (memories (db w)) as [| r rows].
  - left. inversion H. split; reflexivity.
  - right. exists m.
    destruct (score_rows (m query) (r :: rows) []) as [vs |]; [| discriminate].
    exists vs. inversion H. repeat split.
Qed.







(** Dictionaries keyed by integers. *)
Lemma dict_get_set_same {V : Type} (k : Z) (v : V) (d : list (Z * V)) :
  dict_get Z.eqb k (dict_set Z.eqb k v d) = Some v.
Proof.
  induction d as [| [k' v'] d IH]; cbn [dict_set dict_get].
  - rewrite Z.eqb_refl. reflexivity.
  - destruct (Z.eqb_spec k' k) as [-> | Hne]; cbn [dict_get].
    + rewrite Z.eqb_refl. reflexivity.
    + destruct (Z.eqb_spec k' k); [contradiction | exact IH].
Qed.

Lemma dict_get_set_other {V : Type} (j k : Z) (v : V) (d : list (Z * V)) :
  j <> k -> dict_get Z.eqb j (dict_set Z.eqb k v d) = dict_get Z.eqb j d.
Proof.
  intros Hjk. induction d as [| [k' v'] d IH]; cbn [dict_set dict_get].
  - destruct (Z.eqb_spec k j); [congruence | reflexivity].
  - destruct (Z.eqb_spec k' k) as [-> | Hne]; cbn [dict_get].
    + destruct (Z.eqb_spec k j); [congruence | reflexivity].
    + rewrite IH. reflexivity.
Qed.

Lemma dict_get_in {V : Type} (k : Z) (v : V) (d : list (Z * V)) :
  dict_get Z.eqb k d = Some v -> In (k, v) d.
Proof.
  induction d as [| [k' v'] d IH]; cbn [dict_get]; [discriminate |].
  destruct (Z.eqb_spec k' k) as [-> | Hne].
  - intros H; inversion H. left. reflexivity.
  - intros H. right. apply IH. exact H.
Qed.

Lemma dict_set_in {V : Type} (k : Z) (v : V) (d : list (Z * V)) (e : Z * V) :
  In e (dict_set Z.eqb k v d) -> e = (k, v) \/ In e d.
Proof.
  induction d as [| [k' v'] d IH]; cbn [dict_set In].
  - intros [<- | []]. left. reflexivity.
  - destruct (Z.eqb_spec k' k) as [-> | Hne]; cbn [In].
    + intros [<- | H]; [left; reflexivity | right; right; exact H].
    + intros [<- | H]; [right; left; reflexivity |].
      destruct (IH H) as [-> | Hd]; [left; reflexivity | right; right; exact Hd].
Qed.

Lemma dict_set_NoDup {V : Type} (k : Z) (v : V) (d : list (Z * V)) :
  NoDup (map fst d) -> NoDup (map fst (dict_set Z.eqb k v d)).
Proof.
  induction d as [| [k' v'] d IH]; cbn [dict_set map fst]; intros Hnd.
  - repeat constructor. intros [].
  - inversion Hnd as [| ? ? Hnot Hd]; subst.
    destruct (Z.eqb_spec k' k) as [-> | Hne]; cbn [map fst].
    + constructor; assumption.
    + constructor; [| apply IH; exact Hd].
      intros Hin. apply dict_set_keys in Hin. destruct Hin as [-> | Hin];
        [apply Hne; reflexivity | apply Hnot; exact Hin].
Qed.

Lemma score_rows_entries (q : list float) (rows : list Row) :
  forall vs vs', score_rows q rows vs = Ok vs' ->
    NoDup (map fst vs) ->
    (forall e, In e vs -> entry_of_row rows e \/ In e vs) ->
    NoDup (map fst vs')
    /\ forall e, In e vs' -> entry_of_row rows e \/ In e vs.
Proof.
  induction rows as [| r rows IH]; intros vs vs' H Hnd _.
  - inversion H; subst. split; [exact Hnd | auto].
  - cbn [score_rows] in H.
    destruct (score_row q r vs) as [vs1 |] eqn:H1; [| discriminate].
    cbn [bind] in H.
    assert (Hstep : NoDup (map fst vs1)
                    /\ forall e, In e vs1 -> entry_of_row [r] e \/ In e vs).
    { unfold score_row in H1. destruct (blob_of r) as [blob |] eqn:Hb.
      - destruct (deserialize_vector blob) as [mem |]; [| discriminate].
        cbn [bind] in H1. inversion H1; subst vs1.
        split; [apply dict_set_NoDup; exact Hnd |].
        intros e He. apply dict_set_in in He. destruct He as [-> | He]; [| auto].
        left. split.
        + cbn [snd sc_vector_score]. apply Rmax_l.
        + exists r. cbn [snd fst sc_content sc_category sc_created_at].
          split; [left; reflexivity |]. split; [rewrite Hb; discriminate |].
          repeat split.
      - inversion H1; subst vs1. split; [exact Hnd | auto]. }
    destruct Hstep as [Hnd1 Hin1].
    destruct (IH vs1 vs' H Hnd1 (fun e He => or_intror He)) as [Hnd' Hin'].
    split; [exact Hnd' |].
    intros e He. destruct (Hin' e He) as [Hrow | He1].
    + left. destruct Hrow as [Hv (r' & Hr' & Hrest)].
      split; [exact Hv |]. exists r'. split; [right; exact Hr' | exact Hrest].
    + destruct (Hin1 e He1) as [Hrow | Hvs]; [| right; exact Hvs].
      left. destruct Hrow as [Hv (r' & Hr' & Hrest)].
      split; [exact Hv |]. exists r'. split; [| exact Hrest].
      destruct Hr' as [<- | []]. left. reflexivity.
Qed.

Lemma fold_min_le (l : list R) (a x : R) :
  (fold_left Rmin l a <= a)%R
  /\ (In x l -> (fold_left Rmin l a <= x)%R).
Proof.
  revert a; induction l as [| y l IH]; intros a; cbn [fold_left].
  - split; [lra | intros []].
  - destruct (IH (Rmin a y)) as [Hle Hin].
    pose proof (Rmin_l a y). pose proof (Rmin_r a y).
    split; [lra |]. intros [-> | Hx]; [lra | apply Hin; exact Hx].
Qed.

Lemma fold_max_ge (l : list R) (a x : R) :
  (a <= fold_left Rmax l a)%R
  /\ (In x l -> (x <= fold_left Rmax l a)%R).
Proof.
  revert a; induction l as [| y l IH]; intros a; cbn [fold_left].
  - split; [lra | intros []].
  - destruct (IH (Rmax a y)) as [Hle Hin].
    pose proof (Rmax_l a y). pose proof (Rmax_r a y).
    split; [lra |]. intros [-> | Hx]; [lra | apply Hin; exact Hx].
Qed.

Lemma py_min_le (l : list R) (x : R) : In x l -> (py_min l <= x)%R.
Proof.
  destruct l as [| a l]; [intros [] |]. cbn [py_min].
  intros [<- | Hx];
    [apply (proj1 (fold_min_le l a 0%R)) | apply (proj2 (fold_min_le l a x)); exact Hx].
Qed.

Lemma py_max_ge (l : list R) (x : R) : In x l -> (x <= py_max l)%R.
Proof.
  destruct l as [| a l]; [intros [] |]. cbn [py_max].
  intros [<- | Hx];
    [apply (proj1 (fold_max_ge l a 0%R)) | apply (proj2 (fold_max_ge l a x)); exact Hx].
Qed.

(** The score step 4 gives a row of rank [rank]. *)
Lemma normalized_bounds (lo hi rank : R) :
  (lo <= rank <= hi)%R ->
  let rank_range := if Req_dec_T hi lo then 1%R else (hi - lo)%R in
  let normalized :=
    if Req_dec_T rank_range 0 then 1%R
    else (1 - (rank - lo) / rank_range)%R in
  (0 <= normalized <= 1)%R
  /\ (rank = lo -> normalized = 1%R)
  /\ (rank = hi -> hi <> lo -> normalized = 0%R).
Proof.
  intros Hr. cbv zeta.
  destruct (Req_dec_T hi lo) as [Heq | Hne].
  - destruct (Req_dec_T 1 0) as [H | _]; [lra |].
    assert (rank = lo) by lra. subst rank.
    replace (1 - (lo - lo) / 1)%R with 1%R by field.
    repeat split; try lra; intros; try lra; try contradiction.
  - destruct (Req_dec_T (hi - lo) 0) as [H | Hnz]; [lra |].
    assert (Hpos : (0 < hi - lo)%R) by lra.
    assert (Hq : (0 <= (rank - lo) / (hi - lo) <= 1)%R).
    { split.
      - apply Rmult_le_pos; [lra |]. left. apply Rinv_0_lt_compat. exact Hpos.
      - apply (Rmult_le_reg_r (hi - lo)); [exact Hpos |].
        unfold Rdiv. rewrite Rmult_assoc, Rinv_l by lra. lra. }
    repeat split; try lra.
    + intros ->. replace ((lo - lo) / (hi - lo))%R with 0%R by (field; lra). lra.
    + intros -> _. replace ((hi - lo) / (hi - lo))%R with 1%R by (field; lra). lra.
Qed.

Lemma fold_dict_values {V : Type} (f : Z * R -> V) (l : list (Z * R))
    (init : list (Z * V)) (e : Z * V) :
  In e (fold_left (fun ks rr => dict_set Z.eqb (fst rr) (f rr) ks) l init) ->
  In e init \/ exists rr, In rr l /\ e = (fst rr, f rr).
Proof.
  revert init; induction l as [| rr l IH]; intros init; cbn [fold_left].
  - auto.
  - intros H. destruct (IH _ H) as [Hi | (rr' & Hin & He)].
    + apply dict_set_in in Hi. destruct Hi as [-> | Hi]; [| left; exact Hi].
      right. exists rr. split; [left; reflexivity | reflexivity].
    + right. exists rr'. split; [right; exact Hin | exact He].
Qed.

Lemma fold_dict_get_other {V : Type} (f : Z * R -> V) (l : list (Z * R))
    (init : list (Z * V)) (id : Z) :
  ~ In id (map fst l) ->
  dict_get Z.eqb id (fold_left (fun ks rr => dict_set Z.eqb (fst rr) (f rr) ks) l init)
  = dict_get Z.eqb id init.
Proof.
  revert init; induction l as [| rr l IH]; intros init Hnot; cbn [fold_left];
    [reflexivity |].
  cbn [map In] in Hnot. rewrite IH by tauto.
  apply dict_get_set_other. intros ->. apply Hnot. left. reflexivity.
Qed.

Lemma fold_dict_get {V : Type} (f : Z * R -> V) (l : list (Z * R))
    (init : list (Z * V)) (rr : Z * R) :
  NoDup (map fst l) -> In rr l ->
  dict_get Z.eqb (fst rr)
    (fold_left (fun ks rr => dict_set Z.eqb (fst rr) (f rr) ks) l init)
  = Some (f rr).
Proof.
  revert init; induction l as [| x l IH]; intros init Hnd Hin; [inversion Hin |].
  cbn [map] in Hnd. inversion Hnd as [| ? ? Hnot Hl]; subst.
  cbn [fold_left]. destruct Hin as [-> | Hin].
  - rewrite fold_dict_get_other by exact Hnot. apply dict_get_set_same.
  - apply IH; assumption.
Qed.

Lemma normalize_ranks_values (fts_rows : list (Z * R)) (id : Z) (k : R) :
  dict_get Z.eqb id (normalize_ranks fts_rows) = Some k -> (0 <= k <= 1)%R.
Proof.
  unfold normalize_ranks. destruct fts_rows as [| rr0 rest]; [discriminate |].
  set (rows := rr0 :: rest). intros H. apply dict_get_in in H.
  apply fold_dict_values in H. destruct H as [[] | (rr & Hin & He)].
  inversion He; subst k.
  apply (normalized_bounds (py_min (map snd rows)) (py_max (map snd rows)) (snd rr)).
  split; [apply py_min_le | apply py_max_ge]; apply in_map; exact Hin.
Qed.

Lemma keyword_search_values (rt : Runtime) (d : Database) (query : string)
    (limit id : Z) (k : R) :
  dict_get Z.eqb id (keyword_search rt d query limit) = Some k -> (0 <= k <= 1)%R.
Proof.
  unfold keyword_search.
  destruct (truthy (strip (sanitize query))); [| discriminate].
  destruct (int64_ok (limit * 3)); [| discriminate].
  destruct (fts5_match rt (memories_fts d) (sanitize query)); [| discriminate].
  apply normalize_ranks_values.
Qed.

Lemma search_hits (rt : Runtime) (query : string) (limit : Z)
    (w : World) (res : list Hit) (h : Hit) :
  fst (search rt query limit w) = Ok res -> In h res ->
  exists e, h = combine_scores (keyword_search rt (db w) query limit) e
            /\ entry_of_row (memories (db w)) e.
Proof.
  intros Hres Hh.
  destruct (search_result_form rt query limit w res Hres)
    as [[_ ->] | (m & vs & _ & Hvs & ->)]; [inversion Hh |].
  apply py_slice_to_incl in Hh.
  apply (Permutation_in _ (sort_desc_perm hit_score _)) in Hh.
  apply in_map_iff in Hh. destruct Hh as (e & <- & He).
  exists e. split; [reflexivity |].
  destruct (score_rows_entries _ _ _ _ Hvs (NoDup_nil _)
              (fun e He => or_intror He)) as [_ Hin].
  destruct (Hin e He) as [Hrow | []]. exact Hrow.
Qed.

Lemma search_hit_columns (rt : Runtime) (query : string)
    (limit : Z) (w : World) (res : list Hit) (h : Hit) :
  fst (search rt query limit w) = Ok res -> In h res ->
  hit_score h
  = (VECTOR_WEIGHT * hit_vector_score h + KEYWORD_WEIGHT * hit_keyword_score h)%R
  /\ (0 <= hit_vector_score h)%R
  /\ (0 <= hit_keyword_score h <= 1)%R
  /\ exists r, In r (memories (db w)) /\ blob_of r <> None
               /\ row_id r = hit_id h
               /\ row_content r = hit_content h
               /\ row_category r = hit_category h
               /\ row_created_at r = hit_created_at h.
Proof.
  intros Hres Hh.
  destruct (search_hits rt query limit w res h Hres Hh) as ([id data] & -> & Hv & Hrow).
  cbn [combine_scores hit_score hit_vector_score hit_keyword_score hit_id
       hit_content hit_category hit_created_at].
  split; [reflexivity |]. split; [exact Hv |]. split; [| exact Hrow].
  destruct (dict_get Z.eqb id (keyword_search rt (db w) query limit)) as [k |] eqn:Hk.
  - apply (keyword_search_values rt (db w) query limit id k Hk).
  - lra.
Qed.

(** Every hit of [search] carries the columns of a stored record that has
    an embedding; its score is [0.7] times its vector score plus [0.3]
    times its keyword score; the vector score is at least [0] and the
    keyword score lies between [0] and [1]. *)
Theorem search_hit_is_weighted_sum (rt : Runtime) (query : string)
    (limit : Z) (w : World) (res : list Hit) (h : Hit) :
  fst (search rt query limit w) = Ok res -> In h res ->
  hit_score h
  = (VECTOR_WEIGHT * hit_vector_score h + KEYWORD_WEIGHT * hit_keyword_score h)%R
  /\ (0 <= hit_vector_score h)%R
  /\ (0 <= hit_keyword_score h <= 1)%R
  /\ exists r, In r (memories (db w)) /\ blob_of r <> None
               /\ row_id r = hit_id h
               /\ row_content r = hit_content h
               /\ row_category r = hit_category h
               /\ row_created_at r = hit_created_at h.
Proof. exact (search_hit_columns rt query limit w res h). Qed.


Lemma search_candidates (rt : Runtime) (query : string)
    (limit : Z) (w : World) (res : list Hit) :
  Z.of_nat (length (memories (db w))) <= limit ->
  fst (search rt query limit w) = Ok res ->
  forall id, In id (map hit_id res) <->
             exists r, In r (memories (db w)) /\ row_id r = id
                       /\ blob_of r <> None.
Proof.
  intros Hl Hres id.
  destruct (search_result_form rt query limit w res Hres)
    as [[Hnil ->] | (m & vs & _ & Hvs & ->)].
  { rewrite Hnil. split; [intros [] | intros (r & [] & _)]. }
  set (combined := map (combine_scores (keyword_search rt (db w) query limit)) vs).
  assert (Hlen : (length vs <= length (memories (db w)))%nat).
  { clear - Hvs. revert Hvs. generalize (m query) as q.
    assert (Hgen : forall rows q vs0 vs1, score_rows q rows vs0 = Ok vs1 ->
              (length vs1 <= length vs0 + length rows)%nat).
    { induction rows as [| r rows IH]; intros q vs0 vs1 H.
      - inversion H. cbn [length]. lia.
      - cbn [score_rows] in H.
        destruct (score_row q r vs0) as [vsa |] eqn:Ha; [| discriminate].
        cbn [bind] in H. specialize (IH q vsa vs1 H).
        assert ((length vsa <= S (length vs0))%nat).
        { unfold score_row in Ha. destruct (blob_of r).
          - destruct (deserialize_vector b); [| discriminate].
            cbn [bind] in Ha. inversion Ha.
            clear. induction vs0 as [| [k v] d IHd]; cbn [dict_set length]; [lia |].
            destruct (k =? row_id r); cbn [length]; lia.
          - inversion Ha. lia. }
        cbn [length]. lia. }
    intros q H. specialize (Hgen _ _ _ _ H). cbn [length] in Hgen. lia. }
  rewrite py_slice_to_all.
  2:{ rewrite (Permutation_length (sort_desc_perm hit_score combined)).
      unfold combined. rewrite length_map. lia. }
  assert (Hids : In id (map hit_id (sort_desc hit_score combined))
                 <-> In id (map fst vs)).
  { unfold combined. split; intros H.
    - apply in_map_iff in H. destruct H as (h & <- & Hh).
      apply (Permutation_in _ (sort_desc_perm hit_score _)) in Hh.
      apply in_map_iff in Hh. destruct Hh as (e & <- & He).
      rewrite combine_scores_id. apply in_map. exact He.
    - apply in_map_iff in H. destruct H as (e & <- & He).
      apply in_map_iff.
      exists (combine_scores (keyword_search rt (db w) query limit) e).
      split; [apply combine_scores_id |].
      apply (Permutation_in _ (Permutation_sym (sort_desc_perm hit_score _))).
      apply in_map. exact He. }
  rewrite Hids, (score_rows_keys _ _ _ _ Hvs id). cbn [map In]. tauto.
Qed.

(** With a limit that covers the table, [search] returns the stored
    records that have an embedding, all of them and nothing else: no
    record is left out because its score is low. *)
Theorem search_returns_every_candidate (rt : Runtime) (query : string)
    (limit : Z) (w : World) (res : list Hit) :
  Z.of_nat (length (memories (db w))) <= limit ->
  fst (search rt query limit w) = Ok res ->
  forall id, In id (map hit_id res) <->
             exists r, In r (memories (db w)) /\ row_id r = id
                       /\ blob_of r <> None.
Proof. exact (search_candidates rt query limit w res). Qed.

(** When the keyword step yields nothing (the query holds no word
    character, FTS5 fails on it, or three times the limit is not an
    integer SQLite can bind), [search] still answers, by vector similarity
    alone: every hit has keyword score [0] and score [0.7] times its
    vector score. *)
Theorem search_without_keywords (rt : Runtime) (query : string)
    (limit : Z) (w : World) (res : list Hit) :
  truthy (strip (sanitize query)) = false
  \/ int64_ok (limit * 3) = false
  \/ fts5_match rt (memories_fts (db w)) (sanitize query) = None ->
  fst (search rt query limit w) = Ok res ->
  Forall (fun h => hit_keyword_score h = 0%R
                   /\ hit_score h = (VECTOR_WEIGHT * hit_vector_score h)%R) res.
Proof.
  intros Hoff Hres. apply Forall_forall. intros h Hh.
  destruct (search_hits rt query limit w res h Hres Hh) as ([id data] & -> & _).
  assert (Hk : keyword_search rt (db w) query limit = []).
  { unfold keyword_search. destruct Hoff as [-> | [H | H]]; [reflexivity | |].
    - destruct (truthy _); [| reflexivity]. rewrite H. reflexivity.
    - destruct (truthy _); [| reflexivity].
      destruct (int64_ok _); [| reflexivity]. rewrite H. reflexivity. }
  rewrite Hk.
  cbn [combine_scores dict_get hit_keyword_score hit_score hit_vector_score].
  split; [reflexivity |]. unfold KEYWORD_WEIGHT. lra.
Qed.

(** What [save] has stored is found: after a [save] that returned, every
    search whose limit covers the table returns a hit with the new id, and
    that hit carries the content, the category and the time that were
    saved.  (The stored embeddings must be decodable, and the model must
    give the content a vector of at least one component.) *)
Theorem saved_record_is_found (rt rt' : Runtime)
    (content category now query : string) (limit : Z) (w w1 : World) (id : Z) :
  Forall well_sized (memories (db w)) ->
  save rt content category now w = (Ok id, w1) ->
  (forall m, provider rt w = Some m -> m content <> []) ->
  Z.of_nat (length (memories (db w))) < limit ->
  exists res h,
    fst (search rt' query limit w1) = Ok res
    /\ In h res /\ hit_id h = id
    /\ hit_content h = content
    /\ hit_category h = category
    /\ hit_created_at h = now.
Proof.
  intros Hall Hsave Hdim Hlimit.
  destruct (save_returned rt content category now w w1 id Hsave)
    as (m & blob & Hp & Hser & Hid & Hdb & Hc).
  set (row := {| row_id := id; row_content := content;
                 row_category := category; row_embedding := Some blob;
                 row_created_at := now; row_updated_at := now |}).
  assert (Hrows : memories (db w1) = memories (db w) ++ [row]).
  { rewrite Hdb. cbn [insert_memory snd memories]. rewrite <- Hid. reflexivity. }
  assert (Hblob : blob_of row <> None).
  { unfold blob_of. cbn [row row_embedding].
    pose proof (struct_pack_f_length _ _ Hser) as Hlen.
    destruct blob as [| b blob]; [| discriminate].
    exfalso. apply (Hdim m Hp). destruct (m content); [reflexivity |].
    cbn [length] in Hlen. lia. }
  assert (Hall1 : Forall well_sized (memories (db w1))).
  { rewrite Hrows. apply Forall_app. split; [exact Hall |].
    constructor; [| constructor].
    apply (serialized_is_well_sized (m content)). exact Hser. }
  assert (Hp1 : provider rt' w1 = Some m).
  { unfold provider. rewrite Hc. reflexivity. }
  destruct (search_with_model rt' query limit w1 m Hp1 Hall1) as [res Hres].
  assert (Hin : In id (map hit_id res)).
  { apply (search_candidates rt' query limit w1 res).
    - rewrite Hrows, length_app. cbn [length]. lia.
    - exact Hres.
    - exists row. split; [rewrite Hrows; apply in_or_app; right; left; reflexivity |].
      split; [reflexivity | exact Hblob]. }
  apply in_map_iff in Hin. destruct Hin as (h & Hh & Hhres).
  exists res, h. split; [exact Hres |]. split; [exact Hhres |].
  split; [exact Hh |].
  destruct (search_hit_columns rt' query limit w1 res h Hres Hhres)
    as (_ & _ & _ & r & Hr & _ & Hrid & Hcontent & Hcategory & Hcreated).
  assert (r = row).
  { rewrite Hrows in Hr. apply in_app_or in Hr. destruct Hr as [Hold | [<- | []]].
    - pose proof (max_rowid_bound _ _ Hold). lia.
    - reflexivity. }
  subst r. rewrite <- Hcontent, <- Hcategory, <- Hcreated. repeat split.
Qed.

(** ** The keyword step *)

(** Among the rows FTS5 returned (each rowid once), a row whose rank is
    the lowest gets keyword score [1]; a row whose rank is the highest
    gets [0], unless all ranks are the same, in which case every row
    gets [1]. *)
Theorem keyword_scores_extremes (fts_rows : list (Z * R)) (id : Z) (rank : R) :
  NoDup (map fst fts_rows) -> In (id, rank) fts_rows ->
  let lo := py_min (map snd fts_rows) in
  let hi := py_max (map snd fts_rows) in
  (rank = lo -> dict_get Z.eqb id (normalize_ranks fts_rows) = Some 1%R)
  /\ (rank = hi -> hi <> lo ->
        dict_get Z.eqb id (normalize_ranks fts_rows) = Some 0%R)
  /\ (hi = lo -> dict_get Z.eqb id (normalize_ranks fts_rows) = Some 1%R).
Proof.
  intros Hnd Hin. cbv zeta.
  assert (Hb : (py_min (map snd fts_rows) <= rank <= py_max (map snd fts_rows))%R).
  { split; [apply py_min_le | apply py_max_ge];
      apply (in_map snd) in Hin; exact Hin. }
  unfold normalize_ranks. destruct fts_rows as [| rr0 rest]; [inversion Hin |].
  set (rows := rr0 :: rest) in *.
  rewrite (fold_dict_get _ rows [] (id, rank) Hnd Hin). cbn [snd].
  destruct (normalized_bounds _ _ rank Hb) as (_ & Hlo & Hhi).
  cbv zeta in Hlo, Hhi.
  split; [intros H; rewrite (Hlo H); reflexivity |].
  split; [intros H1 H2; rewrite (Hhi H1 H2); reflexivity |].
  intros Heq. rewrite Hlo; [reflexivity | lra].
Qed.

Lemma string_filter_chars (keep : ascii -> bool) (s : string) (c : ascii) :
  In c (list_ascii_of_string (string_filter keep s))
  <-> In c (list_ascii_of_string s) /\ keep c = true.
Proof.
  induction s as [| a s IH]; cbn [string_filter list_ascii_of_string In].
  - tauto.
  - destruct (keep a) eqn:Ha; cbn [list_ascii_of_string In]; rewrite IH.
    + split; [intros [-> | [H1 H2]]; auto | intros [[-> | H1] H2]; auto].
    + split; [intros [H1 H2]; auto |].
      intros [[-> | H1] H2]; [congruence | auto].
Qed.

Lemma string_filter_all (keep : ascii -> bool) (s : string) :
  (forall c, In c (list_ascii_of_string s) -> keep c = true) ->
  string_filter keep s = s.
Proof.
  induction s as [| a s IH]; intros H; [reflexivity |].
  cbn [string_filter]. rewrite (H a (or_introl eq_refl)), IH; [reflexivity |].
  intros c Hc. apply H. right. exact Hc.
Qed.

(** The string handed to FTS5 holds word and whitespace characters only,
    in the order of the query; sanitising twice changes nothing, and a
    query without other characters is handed over as it is. *)
Theorem sanitize_keeps_words_and_spaces (query : string) :
  (forall c, In c (list_ascii_of_string (sanitize query)) <->
             In c (list_ascii_of_string query)
             /\ (is_word_char c || is_space_char c) = true)
  /\ sanitize (sanitize query) = sanitize query
  /\ ((forall c, In c (list_ascii_of_string query) ->
         (is_word_char c || is_space_char c) = true) ->
      sanitize query = query).
Proof.
  unfold sanitize. split; [| split].
  - intros c. apply string_filter_chars.
  - apply string_filter_all. intros c Hc.
    apply string_filter_chars in Hc. apply Hc.
  - apply string_filter_all.
Qed.

Lemma lstrip_spaces (s : string) :
  (forall c, In c (list_ascii_of_string s) -> is_space_char c = true) ->
  lstrip s = EmptyString.
Proof.
  induction s as [| a s IH]; intros H; [reflexivity |].
  cbn [lstrip]. rewrite (H a (or_introl eq_refl)). apply IH.
  intros c Hc. apply H. right. exact Hc.
Qed.

(** A query without a word character (punctuation and blanks only) never
    reaches FTS5: whatever the matcher would answer, the keyword scores
    are empty. *)
Theorem wordless_query_skips_fts (rt : Runtime) (d : Database)
    (query : string) (limit : Z) :
  (forall c, In c (list_ascii_of_string query) -> is_word_char c = false) ->
  keyword_search rt d query limit = [].
Proof.
  intros H. unfold keyword_search.
  assert (Hs : strip (sanitize query) = EmptyString).
  { assert (Hl : lstrip (sanitize query) = EmptyString).
    { apply lstrip_spaces. intros c Hc. unfold sanitize in Hc.
      apply string_filter_chars in Hc.
      destruct Hc as [Hin Hkeep]. rewrite (H c Hin) in Hkeep. exact Hkeep. }
    unfold strip. rewrite Hl. reflexivity. }
  rewrite Hs. reflexivity.
Qed.

(** ** [cosine_similarity] *)

Lemma dot_symmetric (a b : list float) (acc : R) :
  fold_left Rplus
    (map (fun xy => (float_val (fst xy) * float_val (snd xy))%R) (combine a b)) acc
  = fold_left Rplus
      (map (fun xy => (float_val (fst xy) * float_val (snd xy))%R) (combine b a)) acc.
Proof.
  revert b acc; induction a as [| x a IH]; intros [| y b] acc;
    cbn [combine map fold_left fst snd]; try reflexivity.
  replace (acc + float_val y * float_val x)%R
    with (acc + float_val x * float_val y)%R by ring.
  apply IH.
Qed.

(** [cosine_similarity] does not depend on the order of its arguments. *)
Theorem cosine_similarity_symmetric (a b : list float) :
  cosine_similarity a b = cosine_similarity b a.
Proof.
  unfold cosine_similarity, py_sum. rewrite (dot_symmetric a b).
  set (na := float_pow _ _). set (nb := float_pow _ _).
  set (dot := fold_left Rplus _ 0%R).
  destruct (Req_dec_T na 0); destruct (Req_dec_T nb 0); try reflexivity.
  replace (nb * na)%R with (na * nb)%R by ring. reflexivity.
Qed.

Lemma sum_of_squares_zero (a : list float) :
  (forall x, In x a -> float_val x = 0%R) -> sum_of_squares a = 0%R.
Proof.
  unfold sum_of_squares, py_sum. generalize 0%R at 2 3 as acc.
  induction a as [| x a IH]; intros acc H; cbn [map fold_left]; [reflexivity |].
  rewrite (H x (or_introl eq_refl)).
  replace (acc + 0 * 0)%R with acc by ring.
  apply IH. intros y Hy. apply H. right. exact Hy.
Qed.

(** A vector without a nonzero component, the empty vector among them,
    has similarity [0.0] with every vector: the guard against a division
    by zero answers. *)
Theorem cosine_similarity_of_zero_vector (a b : list float) :
  (forall x, In x a -> float_val x = 0%R) ->
  cosine_similarity a b = 0%R /\ cosine_similarity b a = 0%R.
Proof.
  intros H. pose proof (sum_of_squares_zero a H) as Hz.
  unfold sum_of_squares in Hz.
  assert (Hp : float_pow 0 (5 / 100) = 0%R).
  { unfold float_pow. destruct (Req_dec_T 0 0); [reflexivity | contradiction]. }
  unfold cosine_similarity. rewrite Hz, Hp. split.
  - destruct (Req_dec_T 0 0); [reflexivity | contradiction].
  - destruct (Req_dec_T _ 0); [reflexivity |].
    destruct (Req_dec_T 0 0); [reflexivity | contradiction].
Qed.

(** For vectors with nonzero sums of squares [sa] and [sb], what
    [cosine_similarity] returns is the reference cosine multiplied by
    [(sa * sb) ** 0.45] (over the reals); in particular it is the
    reference cosine when [sa * sb = 1], as for two vectors of norm 1. *)
Theorem cosine_similarity_closed_form (a b : list float) :
  (0 < sum_of_squares a)%R -> (0 < sum_of_squares b)%R ->
  cosine_similarity a b
  = (reference_cosine a b
     * Rpower (sum_of_squares a * sum_of_squares b) (45 / 100))%R
  /\ ((sum_of_squares a * sum_of_squares b = 1)%R ->
      cosine_similarity a b = reference_cosine a b).
Proof.
  intros Ha Hb.
  assert (Hmain : cosine_similarity a b
                  = (reference_cosine a b
                     * Rpower (sum_of_squares a * sum_of_squares b) (45 / 100))%R).
  { unfold cosine_similarity, reference_cosine, euclidean_norm.
    fold (sum_of_squares a). fold (sum_of_squares b).
    set (sa := sum_of_squares a) in *. set (sb := sum_of_squares b) in *.
    set (dot := py_sum _).
    unfold float_pow.
    destruct (Req_dec_T sa 0) as [H | _]; [lra |].
    destruct (Req_dec_T sb 0) as [H | _]; [lra |].
    pose proof (exp_pos (5 / 100 * ln sa)) as Hpa. fold (Rpower sa (5 / 100)) in Hpa.
    pose proof (exp_pos (5 / 100 * ln sb)) as Hpb. fold (Rpower sb (5 / 100)) in Hpb.
    destruct (Req_dec_T (Rpower sa (5 / 100)) 0) as [H | _]; [lra |].
    destruct (Req_dec_T (Rpower sb (5 / 100)) 0) as [H | _]; [lra |].
    rewrite <- (Rpower_sqrt sa Ha), <- (Rpower_sqrt sb Hb).
    rewrite <- (Rpower_mult_distr sa sb (45 / 100) Ha Hb).
    replace (/ 2)%R with (5 / 100 + 45 / 100)%R by field.
    rewrite !Rpower_plus.
    pose proof (exp_pos (45 / 100 * ln sa)) as Hqa. fold (Rpower sa (45 / 100)) in Hqa.
    pose proof (exp_pos (45 / 100 * ln sb)) as Hqb. fold (Rpower sb (45 / 100)) in Hqb.
    field. repeat split; lra. }
  split; [exact Hmain |].
  intros H1. rewrite Hmain, H1.
  unfold Rpower. rewrite ln_1, Rmult_0_r, exp_0. ring.
Qed.

(** ** The codec, from bytes to floats and back *)

Lemma Z_of_byte_range (b : byte) : 0 <= Z_of_byte b < 256.
Proof.
  unfold Z_of_byte. pose proof (Byte.to_N_bounded b) as H.
  lia.
Qed.

Lemma byte_of_Z_of_byte (b : byte) : byte_of_Z (Z_of_byte b) = b.
Proof.
  unfold byte_of_Z. rewrite Z.mod_small by apply Z_of_byte_range.
  unfold Z_of_byte. rewrite N2Z.id, Byte.of_to_N. reflexivity.
Qed.

Lemma byte_of_Z_mod (z : Z) : byte_of_Z (z mod 256) = byte_of_Z z.
Proof. unfold byte_of_Z. rewrite Z.mod_mod by lia. reflexivity. Qed.

Lemma bytes_to_word_range (b0 b1 b2 b3 : byte) :
  0 <= bytes_to_word b0 b1 b2 b3 < 2 ^ 32.
Proof.
  unfold bytes_to_word.
  pose proof (Z_of_byte_range b0). pose proof (Z_of_byte_range b1).
  pose proof (Z_of_byte_range b2). pose proof (Z_of_byte_range b3).
  change (2 ^ 8) with 256. change (2 ^ 16) with 65536.
  change (2 ^ 24) with 16777216. change (2 ^ 32) with 4294967296. lia.
Qed.

Lemma word_to_bytes_to_word (b0 b1 b2 b3 : byte) :
  word_to_bytes (bytes_to_word b0 b1 b2 b3) = [b0; b1; b2; b3].
Proof.
  unfold word_to_bytes, bytes_to_word.
  pose proof (Z_of_byte_range b0). pose proof (Z_of_byte_range b1).
  pose proof (Z_of_byte_range b2). pose proof (Z_of_byte_range b3).
  rewrite !Z.shiftr_div_pow2 by lia.
  change (2 ^ 8) with 256. change (2 ^ 16) with 65536.
  change (2 ^ 24) with 16777216.
  set (z0 := Z_of_byte b0) in *. set (z1 := Z_of_byte b1) in *.
  set (z2 := Z_of_byte b2) in *. set (z3 := Z_of_byte b3) in *.
  set (w := z0 + z1 * 256 + z2 * 65536 + z3 * 16777216).
  assert (E0 : w mod 256 = z0) by (unfold w; Z.div_mod_to_equations; lia).
  assert (E1 : (w / 256) mod 256 = z1) by (unfold w; Z.div_mod_to_equations; lia).
  assert (E2 : (w / 65536) mod 256 = z2) by (unfold w; Z.div_mod_to_equations; lia).
  assert (E3 : (w / 16777216) mod 256 = z3) by (unfold w; Z.div_mod_to_equations; lia).
  rewrite <- (byte_of_Z_mod w), <- (byte_of_Z_mod (w / 256)),
    <- (byte_of_Z_mod (w / 65536)), <- (byte_of_Z_mod (w / 16777216)).
  rewrite E0, E1, E2, E3. unfold z0, z1, z2, z3.
  rewrite !byte_of_Z_of_byte. reflexivity.
Qed.

(** A 32-bit word is its sign bit, its exponent field and its fraction
    field. *)
Lemma word_fields (w : Z) :
  0 <= w < 2 ^ 32 ->
  let s := Z.testbit w 31 in
  let ex := Z.land (Z.shiftr w 23) 255 in
  let fr := Z.land w (2 ^ 23 - 1) in
  w = (if s then 2 ^ 31 else 0) + (ex * 2 ^ 23 + fr)
  /\ 0 <= ex < 256 /\ 0 <= fr < 2 ^ 23.
Proof.
  intros Hw. cbv zeta.
  change 255 with (Z.ones 8). change (2 ^ 23 - 1) with (Z.ones 23).
  rewrite !Z.land_ones, Z.testbit_odd, !Z.shiftr_div_pow2 by lia.
  change (2 ^ 31) with 2147483648 in *. change (2 ^ 23) with 8388608 in *.
  change (2 ^ 8) with 256. change (2 ^ 32) with 4294967296 in Hw.
  assert (Hs : w / 2147483648 = 0 \/ w / 2147483648 = 1)
    by (Z.div_mod_to_equations; lia).
  destruct Hs as [Hs | Hs]; rewrite Hs; cbn [Z.odd];
    Z.div_mod_to_equations; lia.
Qed.

Lemma digits2_small (m : positive) (k : Z) :
  0 <= k -> Z.pos m < 2 ^ k -> Z.pos (digits2_pos m) <= k.
Proof.
  intros Hk Hm. pose proof (digits2_bounds m) as [Hlo _].
  destruct (Z_le_gt_dec (Z.pos (digits2_pos m)) k) as [Hle | Hgt]; [exact Hle |].
  exfalso. assert (2 ^ k <= 2 ^ (Z.pos (digits2_pos m) - 1))
    by (apply Z.pow_le_mono_r; lia). lia.
Qed.

Lemma digits2_large (m : positive) (k : Z) :
  0 <= k -> 2 ^ k <= Z.pos m -> k < Z.pos (digits2_pos m).
Proof.
  intros Hk Hm. pose proof (digits2_bounds m) as [_ Hhi].
  destruct (Z_lt_le_dec k (Z.pos (digits2_pos m))) as [Hlt | Hge]; [exact Hlt |].
  exfalso. assert (2 ^ Z.pos (digits2_pos m) <= 2 ^ k)
    by (apply Z.pow_le_mono_r; lia). lia.
Qed.

(** Every word decodes to a well-formed binary32 value, and every word
    but the NaN patterns is the pattern of the value it decodes to. *)
Lemma of_bits_valid (w : Z) :
  0 <= w < 2 ^ 32 ->
  valid_binary Binary32.prec Binary32.emax (Binary32.of_bits w) = true
  /\ (Binary32.of_bits w <> S754_nan ->
      Binary32.bits_of (Binary32.of_bits w) = w).
Proof.
  intros Hw. destruct (word_fields w Hw) as (Hdec & Hex & Hfr).
  cbv zeta in Hdec, Hex, Hfr. unfold Binary32.of_bits.
  set (s := Z.testbit w 31) in *.
  set (ex := Z.land (Z.shiftr w 23) 255) in *.
  set (fr := Z.land w (2 ^ 23 - 1)) in *.
  destruct (Z.eqb_spec ex 0) as [He0 | He0].
  - destruct fr as [| m | m] eqn:Hfrm; [| | lia].
    + split; [reflexivity |]. intros _. cbn [Binary32.bits_of]. lia.
    + split.
      * cbn [valid_binary]. unfold bounded, canonical_mantissa, fexp, emin,
          Binary32.prec, Binary32.emax.
        pose proof (digits2_small m 23 ltac:(lia) ltac:(lia)).
        apply andb_true_intro. split; [apply Z.eqb_eq | apply Z.leb_le]; lia.
      * intros _. cbn [Binary32.bits_of].
        destruct (Z.ltb_spec (Z.pos m) (2 ^ 23)); lia.
  - destruct (Z.eqb_spec ex 255) as [He255 | He255].
    + destruct (Z.eqb_spec fr 0) as [Hf0 | Hf0].
      * split; [reflexivity |]. intros _. cbn [Binary32.bits_of]. lia.
      * split; [reflexivity |]. intros H. contradiction.
    + destruct (fr + 2 ^ 23) as [| m | m] eqn:Hm; [lia | | lia].
      assert (Hm23 : 2 ^ 23 <= Z.pos m < 2 ^ 24).
      { change (2 ^ 24) with (2 * 2 ^ 23). lia. }
      pose proof (digits2_small m 24 ltac:(lia) ltac:(lia)).
      pose proof (digits2_large m 23 ltac:(lia) ltac:(lia)).
      split.
      * cbn [valid_binary]. unfold bounded, canonical_mantissa, fexp, emin,
          Binary32.prec, Binary32.emax.
        apply andb_true_intro. split; [apply Z.eqb_eq | apply Z.leb_le]; lia.
      * intros _. cbn [Binary32.bits_of].
        destruct (Z.ltb_spec (Z.pos m) (2 ^ 23)); lia.
Qed.

(** Widening a binary32 value shifts its mantissa to 53 bits. *)
Lemma widen_binary32 (s : bool) (q : positive) (e' : Z) :
  bounded Binary32.prec Binary32.emax q e' = true ->
  exists n,
    widen (S754_finite s q e') = S754_finite s (Nat.iter n xO q) (e' - Z.of_nat n).
Proof.
  intros Hy.
  pose proof (bounded32_range q e' Hy) as (He' & Hq & _).
  pose proof (digits2_small q 24 ltac:(lia) Hq) as Hdig.
  pose proof (digits2_bounds q) as [Hlo Hhi].
  set (n := Z.to_nat (53 - Z.pos (digits2_pos q))).
  assert (Hn : Z.of_nat n = 53 - Z.pos (digits2_pos q))
    by (unfold n; rewrite Z2Nat.id; lia).
  exists n. apply widen_shifted.
  unfold bounded, canonical_mantissa. rewrite digits2_shift.
  unfold fexp, emin, Binary64.prec, Binary64.emax.
  apply andb_true_intro. split; [apply Z.eqb_eq | apply Z.leb_le]; lia.
Qed.

Lemma narrow_widen (y : spec_float) :
  valid_binary Binary32.prec Binary32.emax y = true ->
  narrow (widen y) = y.
Proof.
  intros Hy. destruct y as [s | s | | s q e']; try reflexivity.
  cbn [valid_binary] in Hy.
  destruct (widen_binary32 s q e' Hy) as [n ->].
  apply narrow_shifted. exact Hy.
Qed.

Lemma is_infinity_widen (y : spec_float) :
  valid_binary Binary32.prec Binary32.emax y = true ->
  is_infinity (widen y) = is_infinity y.
Proof.
  intros Hy. destruct y as [s | s | | s q e']; try reflexivity.
  cbn [valid_binary] in Hy.
  destruct (widen_binary32 s q e' Hy) as [n ->]. reflexivity.
Qed.

Lemma widen_nan (y : spec_float) :
  valid_binary Binary32.prec Binary32.emax y = true ->
  widen y = S754_nan -> y = S754_nan.
Proof.
  intros Hy. destruct y as [s | s | | s q e']; try discriminate; [reflexivity |].
  cbn [valid_binary] in Hy.
  destruct (widen_binary32 s q e' Hy) as [n ->]. discriminate.
Qed.

(** Four bytes that are not a NaN pattern are what [struct.pack] gives
    for the float [struct.unpack] reads from them. *)
Lemma unpack_pack_f (b0 b1 b2 b3 : byte) :
  unpack_f b0 b1 b2 b3 <> S754_nan ->
  pack_f (unpack_f b0 b1 b2 b3) = Ok [b0; b1; b2; b3].
Proof.
  intros Hnan. unfold unpack_f in *.
  set (w := bytes_to_word b0 b1 b2 b3) in *.
  destruct (of_bits_valid w (bytes_to_word_range b0 b1 b2 b3)) as [Hv Hbits].
  unfold pack_f. rewrite (narrow_widen _ Hv), (is_infinity_widen _ Hv).
  destruct (is_infinity (Binary32.of_bits w)); cbn [negb andb];
    (rewrite Hbits; [unfold w; rewrite word_to_bytes_to_word; reflexivity |]);
    intros H; apply Hnan; rewrite H; reflexivity.
Qed.

Lemma unpack_then_pack (n : nat) (data : bytes) :
  (length data <= n)%nat ->
  Z.of_nat (length data) mod 4 = 0 ->
  Forall (fun x => x <> S754_nan) (unpack_floats data) ->
  struct_pack_f (unpack_floats data) = Ok data.
Proof.
  revert data; induction n as [| n IH]; intros data Hn Hlen Hnan.
  - destruct data; [reflexivity | cbn [length] in Hn; lia].
  - destruct data as [| b0 [| b1 [| b2 [| b3 rest]]]]; try reflexivity;
      try (exfalso; revert Hlen; cbn; lia).
    cbn [unpack_floats] in *. inversion Hnan as [| ? ? Hx Hrest]; subst.
    cbn [struct_pack_f]. rewrite (unpack_pack_f b0 b1 b2 b3 Hx). cbn [bind].
    rewrite IH; [reflexivity | cbn [length] in Hn; lia | | exact Hrest].
    cbn [length] in Hlen.
    replace (Z.of_nat (S (S (S (S (length rest))))))
      with (Z.of_nat (length rest) + 1 * 4) in Hlen by lia.
    rewrite Z.mod_add in Hlen by lia. exact Hlen.
Qed.

(** The other round trip: a stored buffer that [deserialize_vector]
    decodes, with no NaN in the decoded vector, is exactly what
    [serialize_vector] makes of that vector.  Nothing in a buffer is lost
    by decoding it: sign of zero, infinities and subnormal values
    included. *)
Theorem deserialize_serialize_roundtrip (data : bytes) (v : list float) :
  deserialize_vector data = Ok v ->
  Forall (fun x => x <> S754_nan) v ->
  serialize_vector v = Ok data.
Proof.
  intros Hd Hnan.
  destruct (Z.eq_dec (Z.of_nat (length data) mod 4) 0) as [Hlen | Hlen].
  - rewrite (deserialize_vector_multiple data Hlen) in Hd.
    inversion Hd; subst v. unfold serialize_vector.
    apply (unpack_then_pack (length data)); [lia | exact Hlen | exact Hnan].
  - rewrite (deserialize_vector_ragged data Hlen) in Hd. discriminate.
Qed.

(** ** [get_all] *)

Lemma ltb_asym (s t : string) : String.ltb s t = true -> String.ltb t s = false.
Proof.
  unfold String.ltb. rewrite (String.compare_antisym s t).
  destruct (String.compare t s); cbn [CompOpp]; congruence.
Qed.

Lemma insert_recent_head (r y : Row) (l : list Row) :
  String.ltb (row_created_at y) (row_created_at r) = false ->
  HdRel (fun a b => String.ltb (row_created_at a) (row_created_at b) = false) y l ->
  HdRel (fun a b => String.ltb (row_created_at a) (row_created_at b) = false)
        y (insert_recent r l).
Proof.
  intros Hyr Hl. destruct l as [| z l]; cbn [insert_recent].
  - constructor. exact Hyr.
  - destruct (String.ltb (row_created_at r) (row_created_at z)).
    + constructor. inversion Hl; assumption.
    + constructor. exact Hyr.
Qed.

Lemma insert_recent_sorted (r : Row) (l : list Row) :
  Sorted (fun a b => String.ltb (row_created_at a) (row_created_at b) = false) l ->
  Sorted (fun a b => String.ltb (row_created_at a) (row_created_at b) = false)
         (insert_recent r l).
Proof.
  induction l as [| y l IH]; intros Hs; cbn [insert_recent].
  - repeat constructor.
  - inversion Hs as [| ? ? Hl Hhd]; subst.
    destruct (String.ltb (row_created_at r) (row_created_at y)) eqn:Hlt.
    + constructor; [apply IH; exact Hl |].
      apply insert_recent_head; [apply ltb_asym; exact Hlt | exact Hhd].
    + constructor; [exact Hs |]. constructor. exact Hlt.
Qed.

Lemma order_by_created_at_desc_sorted (rows : list Row) :
  Sorted (fun a b => String.ltb (row_created_at a) (row_created_at b) = false)
         (order_by_created_at_desc rows).
Proof.
  induction rows as [| r rows IH]; [constructor |].
  cbn [order_by_created_at_desc fold_right]. apply insert_recent_sorted. exact IH.
Qed.

Lemma firstn_sorted {A : Type} (R : A -> A -> Prop) (n : nat) (l : list A) :
  Sorted R l -> Sorted R (firstn n l).
Proof.
  revert l; induction n as [| n IH]; intros l Hs; [constructor |].
  destruct l as [| x l]; [constructor |]. cbn [firstn].
  inversion Hs as [| ? ? Hl Hhd]; subst. constructor; [apply IH; exact Hl |].
  destruct n as [| n]; [constructor |].
  destruct l as [| y l]; [constructor |]. cbn [firstn].
  constructor. inversion Hhd; assumption.
Qed.

(** [get_all] lists stored records, newest first: each record it returns
    has a [created_at] that is not below that of the next one; it returns
    all [count()] records for a negative limit and the first [limit] of
    them otherwise; and each dictionary holds the content, the category
    and the creation time of its record. *)
Theorem get_all_lists_newest_first (limit : Z) (w : World)
    (dicts : list (list (key * value))) :
  fst (get_all limit w) = Ok dicts ->
  exists rows,
    dicts = map record_dict rows
    /\ Sorted (fun a b =>
                 String.ltb (row_created_at a) (row_created_at b) = false) rows
    /\ (forall r, In r rows -> In r (memories (db w)))
    /\ Z.of_nat (length rows)
       = (if limit <? 0 then Z.of_nat (length (memories (db w)))
          else Z.min limit (Z.of_nat (length (memories (db w)))))
    /\ fst (count w) = Ok (Z.of_nat (length (memories (db w))))
    /\ forall r,
         dict_get key_eqb (KStr "content") (record_dict r)
         = Some (VStr (row_content r))
         /\ dict_get key_eqb (KStr "category") (record_dict r)
            = Some (VStr (row_category r))
         /\ dict_get key_eqb (KStr "created_at") (record_dict r)
            = Some (VStr (row_created_at r)).
Proof.
  unfold get_all, py_bind, get_db, ret, raise. cbn [fst].
  destruct (int64_ok limit); cbn [fst]; [| discriminate].
  intros H. inversion H; subst dicts; clear H.
  set (sorted := order_by_created_at_desc (memories (db w))).
  assert (Hlen : length sorted = length (memories (db w)))
    by (apply Permutation_length, order_by_created_at_desc_perm).
  exists (sql_limit limit sorted). split; [reflexivity |].
  split; [| split; [| split; [| split]]].
  - unfold sql_limit. destruct (limit <? 0).
    + apply order_by_created_at_desc_sorted.
    + apply firstn_sorted. apply order_by_created_at_desc_sorted.
  - intros r Hr.
    apply (Permutation_in _ (order_by_created_at_desc_perm (memories (db w)))).
    unfold sql_limit in Hr. destruct (limit <? 0); [exact Hr |].
    apply firstn_incl in Hr. exact Hr.
  - unfold sql_limit. destruct (Z.ltb_spec limit 0) as [Hneg | Hpos].
    + rewrite Hlen. reflexivity.
    + rewrite length_firstn, Hlen. lia.
  - reflexivity.
  - intros r. repeat split.
Qed.

(** * The identity files and the settings *)

(** ** Strings *)

Lemma append_assoc (a b c : string) :
  String.append (String.append a b) c = String.append a (String.append b c).
Proof.
  induction a as [| x a IH]; cbn [String.append]; [reflexivity |].
  rewrite IH. reflexivity.
Qed.

Lemma concat_last (sep : string) (l : list string) (x : string) :
  String.concat sep (l ++ [x])
  = match l with
    | [] => x
    | _ :: _ => String.append (String.concat sep l) (String.append sep x)
    end.
Proof.
  induction l as [| y l IH]; [reflexivity |].
  destruct l as [| z l]; [reflexivity |].
  change ((y :: z :: l) ++ [x]) with (y :: ((z :: l) ++ [x])).
  change (String.concat sep (y :: (z :: l) ++ [x]))
    with (String.append y (String.append sep (String.concat sep ((z :: l) ++ [x])))).
  rewrite IH.
  change (String.concat sep (y :: z :: l))
    with (String.append y (String.append sep (String.concat sep (z :: l)))).
  rewrite !append_assoc. reflexivity.
Qed.

(** ** [load_identity] *)

Lemma load_sections_grows (dir : string -> dir_entry)
    (files : list (string * string)) (sections result : list string) :
  load_sections dir files sections = Some result ->
  exists added, result = sections ++ added.
Proof.
  revert sections; induction files as [| [filename label] files IH];
    intros sections H; cbn [load_sections] in H.
  - inversion H. exists []. rewrite app_nil_r. reflexivity.
  - destruct (dir filename) as [| text |]; [| | discriminate].
    + apply IH. exact H.
    + destruct (truthy (strip text)).
      * destruct (IH _ H) as [added ->]. eexists. rewrite <- app_assoc. reflexivity.
      * apply IH. exact H.
Qed.

Lemma load_sections_returns (dir : string -> dir_entry)
    (files : list (string * string)) (sections : list string) :
  (forall f, In f files -> dir (fst f) <> Unreadable) ->
  exists result, load_sections dir files sections = Some result.
Proof.
  revert sections; induction files as [| [filename label] files IH];
    intros sections H; cbn [load_sections].
  - eexists. reflexivity.
  - assert (Hrest : forall f, In f files -> dir (fst f) <> Unreadable)
      by (intros f Hf; apply H; right; exact Hf).
    pose proof (H (filename, label) (or_introl eq_refl)) as Hhere.
    cbn [fst] in Hhere.
    destruct (dir filename) as [| text |]; [| | contradiction].
    + apply IH. exact Hrest.
    + destruct (truthy (strip text)); apply IH; exact Hrest.
Qed.

Lemma load_sections_app (dir : string -> dir_entry)
    (files rest : list (string * string)) (sections : list string) :
  load_sections dir (files ++ rest) sections
  = match load_sections dir files sections with
    | None => None
    | Some middle => load_sections dir rest middle
    end.
Proof.
  revert sections; induction files as [| [filename label] files IH];
    intros sections; cbn [app load_sections]; [reflexivity |].
  destruct (dir filename) as [| text |]; [apply IH | | reflexivity].
  destruct (truthy (strip text)); apply IH.
Qed.

Lemma load_sections_memory (dir : string -> dir_entry)
    (sections result : list string) (text : string) :
  load_sections dir IDENTITY_FILES sections = Some result ->
  dir "MEMORY.md"%string = TextFile text ->
  truthy (strip text) = true ->
  exists earlier,
    result = earlier ++ [String.append "## Decisions & Lessons"
                           (String.append newline (strip text))].
Proof.
  intros H Hm Ht.
  change IDENTITY_FILES
    with (app [("SOUL.md"%string, "Agent Identity"%string);
               ("USER.md"%string, "User Profile"%string)]
              [("MEMORY.md"%string, "Decisions & Lessons"%string)]) in H.
  rewrite load_sections_app in H.
  destruct (load_sections dir _ sections) as [middle |]; [| discriminate].
  cbn [load_sections] in H. rewrite Hm, Ht in H.
  inversion H. exists middle. reflexivity.
Qed.

(** [load_identity] returns as soon as none of the three files is
    unreadable, and what it returns always ends with the placeholder that
    says no MEMORY.md was found: also when MEMORY.md is there, in which
    case the placeholder comes right after the section made from it. *)
Theorem load_identity_ends_with_placeholder (dir : string -> dir_entry) :
  ((forall f, In f IDENTITY_FILES -> dir (fst f) <> Unreadable) ->
   exists s, load_identity dir = Some s)
  /\ forall s, load_identity dir = Some s ->
       (exists before, s = String.append before memory_placeholder)
       /\ forall text,
            dir "MEMORY.md"%string = TextFile text ->
            truthy (strip text) = true ->
            exists before,
              s = String.append before
                    (String.append
                       (String.append "## Decisions & Lessons"
                          (String.append newline (strip text)))
                       (String.append (String.append newline newline)
                                      memory_placeholder)).
Proof.
  split.
  - intros H. unfold load_identity.
    destruct (load_sections_returns dir IDENTITY_FILES [] H) as [result ->].
    eexists. reflexivity.
  - intros s H. unfold load_identity in H.
    destruct (load_sections dir IDENTITY_FILES []) as [sections |] eqn:Hs;
      [| discriminate].
    cbn [last IDENTITY_FILES] in H. fold memory_placeholder in H.
    inversion H; subst s; clear H. rewrite concat_last. split.
    + destruct sections as [| x sections].
      * exists EmptyString. reflexivity.
      * eexists. rewrite <- append_assoc. reflexivity.
    + intros text Hm Ht.
      destruct (load_sections_memory dir [] sections text Hs Hm Ht)
        as [earlier ->].
      destruct earlier as [| x earlier].
      * exists EmptyString. reflexivity.
      * rewrite (concat_last _ (x :: earlier)).
        exists (String.append
                  (String.concat (String.append newline newline) (x :: earlier))
                  (String.append newline newline)).
        rewrite !append_assoc. reflexivity.
Qed.

Lemma load_sections_nothing (dir : string -> dir_entry)
    (files : list (string * string)) (sections : list string) :
  (forall f, In f files -> yields_nothing (dir (fst f))) ->
  load_sections dir files sections = Some sections.
Proof.
  revert sections; induction files as [| [filename label] files IH];
    intros sections H; cbn [load_sections]; [reflexivity |].
  assert (Hrest : forall f, In f files -> yields_nothing (dir (fst f)))
    by (intros f Hf; apply H; right; exact Hf).
  destruct (H (filename, label) (or_introl eq_refl)) as [Ha | (text & Ht & Hblank)];
    cbn [fst] in *.
  - rewrite Ha. apply IH. exact Hrest.
  - rewrite Ht, Hblank. apply IH. exact Hrest.
Qed.

(** A file that is missing gets no placeholder of its own, and a blank
    file gets no section: when none of the three files has text, what
    [load_identity] returns is the MEMORY.md placeholder and nothing
    else, with no word about SOUL.md or USER.md. *)
Theorem load_identity_without_files (dir : string -> dir_entry) :
  (forall f, In f IDENTITY_FILES -> yields_nothing (dir (fst f))) ->
  load_identity dir = Some memory_placeholder.
Proof.
  intros H. unfold load_identity.
  rewrite (load_sections_nothing dir IDENTITY_FILES [] H). reflexivity.
Qed.

(** ** The auto-approve list of [load_config] *)

Lemma chars_lstrip (s : string) :
  list_ascii_of_string (lstrip s) = drop_spaces (list_ascii_of_string s).
Proof.
  induction s as [| c s IH]; [reflexivity |].
  cbn [lstrip list_ascii_of_string drop_spaces].
  destruct (is_space_char c); [exact IH | reflexivity].
Qed.

Lemma chars_rev_onto (s acc : string) :
  list_ascii_of_string (string_rev_onto s acc)
  = rev (list_ascii_of_string s) ++ list_ascii_of_string acc.
Proof.
  revert acc; induction s as [| c s IH]; intros acc; [reflexivity |].
  cbn [string_rev_onto list_ascii_of_string rev]. rewrite IH.
  cbn [list_ascii_of_string]. rewrite <- app_assoc. reflexivity.
Qed.

Lemma chars_rev (s : string) :
  list_ascii_of_string (string_rev s) = rev (list_ascii_of_string s).
Proof.
  unfold string_rev. rewrite chars_rev_onto. cbn [list_ascii_of_string].
  apply app_nil_r.
Qed.

Lemma chars_strip (s : string) :
  list_ascii_of_string (strip s)
  = rev (drop_spaces (rev (drop_spaces (list_ascii_of_string s)))).
Proof.
  unfold strip. rewrite chars_rev, chars_lstrip, chars_rev, chars_lstrip.
  reflexivity.
Qed.

Lemma chars_inj (s t : string) :
  list_ascii_of_string s = list_ascii_of_string t -> s = t.
Proof.
  intros H. rewrite <- (string_of_list_ascii_of_string s),
    <- (string_of_list_ascii_of_string t), H. reflexivity.
Qed.

Lemma drop_spaces_head (l : list ascii) :
  drop_spaces l = []
  \/ exists c t, drop_spaces l = c :: t /\ is_space_char c = false.
Proof.
  induction l as [| c l IH]; [left; reflexivity |].
  cbn [drop_spaces]. destruct (is_space_char c) eqn:Hc; [exact IH |].
  right. exists c, l. split; [reflexivity | exact Hc].
Qed.

Lemma drop_spaces_id (c : ascii) (t : list ascii) :
  is_space_char c = false -> drop_spaces (c :: t) = c :: t.
Proof. intros H. cbn [drop_spaces]. rewrite H. reflexivity. Qed.

Lemma drop_spaces_idem (l : list ascii) :
  drop_spaces (drop_spaces l) = drop_spaces l.
Proof.
  destruct (drop_spaces_head l) as [-> | (c & t & -> & Hc)]; [reflexivity |].
  apply drop_spaces_id. exact Hc.
Qed.

Lemma drop_spaces_last (a : list ascii) (c : ascii) :
  is_space_char c = false -> drop_spaces (a ++ [c]) = drop_spaces a ++ [c].
Proof.
  intros Hc. induction a as [| x a IH]; cbn [app drop_spaces].
  - rewrite Hc. reflexivity.
  - destruct (is_space_char x); [exact IH | reflexivity].
Qed.

Lemma drop_spaces_incl (l : list ascii) (c : ascii) :
  In c (drop_spaces l) -> In c l.
Proof.
  induction l as [| x l IH]; [intros [] |]. cbn [drop_spaces].
  destruct (is_space_char x); [intros H; right; apply IH; exact H | auto].
Qed.

Lemma strip_idem (s : string) : strip (strip s) = strip s.
Proof.
  apply chars_inj. rewrite (chars_strip (strip s)), (chars_strip s).
  destruct (drop_spaces_head (list_ascii_of_string s)) as [-> | (c & t & -> & Hc)];
    [reflexivity |].
  cbn [rev]. rewrite (drop_spaces_last (rev t) c Hc), rev_app_distr.
  cbn [rev app]. rewrite (drop_spaces_id c _ Hc).
  cbn [rev]. rewrite rev_involutive, (drop_spaces_last _ c Hc), drop_spaces_idem.
  rewrite rev_app_distr. reflexivity.
Qed.

Lemma strip_chars (s : string) (c : ascii) :
  In c (list_ascii_of_string (strip s)) -> In c (list_ascii_of_string s).
Proof.
  rewrite chars_strip. intros H.
  apply in_rev in H. apply drop_spaces_incl in H. apply in_rev in H.
  apply drop_spaces_incl in H. exact H.
Qed.

Lemma split_on_nonempty (sep : ascii) (s : string) : split_on sep s <> [].
Proof.
  destruct s as [| c s]; cbn [split_on]; [discriminate |].
  destruct (Ascii.eqb c sep); [discriminate |].
  destruct (split_on sep s); discriminate.
Qed.

Lemma split_on_pieces (sep : ascii) (s piece : string) :
  In piece (split_on sep s) -> ~ In sep (list_ascii_of_string piece).
Proof.
  revert piece; induction s as [| c s IH]; intros piece; cbn [split_on].
  - intros [<- | []]. intros [].
  - destruct (Ascii.eqb_spec c sep) as [-> | Hne].
    + intros [<- | H]; [intros [] | apply IH; exact H].
    + destruct (split_on sep s) as [| p ps] eqn:Hs.
      * intros [<- | []]. cbn [list_ascii_of_string In]. intros [H | []].
        apply Hne. exact H.
      * intros [<- | H].
        -- cbn [list_ascii_of_string In]. intros [H | H]; [apply Hne; exact H |].
           apply (IH p (or_introl eq_refl)). exact H.
        -- apply IH. right. exact H.
Qed.

Lemma parse_actions_clean (auto_approve : string) :
  Forall clean_action (parse_actions auto_approve).
Proof.
  unfold parse_actions. apply Forall_forall. intros a Ha.
  apply in_map_iff in Ha. destruct Ha as (piece & <- & Hp).
  apply filter_In in Hp. destruct Hp as [Hin Htruthy].
  split; [exact Htruthy |]. split; [apply strip_idem |].
  intros Hc. apply strip_chars in Hc.
  apply (split_on_pieces comma auto_approve piece Hin). exact Hc.
Qed.

Lemma split_on_free (sep : ascii) (x : string) :
  ~ In sep (list_ascii_of_string x) -> split_on sep x = [x].
Proof.
  induction x as [| c x IH]; intros H; [reflexivity |].
  cbn [split_on]. cbn [list_ascii_of_string In] in H.
  destruct (Ascii.eqb_spec c sep) as [-> | Hne]; [exfalso; apply H; left; reflexivity |].
  rewrite IH by tauto. reflexivity.
Qed.

Lemma split_on_append (sep : ascii) (x rest : string) :
  ~ In sep (list_ascii_of_string x) ->
  split_on sep (String.append x (String sep rest)) = x :: split_on sep rest.
Proof.
  induction x as [| c x IH]; intros H; cbn [String.append split_on].
  - rewrite Ascii.eqb_refl. reflexivity.
  - cbn [list_ascii_of_string In] in H.
    destruct (Ascii.eqb_spec c sep) as [-> | Hne];
      [exfalso; apply H; left; reflexivity |].
    rewrite IH by tauto. reflexivity.
Qed.

Lemma split_on_concat (names : list string) :
  names <> [] ->
  Forall (fun a => ~ In comma (list_ascii_of_string a)) names ->
  split_on comma (String.concat (String comma EmptyString) names) = names.
Proof.
  intros Hne Hall. induction Hall as [| a names Ha Hall IH]; [contradiction |].
  destruct names as [| b names].
  - cbn [String.concat]. apply split_on_free. exact Ha.
  - change (String.concat (String comma EmptyString) (a :: b :: names))
      with (String.append a
              (String comma (String.concat (String comma EmptyString) (b :: names)))).
    rewrite split_on_append by exact Ha. rewrite IH by discriminate. reflexivity.
Qed.

Lemma parse_actions_default :
  parse_actions "read_file,search_memory,list_skills"
  = ["read_file"; "search_memory"; "list_skills"]%string.
Proof. vm_compute. reflexivity. Qed.

(** Whatever AUTO_APPROVE_ACTIONS holds, every action [load_config] puts
    on the auto-approve list is not empty, has no blank at either end and
    holds no comma.  Without the variable the list is the default of three
    read-only actions; with the variable set to the empty string it is
    empty, so nothing is approved without asking. *)
Theorem auto_approve_actions_are_clean (env : string -> option string)
    (int : string -> option Z) (config : Config) :
  load_config env int = Some config ->
  Forall clean_action (auto_approve_actions config)
  /\ (env "AUTO_APPROVE_ACTIONS"%string = None ->
      auto_approve_actions config
      = ["read_file"; "search_memory"; "list_skills"]%string)
  /\ (env "AUTO_APPROVE_ACTIONS"%string = Some EmptyString ->
      auto_approve_actions config = []).
Proof.
  unfold load_config. intros H.
  destruct (int _) as [heartbeat |]; [| discriminate].
  destruct (int _) as [timeout |]; [| discriminate].
  inversion H; subst config; clear H. cbn [auto_approve_actions].
  split; [apply parse_actions_clean |]. unfold getenv. split; intros ->.
  - apply parse_actions_default.
  - reflexivity.
Qed.

(** Writing action names with commas between them and loading them gives
    the same names back, in the same order, as long as each name is clean
    (not empty, no blank at either end, no comma). *)
Theorem auto_approve_roundtrip (env : string -> option string)
    (int : string -> option Z) (config : Config) (names : list string) :
  Forall clean_action names ->
  env "AUTO_APPROVE_ACTIONS"%string
  = Some (String.concat (String comma EmptyString) names) ->
  load_config env int = Some config ->
  auto_approve_actions config = names.
Proof.
  intros Hclean Henv. unfold load_config. intros H.
  destruct (int _) as [heartbeat |]; [| discriminate].
  destruct (int _) as [timeout |]; [| discriminate].
  inversion H; subst config; clear H. cbn [auto_approve_actions].
  unfold getenv. rewrite Henv. unfold parse_actions.
  destruct names as [| a names]; [reflexivity |].
  rewrite split_on_concat.
  - rewrite filter_all.
    + rewrite <- (map_id (a :: names)) at 2. apply map_ext_in.
      intros x Hx. rewrite Forall_forall in Hclean. apply (Hclean x Hx).
    + intros x Hx. rewrite Forall_forall in Hclean.
      destruct (Hclean x Hx) as (Ht & Hs & _). rewrite Hs. exact Ht.
  - discriminate.
  - apply Forall_forall. intros x Hx. rewrite Forall_forall in Hclean.
    apply (Hclean x Hx).
Qed.

(** * The further properties on concrete inputs *)

Lemma first_save_returns : first_save = (Ok 1, snd first_save).
Proof. vm_compute. reflexivity. Qed.

Lemma theme_world_mirrored :
  table_ids (db theme_world) = index_ids (db theme_world).
Proof. vm_compute. reflexivity. Qed.

Lemma model_is_loaded_once_witness :
  exists m,
    _embed_model (snd (embed_text rt_plain theme_query new_world)) = Some m
    /\ toy_model theme_query = m theme_query
    /\ forall rt' text',
         embed_text rt' text' (snd (embed_text rt_plain theme_query new_world))
         = (Ok (m text'), snd (embed_text rt_plain theme_query new_world)).
Proof.
  apply (proj1 (model_is_loaded_once rt_plain theme_query new_world)
               (toy_model theme_query)).
  reflexivity.
Defined.

Lemma save_ids_are_never_reused_witness :
  (forall id, In id (table_ids (db new_world)) -> id < 1) /\ 1 < 2.
Proof.
  apply (save_ids_are_never_reused rt_plain [OpDelete 1]
           note_a "fact" "2026-01-01T09:00:00"
           note_b "preference" "2026-01-02T09:00:00"
           new_world (snd first_save)).
  - exact first_save_returns.
  - vm_compute. reflexivity.
Defined.

Lemma delete_removes_exactly_witness :
  exists b w',
    delete 2 theme_world = (Ok b, w')
    /\ (b = true <-> In 2 (table_ids (db theme_world)))
    /\ (b = false -> w' = theme_world)
    /\ memories (db w')
       = filter (fun r => negb (row_id r =? 2)) (memories (db theme_world))
    /\ (b = true ->
          memories_fts (db w')
          = filter (fun x => negb (fts_rowid x =? 2))
                   (memories_fts (db theme_world)))
    /\ ~ In 2 (table_ids (db w'))
    /\ (table_ids (db theme_world) = index_ids (db theme_world) ->
          ~ In 2 (index_ids (db w'))).
Proof.
  apply (delete_removes_exactly 2 theme_world). reflexivity.
Defined.

Lemma delete_twice_witness :
  delete 2 (snd (delete 2 theme_world)) = (Ok false, snd (delete 2 theme_world)).
Proof.
  apply (delete_twice 2 theme_world). reflexivity.
Defined.

Lemma save_then_delete_restores_witness :
  exists w2,
    delete 1 (snd first_save) = (Ok true, w2)
    /\ memories (db w2) = memories (db new_world)
    /\ memories_fts (db w2) = memories_fts (db new_world)
    /\ fst (count w2) = fst (count new_world)
    /\ sqlite_sequence (db w2) = 1.
Proof.
  apply (save_then_delete_restores rt_plain note_a "fact" "2026-01-01T09:00:00"
           new_world (snd first_save) 1).
  - reflexivity.
  - exact first_save_returns.
  - reflexivity.
Defined.

Lemma search_on_own_store_witness :
  returns (fst (search rt_theme theme_query 5 theme_world)).
Proof.
  apply (proj1 (search_on_own_store rt_plain rt_theme theme_ops None theme_query 5)).
  vm_compute. discriminate.
Defined.

Lemma search_hit_is_weighted_sum_witness :
  exists h,
    hit_score h
    = (VECTOR_WEIGHT * hit_vector_score h + KEYWORD_WEIGHT * hit_keyword_score h)%R
    /\ (0 <= hit_vector_score h)%R
    /\ (0 <= hit_keyword_score h <= 1)%R
    /\ exists r, In r (memories (db partial_world)) /\ blob_of r <> None
                 /\ row_id r = hit_id h
                 /\ row_content r = hit_content h
                 /\ row_category r = hit_category h
                 /\ row_created_at r = hit_created_at h.
Proof.
  destruct (search_partial_world "Fridays" 5 ltac:(lia)) as (h & Hs & _).
  exists h.
  apply (search_hit_is_weighted_sum rt_friday "Fridays" 5 partial_world [h] h).
  - exact Hs.
  - left. reflexivity.
Defined.


Lemma search_returns_every_candidate_witness :
  exists res,
    fst (search rt_friday "Fridays" 5 partial_world) = Ok res
    /\ forall id, In id (map hit_id res) <->
                  exists r, In r (memories (db partial_world)) /\ row_id r = id
                            /\ blob_of r <> None.
Proof.
  destruct (search_partial_world "Fridays" 5 ltac:(lia)) as (h & Hs & _).
  exists [h]. split; [exact Hs |].
  apply (search_returns_every_candidate rt_friday "Fridays" 5 partial_world [h]).
  - cbn. lia.
  - exact Hs.
Defined.

Lemma search_without_keywords_witness :
  exists res,
    fst (search rt_friday "?!" 5 partial_world) = Ok res
    /\ Forall (fun h => hit_keyword_score h = 0%R
                        /\ hit_score h = (VECTOR_WEIGHT * hit_vector_score h)%R)
              res.
Proof.
  destruct (search_partial_world "?!" 5 ltac:(lia)) as (h & Hs & _).
  exists [h]. split; [exact Hs |].
  apply (search_without_keywords rt_friday "?!" 5 partial_world [h]).
  - left. reflexivity.
  - exact Hs.
Defined.

Lemma saved_record_is_found_witness :
  exists res h,
    fst (search rt_theme theme_query 5 (snd first_save)) = Ok res
    /\ In h res /\ hit_id h = 1
    /\ hit_content h = note_a
    /\ hit_category h = "fact"%string
    /\ hit_created_at h = "2026-01-01T09:00:00"%string.
Proof.
  apply (saved_record_is_found rt_plain rt_theme note_a "fact"
           "2026-01-01T09:00:00" theme_query 5 new_world (snd first_save) 1).
  - constructor.
  - exact first_save_returns.
  - intros m Hm. inversion Hm. discriminate.
  - cbn. lia.
Defined.

Lemma theme_ranks_distinct : NoDup (map fst theme_ranks).
Proof.
  cbn. repeat constructor; cbn; intuition discriminate.
Qed.

Lemma keyword_scores_extremes_witness :
  let lo := py_min (map snd theme_ranks) in
  let hi := py_max (map snd theme_ranks) in
  ((-10)%R = lo -> dict_get Z.eqb 1 (normalize_ranks theme_ranks) = Some 1%R)
  /\ ((-10)%R = hi -> hi <> lo ->
        dict_get Z.eqb 1 (normalize_ranks theme_ranks) = Some 0%R)
  /\ (hi = lo -> dict_get Z.eqb 1 (normalize_ranks theme_ranks) = Some 1%R).
Proof.
  apply (keyword_scores_extremes theme_ranks 1 (-10)%R).
  - exact theme_ranks_distinct.
  - left. reflexivity.
Defined.

Lemma sanitize_keeps_words_and_spaces_witness :
  sanitize "dark theme" = "dark theme"%string.
Proof.
  apply (proj2 (proj2 (sanitize_keeps_words_and_spaces "dark theme"))).
  intros c Hc. cbn in Hc.
  repeat (destruct Hc as [<- | Hc]; [reflexivity |]). destruct Hc.
Defined.

Lemma wordless_query_skips_fts_witness :
  keyword_search rt_theme (db theme_world) "?!" 5 = [].
Proof.
  apply wordless_query_skips_fts.
  intros c Hc. cbn in Hc.
  repeat (destruct Hc as [<- | Hc]; [reflexivity |]). destruct Hc.
Defined.

Lemma cosine_similarity_of_zero_vector_witness :
  cosine_similarity [f_zero; S754_zero true] [f_one] = 0%R
  /\ cosine_similarity [f_one] [f_zero; S754_zero true] = 0%R.
Proof.
  apply cosine_similarity_of_zero_vector.
  intros x [<- | [<- | []]]; reflexivity.
Defined.

Lemma sum_of_squares_f_two : sum_of_squares [f_two] = 4%R.
Proof.
  unfold sum_of_squares, py_sum. cbn [map fold_left].
  rewrite float_val_f_two. lra.
Qed.

Lemma cosine_similarity_closed_form_witness :
  cosine_similarity [f_two] [f_two]
  = (reference_cosine [f_two] [f_two]
     * Rpower (sum_of_squares [f_two] * sum_of_squares [f_two]) (45 / 100))%R
  /\ ((sum_of_squares [f_two] * sum_of_squares [f_two] = 1)%R ->
      cosine_similarity [f_two] [f_two] = reference_cosine [f_two] [f_two]).
Proof.
  apply cosine_similarity_closed_form; rewrite sum_of_squares_f_two; lra.
Defined.

Lemma deserialize_serialize_roundtrip_witness :
  serialize_vector (map eighths [8; 0; 0; 0; 0]) = Ok blob_unit.
Proof.
  apply deserialize_serialize_roundtrip.
  - exact blob_unit_decodes.
  - repeat constructor; discriminate.
Defined.

Lemma get_all_lists_newest_first_witness :
  exists rows,
    map record_dict
      (sql_limit 2 (order_by_created_at_desc (memories (db theme_world))))
    = map record_dict rows
    /\ Sorted (fun a b =>
                 String.ltb (row_created_at a) (row_created_at b) = false) rows
    /\ (forall r, In r rows -> In r (memories (db theme_world)))
    /\ Z.of_nat (length rows)
       = (if 2 <? 0 then Z.of_nat (length (memories (db theme_world)))
          else Z.min 2 (Z.of_nat (length (memories (db theme_world)))))
    /\ fst (count theme_world) = Ok (Z.of_nat (length (memories (db theme_world))))
    /\ forall r,
         dict_get key_eqb (KStr "content") (record_dict r)
         = Some (VStr (row_content r))
         /\ dict_get key_eqb (KStr "category") (record_dict r)
            = Some (VStr (row_category r))
         /\ dict_get key_eqb (KStr "created_at") (record_dict r)
            = Some (VStr (row_created_at r)).
Proof.
  apply (get_all_lists_newest_first 2 theme_world). reflexivity.
Defined.

Lemma load_identity_ends_with_placeholder_witness :
  exists s,
    load_identity sample_dir = Some s
    /\ exists before,
         s = String.append before
               (String.append
                  (String.append "## Decisions & Lessons"
                     (String.append newline (strip "  likes tea  ")))
                  (String.append (String.append newline newline)
                                 memory_placeholder)).
Proof.
  destruct (load_identity_ends_with_placeholder sample_dir) as [Hret Hend].
  destruct Hret as [s Hs].
  - intros f [<- | [<- | [<- | []]]]; discriminate.
  - exists s. split; [exact Hs |].
    apply (proj2 (Hend s Hs) "  likes tea  "%string); reflexivity.
Defined.

Lemma load_identity_without_files_witness :
  load_identity empty_dir = Some memory_placeholder.
Proof.
  apply load_identity_without_files. intros f _. left. reflexivity.
Defined.

Lemma no_env_loads :
  exists config, load_config no_env int_thirty = Some config.
Proof. eexists. reflexivity. Qed.

Lemma auto_approve_actions_are_clean_witness :
  exists config,
    load_config no_env int_thirty = Some config
    /\ Forall clean_action (auto_approve_actions config)
    /\ auto_approve_actions config
       = ["read_file"; "search_memory"; "list_skills"]%string.
Proof.
  destruct no_env_loads as [config Hc]. exists config.
  destruct (auto_approve_actions_are_clean no_env int_thirty config Hc)
    as (Hclean & Hdefault & _).
  split; [exact Hc |]. split; [exact Hclean |]. apply Hdefault. reflexivity.
Defined.

Lemma two_actions_clean : Forall clean_action two_actions.
Proof.
  repeat constructor; try (vm_compute; reflexivity);
    cbn; intuition discriminate.
Qed.

Lemma actions_env_loads :
  exists config, load_config actions_env int_thirty = Some config.
Proof. eexists. reflexivity. Qed.

Lemma auto_approve_roundtrip_witness :
  exists config,
    load_config actions_env int_thirty = Some config
    /\ auto_approve_actions config = two_actions.
Proof.
  destruct actions_env_loads as [config Hc]. exists config.
  split; [exact Hc |].
  apply (auto_approve_roundtrip actions_env int_thirty config two_actions).
  - exact two_actions_clean.
  - reflexivity.
  - exact Hc.
Defined.
